(** * boostburn: incremental Bedrock usage ingestion and accounting

    A shallow embedding of the accounting core of the [boostburn] package
    (Python): the token aggregator of [models.py], the cost formula of
    [metrics/aggregator.py], the price lookup of [adapters/pricing.py], the
    record parser of [ingest/bedrock_parser.py], the manifest of
    [state/manifest.py] and the per-region nodes of [graph/workflow.py].

    Conventions.
    - Python [int] is [Z]; Python [float] is IEEE-754 binary64, here the
      primitive [float] with its primitive operations.
    - A Python [dict] whose iteration order is observable (the maps of
      [Metrics]: costs are summed in iteration order) is an insertion-ordered
      association list; a [dict] or [set] whose order is never observed is a
      [gmap] or a [gset].
    - A Python exception is a [Raise] outcome; objects mutated in place are
      passed and returned as values (no two maps of a [Metrics] ever share a
      [TokenStats] object, so there is no aliasing to track). *)

From Stdlib Require Import ZArith Floats Ascii.
From stdpp Require Import gmap strings list.

Set Warnings "-inexact-float,-register-all,-clear-no-such-hyp".
Local Open Scope Z_scope.

(** ** Outcomes of fallible code *)

Inductive exn : Type :=
  | KeyError
  | OverflowError
  | TypeError
  | AttributeError
  | Untyped.
    (* not a Python exception: the value at hand is outside the typed data
       model (a number where the aggregate needs text, say), and the
       embedding follows the run no further *)

Inductive outcome (A : Type) : Type :=
  | Ok (a : A)
  | Raise (e : exn).

Arguments Ok {A} a.
Arguments Raise {A} e.

#[global] Instance outcome_ret : MRet outcome := fun _ a => Ok a.
#[global] Instance outcome_bind : MBind outcome := fun _ _ k x =>
  match x with
  | Ok a => k a
  | Raise e => Raise e
  end.

(** [d[k]] on an optional lookup: absent is [KeyError]. *)
Definition or_raise {A} (e : exn) (x : option A) : outcome A :=
  match x with
  | Some a => Ok a
  | None => Raise e
  end.

Definition is_ok {A} (x : outcome A) : Prop :=
  match x with Ok _ => True | Raise _ => False end.

(** ** Insertion-ordered dictionaries *)

Module OrderedDict.
Section ordered_dict.
Context {K : Type} `{EqDecision K} {V : Type}.

(** [d.get(k)] *)
Fixpoint od_get (k : K) (d : list (K * V)) : option V :=
  match d with
  | [] => None
  | (k', v) :: rest => if decide (k = k') then Some v else od_get k rest
  end.

(** [k in d] *)
Definition od_mem (k : K) (d : list (K * V)) : bool :=
  match od_get k d with Some _ => true | None => false end.

(** [d.setdefault(k, v0)] followed by an in-place update [f] of the entry:
    an existing entry keeps its position, a new one goes last. *)
Fixpoint od_upsert (k : K) (f : V -> V) (v0 : V) (d : list (K * V)) : list (K * V) :=
  match d with
  | [] => [(k, f v0)]
  | (k', v) :: rest =>
      if decide (k = k') then (k', f v) :: rest
      else (k', v) :: od_upsert k f v0 rest
  end.

(** [d[k]] updated in place by [f]; [None] is Python's [KeyError]. *)
Fixpoint od_update (k : K) (f : V -> V) (d : list (K * V)) : option (list (K * V)) :=
  match d with
  | [] => None
  | (k', v) :: rest =>
      if decide (k = k') then Some ((k', f v) :: rest)
      else option_map (cons (k', v)) (od_update k f rest)
  end.

(** [for v in d.values(): v.field = ...] *)
Definition od_map_values (f : V -> V) (d : list (K * V)) : list (K * V) :=
  map (fun kv => (fst kv, f (snd kv))) d.

Definition od_keys (d : list (K * V)) : list K := map fst d.
Definition od_values (d : list (K * V)) : list V := map snd d.
End ordered_dict.
End OrderedDict.
Import OrderedDict.

(** ** [models.py]: TokenStats and Metrics *)

Record TokenStats : Type := mkTokenStats {
  input_tokens : Z;
  output_tokens : Z;
  total_tokens : Z;
  cost_usd : float
}.

(** [TokenStats()] *)
Definition TokenStats0 : TokenStats := mkTokenStats 0 0 0 0%float.

(** [TokenStats.add] *)
Definition TokenStats_add (self : TokenStats) (inp out : Z) (cost : float) : TokenStats :=
  {| input_tokens := input_tokens self + inp;
     output_tokens := output_tokens self + out;
     total_tokens := total_tokens self + (inp + out);
     cost_usd := (cost_usd self + cost)%float |}.

Definition set_cost (c : float) (s : TokenStats) : TokenStats :=
  {| input_tokens := input_tokens s;
     output_tokens := output_tokens s;
     total_tokens := total_tokens s;
     cost_usd := c |}.

Definition add_cost (c : float) (s : TokenStats) : TokenStats :=
  set_cost (cost_usd s + c)%float s.

Definition usage_key : Type := string * string * string.

Record Metrics : Type := mkMetrics {
  totals : TokenStats;
  by_region : list (string * TokenStats);
  by_identity : list (string * TokenStats);
  by_model : list (string * TokenStats);
  by_usage_key : list (usage_key * TokenStats);
  model_id_map : list (string * string)
}.

(** [Metrics()] *)
Definition Metrics0 : Metrics := mkMetrics TokenStats0 [] [] [] [] [].

(** Truthiness of an [Optional[str]] *)
Definition str_truthy (s : option string) : bool :=
  match s with
  | Some (String _ _) => true
  | _ => false
  end.

(** [Metrics.add_usage] *)
Definition add_usage (self : Metrics) (region ident model_id : string)
    (inp out : Z) (cost : float) (original_model_id : option string) : Metrics :=
  let bump := fun s => TokenStats_add s inp out cost in
  {| totals := bump (totals self);
     by_region := od_upsert region bump TokenStats0 (by_region self);
     by_identity := od_upsert ident bump TokenStats0 (by_identity self);
     by_model := od_upsert model_id bump TokenStats0 (by_model self);
     by_usage_key :=
       od_upsert (region, ident, model_id)
         (fun s => TokenStats_add s inp out 0%float) TokenStats0 (by_usage_key self);
     model_id_map :=
       match original_model_id with
       | Some orig =>
           if str_truthy original_model_id && negb (od_mem model_id (model_id_map self))
           then model_id_map self ++ [(model_id, orig)]
           else model_id_map self
       | None => model_id_map self
       end |}.

(** One loop of [Metrics.merge]: every entry of [other] is added, tokens
    only, into the entry of [self] under the same key, created when absent. *)
Definition merge_stats {K} `{EqDecision K}
    (self other : list (K * TokenStats)) : list (K * TokenStats) :=
  foldl (fun acc kv =>
           od_upsert (fst kv)
             (fun s => TokenStats_add s (input_tokens (snd kv)) (output_tokens (snd kv)) 0%float)
             TokenStats0 acc)
        self other.

Definition merge_model_id_map (self other : list (string * string)) : list (string * string) :=
  foldl (fun acc kv => if od_mem (fst kv) acc then acc else acc ++ [kv]) self other.

(** [Metrics.merge] *)
Definition merge (self other : Metrics) : Metrics :=
  {| totals :=
       TokenStats_add (totals self)
         (input_tokens (totals other)) (output_tokens (totals other)) 0%float;
     by_region := merge_stats (by_region self) (by_region other);
     by_identity := merge_stats (by_identity self) (by_identity other);
     by_model := merge_stats (by_model self) (by_model other);
     by_usage_key := merge_stats (by_usage_key self) (by_usage_key other);
     model_id_map := merge_model_id_map (model_id_map self) (model_id_map other) |}.

(** ** [adapters/pricing.py] and [metrics/aggregator.py]: rates and cost *)

Record PriceRate : Type := mkPriceRate {
  input_per_1k : float;
  output_per_1k : float;
  currency : string;
  effective_date : option string;
  missing_input : bool;
  missing_output : bool
}.

(** [PriceRate(input_per_1k=i, output_per_1k=o)] with the dataclass defaults *)
Definition PriceRate_of (i o : float) : PriceRate :=
  mkPriceRate i o "USD" None false false.

(** Conversion of a Python [int] to [float], as the true division
    [tokens / 1000.0] performs it: round to nearest, ties to even, and
    [OverflowError] when the integer is beyond the binary64 range. *)
Definition float_of_int (n : Z) : outcome float :=
  match SpecFloat.binary_normalize 53 1024 n 0 false with
  | S754_infinity _ => Raise OverflowError
  | sf => Ok (SF2Prim sf)
  end.

(** [compute_cost] *)
Definition compute_cost (rate : option PriceRate) (inp out : Z) : outcome float :=
  match rate with
  | None => Ok 0%float
  | Some r =>
      i ← float_of_int inp;
      o ← float_of_int out;
      Ok ((i / 1000) * input_per_1k r + (o / 1000) * output_per_1k r)%float
  end.

(** [PricingProvider.get_rate], the interface [apply_pricing] calls *)
Definition PricingProvider : Type := string -> string -> option PriceRate.

Record Warnings : Type := mkWarnings {
  unpriced_models : gset string;
  partial_pricing_models : gset string;
  missing_token_counts : Z;
  records_skipped : Z;
  verification_errors : gset string
}.

(** [Warnings()] *)
Definition Warnings0 : Warnings := mkWarnings ∅ ∅ 0 0 ∅.

Definition add_unpriced (m : string) (w : Warnings) : Warnings :=
  mkWarnings ({[m]} ∪ unpriced_models w) (partial_pricing_models w)
    (missing_token_counts w) (records_skipped w) (verification_errors w).

Definition add_partial (m : string) (w : Warnings) : Warnings :=
  mkWarnings (unpriced_models w) ({[m]} ∪ partial_pricing_models w)
    (missing_token_counts w) (records_skipped w) (verification_errors w).

(** [self.model_id_map.get(model_id, model_id)] *)
Definition original_of (idmap : list (string * string)) (model_id : string) : string :=
  default model_id (od_get model_id idmap).

(** The rate [apply_pricing] obtains for one granular entry. *)
Definition rate_of (pricing : PricingProvider) (idmap : list (string * string))
    (k : usage_key) : option PriceRate :=
  let '(region, _, model_id) := k in pricing (original_of idmap model_id) region.

(** The warning bookkeeping of one iteration. *)
Definition note_rate (model_id : string) (rate : option PriceRate) (w : Warnings) : Warnings :=
  match rate with
  | None => add_unpriced model_id w
  | Some r => if missing_input r || missing_output r then add_partial model_id w else w
  end.

(** The part of a [Metrics] the pricing loop mutates besides the granular
    entry at hand. *)
Record rollup : Type := mkRollup {
  r_totals : TokenStats;
  r_by_region : list (string * TokenStats);
  r_by_identity : list (string * TokenStats);
  r_by_model : list (string * TokenStats);
  r_warnings : Warnings
}.

(** The [for ... in self.by_usage_key.items()] loop of [apply_pricing]. *)
Fixpoint price_entries (pricing : PricingProvider) (idmap : list (string * string))
    (entries : list (usage_key * TokenStats)) (acc : rollup)
    : outcome (list (usage_key * TokenStats) * rollup) :=
  match entries with
  | [] => Ok ([], acc)
  | (k, stats) :: rest =>
      let '(region, ident, model_id) := k in
      let rate := rate_of pricing idmap k in
      let w := note_rate model_id rate (r_warnings acc) in
      cost ← compute_cost rate (input_tokens stats) (output_tokens stats);
      let stats' := set_cost cost stats in
      let t := add_cost cost (r_totals acc) in
      br ← or_raise KeyError (od_update region (add_cost cost) (r_by_region acc));
      bi ← or_raise KeyError (od_update ident (add_cost cost) (r_by_identity acc));
      bm ← or_raise KeyError (od_update model_id (add_cost cost) (r_by_model acc));
      '(rest', acc') ← price_entries pricing idmap rest (mkRollup t br bi bm w);
      Ok ((k, stats') :: rest', acc')
  end.

(** [Metrics.apply_pricing] *)
Definition apply_pricing (self : Metrics) (pricing : PricingProvider) (warnings : Warnings)
    : outcome (Metrics * Warnings) :=
  let zero := set_cost 0%float in
  let start :=
    mkRollup (zero (totals self))
      (od_map_values zero (by_region self))
      (od_map_values zero (by_identity self))
      (od_map_values zero (by_model self))
      warnings in
  '(priced, acc) ← price_entries pricing (model_id_map self) (by_usage_key self) start;
  Ok (mkMetrics (r_totals acc) (r_by_region acc) (r_by_identity acc) (r_by_model acc)
        priced (model_id_map self),
      r_warnings acc).

(** ** Python string operations used by the key normalisers

    A [str] is modelled by the [string] of its UTF-8 bytes: every operation
    below splits on an ASCII character, which never occurs inside a
    multi-byte sequence. *)

Module PyStr.
(** [s.startswith(p)] *)
Fixpoint startswith (p s : string) : bool :=
  match p, s with
  | EmptyString, _ => true
  | String a p', String b s' => if decide (a = b) then startswith p' s' else false
  | String _ _, EmptyString => false
  end.

(** [s[n:]] *)
Fixpoint drop (n : nat) (s : string) : string :=
  match n, s with
  | O, _ => s
  | S n', String _ s' => drop n' s'
  | S _, EmptyString => EmptyString
  end.

(** [s.split(sep, 1)] when [sep] occurs in [s]: the text before and after
    the first occurrence; [None] when [sep] does not occur. *)
Fixpoint split_once (sep s : string) : option (string * string) :=
  if startswith sep s then Some (EmptyString, drop (String.length sep) s)
  else
    match s with
    | EmptyString => None
    | String c rest =>
        match split_once sep rest with
        | Some (a, b) => Some (String c a, b)
        | None => None
        end
    end.

(** [s.rsplit(c, 1)[0]] when [c] occurs in [s] *)
Fixpoint before_last (c : ascii) (s : string) : option string :=
  match s with
  | EmptyString => None
  | String a rest =>
      match before_last c rest with
      | Some p => Some (String a p)
      | None => if decide (a = c) then Some EmptyString else None
      end
  end.

(** [s.rsplit(c, 1)[-1]] when [c] occurs in [s] *)
Fixpoint after_last (c : ascii) (s : string) : option string :=
  match s with
  | EmptyString => None
  | String a rest =>
      match after_last c rest with
      | Some t => Some t
      | None => if decide (a = c) then Some rest else None
      end
  end.

(** the text after the first [c], when there is one *)
Fixpoint after_first (c : ascii) (s : string) : option string :=
  match s with
  | EmptyString => None
  | String a rest => if decide (a = c) then Some rest else after_first c rest
  end.

(** the text before the first [c] and the text after it *)
Fixpoint cut (c : ascii) (s : string) : option (string * string) :=
  match s with
  | EmptyString => None
  | String a rest =>
      if decide (a = c) then Some (EmptyString, rest)
      else match cut c rest with
           | Some (x, y) => Some (String a x, y)
           | None => None
           end
  end.

(** [s.split(c, n)[-1]] *)
Fixpoint split_last (c : ascii) (n : nat) (s : string) : string :=
  match n with
  | O => s
  | S n' =>
      match after_first c s with
      | Some rest => split_last c n' rest
      | None => s
      end
  end.

(** [if c in s: s = s.rsplit(c, 1)[0]] *)
Definition strip_after_last (c : ascii) (s : string) : string :=
  default s (before_last c s).

(** [c not in s] *)
Fixpoint lacks (c : ascii) (s : string) : bool :=
  match s with
  | EmptyString => true
  | String a rest => if decide (a = c) then false else lacks c rest
  end.

(** [s.replace("Z", "+00:00")] *)
Fixpoint replace_Z (s : string) : string :=
  match s with
  | EmptyString => EmptyString
  | String a rest =>
      if decide (a = "Z"%char) then ("+00:00" +:+ replace_Z rest)%string
      else String a (replace_Z rest)
  end.

(** [s.endswith("Z")] *)
Fixpoint endswith_Z (s : string) : bool :=
  match s with
  | EmptyString => false
  | String a EmptyString => if decide (a = "Z"%char) then true else false
  | String _ rest => endswith_Z rest
  end.
End PyStr.

(** ** [adapters/pricing.py]: pricing key and rate lookup *)

Module Pricing.
Import PyStr.

(** [normalize_model_id] of [adapters/pricing.py] *)
Definition normalize_model_id (model_id : string) : string :=
  let value := if startswith "arn:" model_id then split_last ":" 5 model_id else model_id in
  match after_last "/" value with
  | Some tail => tail
  | None => value
  end.

(** [_KNOWN_SCOPES], the scope prefixes the pricing module names *)
Definition _KNOWN_SCOPES : list string :=
  ["global"; "us"; "eu"; "ap"; "sa"; "me"; "af"; "ca"]%string.

(** [get_pricing_model_key] *)
Definition get_pricing_model_key (original_model_id : string) : string :=
  let result :=
    match split_once "inference-profile/" original_model_id with
    | Some (_, tail) => tail
    | None => normalize_model_id original_model_id
    end in
  strip_after_last ":" result.

(** The price table a [StaticPricingProvider] holds after [refresh]:
    pricing key, then region or ["default"], to rate. *)
Abbreviation rate_table := (gmap string (gmap string PriceRate)).

(** [StaticPricingProvider.get_rate] on a loaded table. An empty region map
    is falsy in Python and holds no entry either way. *)
Definition get_rate (rates : rate_table) (model_id region : string) : option PriceRate :=
  let pricing_key := get_pricing_model_key model_id in
  match rates !! pricing_key with
  | Some model_rates =>
      match model_rates !! region with
      | Some rate => Some rate
      | None => model_rates !! "default"%string
      end
  | None => None
  end.
End Pricing.

(** ** Parsed JSON documents *)

Inductive json : Type :=
  | JNull
  | JBool (b : bool)
  | JInt (n : Z)
  | JFloat (f : float)
  | JStr (s : string)
  | JList (l : list json)
  | JDict (d : list (string * json)).

(** [d.get(k)] on a parsed object: an absent key reads as [None]. *)
Definition jget (k : string) (d : list (string * json)) : json :=
  default JNull (od_get k d).

(** [bool(v)] *)
Definition truthy (v : json) : bool :=
  match v with
  | JNull => false
  | JBool b => b
  | JInt n => negb (n =? 0)
  | JFloat f => negb (f =? 0)%float
  | JStr s => match s with EmptyString => false | String _ _ => true end
  | JList l => match l with [] => false | _ :: _ => true end
  | JDict d => match d with [] => false | _ :: _ => true end
  end.

(** [v.get(k)]: [AttributeError] unless [v] is an object. *)
Definition attr_get (v : json) (k : string) : outcome json :=
  match v with
  | JDict d => Ok (jget k d)
  | _ => Raise AttributeError
  end.

(** [record.get(field, {}).get(sub)]: an absent [field] reads through the
    empty default; a present one must itself be an object. *)
Definition nested_get (record : json) (field sub : string) : outcome json :=
  match record with
  | JDict d =>
      match od_get field d with
      | None => Ok JNull
      | Some inner => attr_get inner sub
      end
  | _ => Raise AttributeError
  end.

(** ** [ingest/bedrock_parser.py] *)

Module Parser.
Import PyStr.

(** The alternatives of the scope group of [_INFERENCE_PROFILE_PATTERN] *)
Definition profile_scopes : list string := ["us"; "eu"; "global"; "apac"]%string.

Fixpoint match_scope (alts : list string) (s : string) : option (string * string) :=
  match alts with
  | [] => None
  | a :: more =>
      if startswith (a +:+ ".") s then Some (a, drop (String.length a + 1) s)
      else match_scope more s
  end.

Definition newline : ascii := "010"%char.

(** The longest prefix without a newline, and what follows it. *)
Fixpoint line_prefix (s : string) : string * string :=
  match s with
  | EmptyString => (EmptyString, EmptyString)
  | String a rest =>
      if decide (a = newline) then (EmptyString, s)
      else let '(p, t) := line_prefix rest in (String a p, t)
  end.

(** [.+$]: a non-empty run of non-newline characters reaching the end of
    the text, or the newline that ends it. *)
Definition match_rest (body : string) : option string :=
  let '(p, t) := line_prefix body in
  match p with
  | EmptyString => None
  | String _ _ =>
      if decide (t = EmptyString) then Some p
      else if decide (t = String newline EmptyString) then Some p
      else None
  end.

Definition nonempty (s : string) : bool :=
  match s with EmptyString => false | String _ _ => true end.

(** [_INFERENCE_PROFILE_PATTERN.match(model_id)], returning [group(1)]:
    [^arn:aws:bedrock:[^:]+:[^:]+:inference-profile/((us|eu|global|apac)\..+)$] *)
Definition match_inference_profile (model_id : string) : option string :=
  if startswith "arn:aws:bedrock:" model_id then
    match cut ":" (drop 16 model_id) with
    | Some (arn_region, s2) =>
        match cut ":" s2 with
        | Some (account, s3) =>
            if nonempty arn_region && nonempty account
               && startswith "inference-profile/" s3 then
              match match_scope profile_scopes (drop 18 s3) with
              | Some (scope, body) =>
                  match match_rest body with
                  | Some name => Some (scope +:+ "." +:+ name)%string
                  | None => None
                  end
              | None => None
              end
            else None
        | None => None
        end
    | None => None
    end
  else None.

(** [normalize_model_id] of [ingest/bedrock_parser.py] *)
Definition normalize_model_id (model_id : string) : string :=
  let result :=
    match match_inference_profile model_id with
    | Some name => name
    | None => model_id
    end in
  strip_after_last ":" result.

(** [int(f)] for a float: truncation toward zero; [None] is the
    [ValueError] of a NaN, which [_safe_int] catches; an infinity raises
    [OverflowError], which it does not catch. *)
Definition int_of_float (f : float) : outcome (option Z) :=
  match Prim2SF f with
  | S754_zero _ => Ok (Some 0)
  | S754_infinity _ => Raise OverflowError
  | S754_nan => Ok None
  | S754_finite s m e =>
      let mag := if 0 <=? e then Z.pos m * 2 ^ e else Z.pos m / 2 ^ (- e) in
      Ok (Some (if s then - mag else mag))
  end.

Section token_counts.
(** [int(s)] for a string, [None] for its [ValueError]: Python's own
    integer-literal parser. *)
Variable int_of_str : string -> option Z.

(** [_safe_int] *)
Definition _safe_int (value : json) : outcome (option Z) :=
  match value with
  | JNull => Ok None
  | JBool b => Ok (Some (if b then 1 else 0))
  | JInt n => Ok (Some n)
  | JFloat f => int_of_float f
  | JStr s => Ok (int_of_str s)
  | JList _ | JDict _ => Ok None
  end.

(** The [for item in output_body] loop of [_extract_usage] *)
Fixpoint usage_of_items (items : list json) : json :=
  match items with
  | [] => JNull
  | JDict item :: rest =>
      match jget "message" item with
      | JDict message =>
          if od_mem "usage" message then jget "usage" message
          else if od_mem "usage" item then jget "usage" item
          else usage_of_items rest
      | _ =>
          if od_mem "usage" item then jget "usage" item
          else usage_of_items rest
      end
  | _ :: rest => usage_of_items rest
  end.

(** [_extract_usage] *)
Definition _extract_usage (output_body : json) : json :=
  match output_body with
  | JDict d => jget "usage" d
  | JList l => usage_of_items l
  | _ => JNull
  end.

(** [usage.get(a) or usage.get(b) or usage.get(c)] *)
Definition first_spelling (usage : json) (a b c : string) : outcome json :=
  x ← attr_get usage a;
  if truthy x then Ok x
  else
    y ← attr_get usage b;
    if truthy y then Ok y else attr_get usage c.

(** [int(v or 0)] for an [Optional[int]] *)
Definition or_zero (v : option Z) : Z := default 0 v.

Definition is_none (v : option Z) : bool :=
  match v with None => true | Some _ => false end.

(** [extract_token_counts] *)
Definition extract_token_counts (record : json) : outcome (Z * Z * bool) :=
  raw_in ← nested_get record "input" "inputTokenCount";
  input_tokens ← _safe_int raw_in;
  raw_out ← nested_get record "output" "outputTokenCount";
  output_tokens ← _safe_int raw_out;
  if is_none input_tokens || is_none output_tokens then
    body ← nested_get record "output" "outputBodyJson";
    let usage := _extract_usage body in
    if truthy usage then
      input_tokens' ←
        (if is_none input_tokens then
           v ← first_spelling usage "input_tokens" "inputTokens" "input_token_count";
           _safe_int v
         else Ok input_tokens);
      output_tokens' ←
        (if is_none output_tokens then
           v ← first_spelling usage "output_tokens" "outputTokens" "output_token_count";
           _safe_int v
         else Ok output_tokens);
      Ok (or_zero input_tokens', or_zero output_tokens', true)
    else Ok (or_zero input_tokens, or_zero output_tokens, false)
  else Ok (or_zero input_tokens, or_zero output_tokens, false).

(** [datetime.fromisoformat(s).astimezone(timezone.utc)] as an instant
    in microseconds since the epoch, [None] for its [ValueError]. *)
Variable fromisoformat : string -> option Z.

(** [parse_timestamp] *)
Definition parse_timestamp (record : json) : outcome (option Z) :=
  value ← attr_get record "timestamp";
  match value with
  | JStr s =>
      if nonempty s then
        Ok (fromisoformat (if endswith_Z s then replace_Z s else s))
      else Ok None
  | _ => Ok None
  end.
End token_counts.
End Parser.

(** ** Instants

    An aware UTC [datetime] is the number of microseconds since the epoch. *)

Definition HOUR : Z := 3600000000.
Definition SECOND : Z := 1000000.
Definition DAY : Z := 24 * HOUR.

(** [dt.replace(minute=0, second=0, microsecond=0)] *)
Definition floor_hour (t : Z) : Z := t - t mod HOUR.

(** ** [state/manifest.py] *)

Module Manifest.
Definition MANIFEST_VERSION : Z := 1.

Record ManifestState : Type := mkManifestState {
  version : Z;
  last_datehour : option string;
  processed : gmap string (gmap string string);
  updated_at : option string;
  lookback_hours : Z
}.

(** [ManifestState(lookback_hours=h)] *)
Definition ManifestState0 (h : Z) : ManifestState :=
  mkManifestState MANIFEST_VERSION None ∅ None h.

Definition with_processed (p : gmap string (gmap string string)) (m : ManifestState)
    : ManifestState :=
  mkManifestState (version m) (last_datehour m) p (updated_at m) (lookback_hours m).

(** [update_last_datehour] *)
Definition update_last_datehour (manifest : ManifestState) (datehour : option string)
    : ManifestState :=
  if str_truthy datehour
  then mkManifestState (version manifest) datehour (processed manifest)
         (updated_at manifest) (lookback_hours manifest)
  else manifest.

Section clock_text.
(** [dt.astimezone(timezone.utc).isoformat()] *)
Variable isoformat : Z -> string.

(** [record_processed] *)
Definition record_processed (manifest : ManifestState) (key etag : string) (seen_at : Z)
    : ManifestState :=
  with_processed
    (<[key := {[ "etag"%string := etag; "seen_at"%string := isoformat seen_at ]}]>
       (processed manifest))
    manifest.

(** [datetime.fromisoformat(seen_at.replace("Z", "+00:00"))] compared
    with an aware cutoff: [Ok None] for the [ValueError] the loop
    skips, [Raise TypeError] for a timestamp without an offset. *)
Variable seen_instant : string -> outcome (option Z).

Definition keep_entry (cutoff : Z) (meta : gmap string string) : outcome bool :=
  match meta !! "seen_at"%string with
  | Some (String a rest) =>
      seen ← seen_instant (String a rest);
      match seen with
      | Some seen_dt => Ok (cutoff <=? seen_dt)
      | None => Ok false
      end
  | _ => Ok false
  end.

(** [prune_manifest] *)
Definition prune_manifest (manifest : ManifestState) (now : Z) : outcome ManifestState :=
  let cutoff := now - lookback_hours manifest * HOUR in
  pruned ←
    foldr (fun kv acc =>
             rest ← acc;
             keep ← keep_entry cutoff (snd kv);
             Ok (if keep : bool then <[fst kv := snd kv]> rest else rest))
          (Ok ∅) (map_to_list (processed manifest));
  Ok (with_processed pruned manifest).
End clock_text.
End Manifest.

(** ** [config.py] and [adapters/aws_s3.py]: the data the nodes read *)

Record AppConfig : Type := mkAppConfig {
  regions : list (string * string);
  account_id : option string;
  log_prefix : string
}.

Record S3Object : Type := mkS3Object {
  key : string;
  etag : string;
  last_modified : Z
}.

(** ** [adapters/report_store.py]: reading the metrics of a snapshot *)

Module ReportStore.
(** [s.split(c)] *)
Fixpoint split_char (c : ascii) (s : string) : list string :=
  match s with
  | EmptyString => [EmptyString]
  | String a rest =>
      if decide (a = c) then EmptyString :: split_char c rest
      else
        match split_char c rest with
        | [] => [String a EmptyString]
        | p :: ps => String a p :: ps
        end
  end.

(** [d.get(name, 0)] for a token count. *)
Definition int_field (d : list (string * json)) (name : string) : outcome Z :=
  match od_get name d with
  | None => Ok 0
  | Some (JInt n) => Ok n
  | Some (JBool b) => Ok (if b then 1 else 0)
  | Some _ => Raise Untyped
  end.

(** [d.get("cost_usd", 0.0)] *)
Definition cost_field (d : list (string * json)) : outcome float :=
  match od_get "cost_usd" d with
  | None => Ok 0%float
  | Some (JFloat f) => Ok f
  | Some _ => Raise Untyped
  end.

(** [TokenStats(input_tokens=d.get("input_tokens", 0), ...)]; a [d] that
    is not an object has no [get]. *)
Definition stats_of (v : json) : outcome TokenStats :=
  match v with
  | JDict d =>
      i ← int_field d "input_tokens";
      o ← int_field d "output_tokens";
      t ← int_field d "total_tokens";
      c ← cost_field d;
      Ok (mkTokenStats i o t c)
  | _ => Raise AttributeError
  end.

(** [d[k] = v] *)
Definition od_set {K} `{EqDecision K} {V} (k : K) (v : V) (d : list (K * V)) : list (K * V) :=
  od_upsert k (fun _ => v) v d.

(** [for name, stats_dict in metrics_dict.get(field, {}).items(): ...] *)
Definition load_dimension (metrics_dict : list (string * json)) (field : string)
    : outcome (list (string * TokenStats)) :=
  match od_get field metrics_dict with
  | None => Ok []
  | Some (JDict entries) =>
      foldl (fun acc kv =>
               d ← acc;
               st ← stats_of (snd kv);
               Ok (od_set (fst kv) st d))
            (Ok []) entries
  | Some _ => Raise AttributeError
  end.

(** One component of a granular key read from a list entry; the caller
    has checked it truthy. A list or an object is unhashable. *)
Definition key_part (v : json) : outcome string :=
  match v with
  | JStr s => Ok s
  | JList _ | JDict _ => Raise TypeError
  | _ => Raise Untyped
  end.

(** The [isinstance(usage_entries, list)] branch *)
Definition load_usage_list (entries : list json)
    : outcome (list (usage_key * TokenStats)) :=
  foldl (fun acc entry =>
           d ← acc;
           match entry with
           | JDict e =>
               let region := jget "region" e in
               let ident := jget "identity" e in
               let model_id := jget "model_id" e in
               if negb (truthy region) || negb (truthy ident) || negb (truthy model_id)
               then Ok d
               else
                 r ← key_part region;
                 i ← key_part ident;
                 m ← key_part model_id;
                 st ← stats_of entry;
                 Ok (od_set (r, i, m) st d)
           | _ => Ok d
           end)
        (Ok []) entries.

(** The [isinstance(usage_entries, dict)] branch *)
Definition load_usage_dict (entries : list (string * json))
    : outcome (list (usage_key * TokenStats)) :=
  foldl (fun acc kv =>
           d ← acc;
           match snd kv with
           | JDict _ =>
               match split_char "|" (fst kv) with
               | [r; i; m] =>
                   st ← stats_of (snd kv);
                   Ok (od_set (r, i, m) st d)
               | _ => Ok d
               end
           | _ => Ok d
           end)
        (Ok []) entries.

(** The body of the [try] of [load_metrics_from_snapshot] *)
Definition read_metrics (snapshot : json) : outcome Metrics :=
  match snapshot with
  | JDict top =>
      match od_get "metrics" top with
      | None => Ok Metrics0
      | Some (JDict metrics_dict) =>
          t ← match od_get "totals" metrics_dict with
              | Some v => stats_of v
              | None => Ok TokenStats0
              end;
          br ← load_dimension metrics_dict "by_region";
          bi ← load_dimension metrics_dict "by_identity";
          bm ← load_dimension metrics_dict "by_model";
          bu ← match od_get "by_usage_key" metrics_dict with
               | Some (JList entries) => load_usage_list entries
               | Some (JDict entries) => load_usage_dict entries
               | _ => Ok []
               end;
          Ok (mkMetrics t br bi bm bu [])
      | Some (JStr _) | Some (JList _) => Raise AttributeError
      | Some _ => Raise TypeError
      end
  | _ => Raise AttributeError
  end.

(** [load_metrics_from_snapshot]: [except Exception: return None] *)
Definition load_metrics_from_snapshot (snapshot : json) : outcome (option Metrics) :=
  match read_metrics snapshot with
  | Ok m => Ok (Some m)
  | Raise Untyped => Raise Untyped
  | Raise _ => Ok None
  end.
End ReportStore.

(** ** [graph/workflow.py]: the per-region nodes and the self-check *)

Module Workflow.
Import Manifest.

(** The counters of [state["stats"]] *)
Record run_stats : Type := mkRunStats {
  objects_listed : Z;
  objects_filtered : Z;
  objects_processed : Z;
  records_parsed : Z;
  records_used : Z
}.

Definition run_stats0 : run_stats := mkRunStats 0 0 0 0 0.

(** ["/".join(parts)] *)
Fixpoint join_slash (parts : list string) : string :=
  match parts with
  | [] => EmptyString
  | [p] => p
  | p :: rest => (p +:+ "/" +:+ join_slash rest)%string
  end.

(** [_sum_stats] *)
Definition _sum_stats {K} (stats_map : list (K * TokenStats)) : TokenStats :=
  foldl (fun t s => TokenStats_add t (input_tokens s) (output_tokens s) (cost_usd s))
        TokenStats0 (od_values stats_map).

(** [_stats_equal] *)
Definition _stats_equal (left right : TokenStats) : bool :=
  if negb (input_tokens left =? input_tokens right) then false
  else if negb (output_tokens left =? output_tokens right) then false
  else if negb (total_tokens left =? total_tokens right) then false
  else (abs (cost_usd left - cost_usd right) <? 0.0001)%float.

Definition add_verification_error (name : string) (w : Warnings) : Warnings :=
  mkWarnings (unpriced_models w) (partial_pricing_models w)
    (missing_token_counts w) (records_skipped w) ({[name]} ∪ verification_errors w).

(** [verify_results_node] *)
Definition verify_results_node (metrics : Metrics) (warnings : Warnings) : Warnings :=
  let by_region_sum := _sum_stats (by_region metrics) in
  let by_identity_sum := _sum_stats (by_identity metrics) in
  let w1 :=
    if negb (_stats_equal (totals metrics) by_region_sum)
    then add_verification_error "by_region_mismatch" warnings else warnings in
  if negb (_stats_equal (totals metrics) by_identity_sum)
  then add_verification_error "by_identity_mismatch" w1 else w1.

(** [filter_new_objects_node]: the test that keeps one listed object *)
Definition is_new (force_reprocess : bool) (processed : gmap string (gmap string string))
    (obj : S3Object) : bool :=
  if force_reprocess then true
  else
    match processed !! key obj with
    | None => true
    | Some meta =>
        if decide (meta = ∅) then true
        else if decide (meta !! "etag"%string = Some (etag obj)) then false else true
    end.

(** [filter_new_objects_node] *)
Definition filter_new_objects_node (force_reprocess : bool) (manifest : ManifestState)
    (objects : list S3Object) : list S3Object :=
  filter (fun obj => is_new force_reprocess (processed manifest) obj = true) objects.

(** [has_new_objects] *)
Definition has_new_objects (new_objects : list S3Object) : bool :=
  match new_objects with [] => false | _ :: _ => true end.

Section nodes.
(** The standard-library and storage calls the nodes make. *)
Variable strftime_datehour : Z -> string.      (* dt.strftime("%Y-%m-%dT%H") *)
Variable strftime_path : Z -> string.          (* dt.strftime("%Y/%m/%d/%H") *)
Variable strptime_datehour : string -> option Z.
  (* datetime.strptime(s, "%Y-%m-%dT%H") in UTC, None for its ValueError *)
Variable isoformat : Z -> string.
Variable seen_instant : string -> outcome (option Z).
Variable int_of_str : string -> option Z.
Variable fromisoformat : string -> option Z.
Variable records_of : string -> outcome (list json).
  (* parse_bedrock_records(deps.s3.get_object_bytes(bucket, key), key) *)

(** [_parse_datehour] *)
Definition _parse_datehour (value : string) : option Z := strptime_datehour value.

(** [_build_log_prefix] *)
Definition _build_log_prefix (config : AppConfig) (region : string) (datehour : Z) : string :=
  let parts :=
    (match log_prefix config with EmptyString => [] | p => [p] end)
    ++ ["AWSLogs"%string]
    ++ (if str_truthy (account_id config) then [default EmptyString (account_id config)] else [])
    ++ ["BedrockModelInvocationLogs"%string; region; strftime_path datehour] in
  (join_slash parts +:+ "/")%string.

(** The scan start of [plan_scan_node], after rounding down to the hour. *)
Definition scan_start (force_reprocess : bool) (manifest : ManifestState)
    (report_start : Z) : Z :=
  let start_dt :=
    if negb force_reprocess && str_truthy (last_datehour manifest) then
      match _parse_datehour (default EmptyString (last_datehour manifest)) with
      | Some last_dt =>
          let lookback_start := last_dt - lookback_hours manifest * HOUR in
          Z.max report_start lookback_start
      | None => report_start
      end
    else report_start in
  floor_hour start_dt.

(** The [while current <= end_hour] loop: [None] when the fuel runs out
    before the loop condition fails. *)
Fixpoint scan_loop (fuel : nat) (config : AppConfig) (region : string)
    (current end_hour : Z) (prefixes : list string) : option (list string) :=
  match fuel with
  | O => None
  | S fuel' =>
      if current <=? end_hour then
        scan_loop fuel' config region (current + HOUR) end_hour
          (prefixes ++ [_build_log_prefix config region current])
      else Some prefixes
  end.

(** What [plan_scan_node] writes into the state. *)
Record scan_plan : Type := mkScanPlan {
  scan_prefixes : list string;
  scan_end_datehour : option string
}.

(** [plan_scan_node] *)
Definition plan_scan_node (fuel : nat) (force_reprocess : bool) (config : AppConfig)
    (region : string) (manifest : ManifestState) (report_start report_end : Z)
    (now : Z) : option scan_plan :=
  let report_end' := report_end - SECOND in
  let start_dt := scan_start force_reprocess manifest report_start in
  let end_hour := floor_hour report_end' in
  match scan_loop fuel config region start_dt end_hour [] with
  | None => None
  | Some prefixes =>
      let now_hour := floor_hour now in
      let effective_end := Z.min end_hour now_hour in
      Some (mkScanPlan prefixes
              (match prefixes with
               | [] => None
               | _ :: _ => Some (strftime_datehour effective_end)
               end))
  end.

(** [update_manifest_node], up to the document handed to [save_manifest] *)
Definition update_manifest_node (manifest : ManifestState) (plan : scan_plan) (now : Z)
    : outcome ManifestState :=
  prune_manifest seen_instant (update_last_datehour manifest (scan_end_datehour plan)) now.

(** [v or fallback] for a field that must be text. A truthy model
    identifier that is not a string makes the pattern match of
    [normalize_model_id] raise [TypeError]; a truthy caller or region
    that is not a string has no place as a key of the typed [Metrics]
    ([Untyped]). *)
Definition text_or (e : exn) (v : json) (fallback : string) : outcome string :=
  if truthy v then
    match v with
    | JStr s => Ok s
    | _ => Raise e
    end
  else Ok fallback.

Definition count_missing (w : Warnings) : Warnings :=
  mkWarnings (unpriced_models w) (partial_pricing_models w)
    (missing_token_counts w + 1) (records_skipped w) (verification_errors w).

Definition count_skipped (w : Warnings) : Warnings :=
  mkWarnings (unpriced_models w) (partial_pricing_models w)
    (missing_token_counts w) (records_skipped w + 1) (verification_errors w).

(** The mutable state [ingest_objects_node] works on. *)
Record ingest_state : Type := mkIngestState {
  metrics : Metrics;
  warnings : Warnings;
  current_manifest : ManifestState;
  stats : run_stats
}.

Definition bump_parsed (s : run_stats) : run_stats :=
  mkRunStats (objects_listed s) (objects_filtered s) (objects_processed s)
    (records_parsed s + 1) (records_used s).

Definition bump_used (s : run_stats) : run_stats :=
  mkRunStats (objects_listed s) (objects_filtered s) (objects_processed s)
    (records_parsed s) (records_used s + 1).

Definition bump_processed (s : run_stats) : run_stats :=
  mkRunStats (objects_listed s) (objects_filtered s) (objects_processed s + 1)
    (records_parsed s) (records_used s).

(** The warning update that follows [extract_token_counts] *)
Definition note_token_counts (input_tokens output_tokens : Z) (used_fallback : bool)
    (w : Warnings) : Warnings :=
  if used_fallback || ((input_tokens =? 0) && (output_tokens =? 0))
  then count_missing w else w.

(** One iteration of [for record in records] *)
Definition ingest_record (region : string) (report_start report_end : Z)
    (st : ingest_state) (record : json) : outcome ingest_state :=
  let st1 := mkIngestState (metrics st) (warnings st) (current_manifest st)
               (bump_parsed (stats st)) in
  timestamp ← Parser.parse_timestamp fromisoformat record;
  match timestamp with
  | None =>
      Ok (mkIngestState (metrics st1) (count_skipped (warnings st1))
            (current_manifest st1) (stats st1))
  | Some ts =>
      if negb ((report_start <=? ts) && (ts <? report_end)) then Ok st1
      else
        '(input_tokens, output_tokens, used_fallback) ←
          Parser.extract_token_counts int_of_str record;
        let w := note_token_counts input_tokens output_tokens used_fallback (warnings st1) in
        raw_model ← attr_get record "modelId";
        original_model_id ← text_or TypeError raw_model "unknown";
        let model_id := Parser.normalize_model_id original_model_id in
        raw_arn ← nested_get record "identity" "arn";
        ident ← text_or Untyped raw_arn "unknown";
        raw_region ← attr_get record "region";
        record_region ← text_or Untyped raw_region region;
        Ok (mkIngestState
              (add_usage (metrics st1) record_region ident model_id
                 input_tokens output_tokens 0%float (Some original_model_id))
              w (current_manifest st1) (bump_used (stats st1)))
  end.

Fixpoint ingest_records (region : string) (report_start report_end : Z)
    (st : ingest_state) (records : list json) : outcome ingest_state :=
  match records with
  | [] => Ok st
  | record :: rest =>
      st' ← ingest_record region report_start report_end st record;
      ingest_records region report_start report_end st' rest
  end.

(** [ingest_objects_node]: the loop over [state["new_objects"]]. The files
    the debug mode writes under [debug/] are no part of the state. *)
Fixpoint ingest_objects_node (region : string) (report_start report_end now : Z)
    (st : ingest_state) (new_objects : list S3Object) : outcome ingest_state :=
  match new_objects with
  | [] => Ok st
  | obj :: rest =>
      records ← records_of (key obj);
      let st1 := mkIngestState (metrics st) (warnings st) (current_manifest st)
                   (bump_processed (stats st)) in
      st2 ← ingest_records region report_start report_end st1 records;
      let st3 := mkIngestState (metrics st2) (warnings st2)
                   (record_processed isoformat (current_manifest st2)
                      (key obj) (etag obj) now)
                   (stats st2) in
      ingest_objects_node region report_start report_end now st3 rest
  end.

(** [filter_new_objects → (ingest_objects if any new, else skip)] *)
Definition ingest_new_objects (force_reprocess : bool) (region : string)
    (report_start report_end now : Z) (st : ingest_state) (objects : list S3Object)
    : outcome ingest_state :=
  let new_objects := filter_new_objects_node force_reprocess (current_manifest st) objects in
  if has_new_objects new_objects
  then ingest_objects_node region report_start report_end now st new_objects
  else Ok st.

(** [schema_version != 1] on the value read from the document *)
Definition schema_is_one (v : json) : bool :=
  match v with
  | JInt n => n =? 1
  | JBool b => b
  | JFloat f => (f =? 1)%float
  | _ => false
  end.

(** [load_snapshot_node], given what [read_snapshot] returned *)
Definition load_snapshot_node (force_reprocess : bool) (snapshot : option json)
    (current : Metrics) : outcome Metrics :=
  if force_reprocess then Ok current
  else
    match snapshot with
    | None => Ok current
    | Some doc =>
        match doc with
        | JDict top =>
            let schema_version := default (JInt 0) (od_get "schema_version" top) in
            if negb (schema_is_one schema_version) then Ok current
            else
              existing ← ReportStore.load_metrics_from_snapshot doc;
              match existing with
              | None => Ok current
              | Some existing_metrics => Ok (merge current existing_metrics)
              end
        | JNull => Ok current
        | _ => Raise AttributeError
        end
    end.

End nodes.
End Workflow.

(** ** A calendar for the closed examples

    The nodes take the formatting and parsing calls of [datetime] as
    parameters; the examples instantiate them with the proleptic Gregorian
    calendar below (years 0000 to 9999, zero-padded as [strftime] pads
    them). *)

Module Calendar.
(** Year, month and day of a day number counted from 1970-01-01. *)
Definition civil_from_days (z : Z) : Z * Z * Z :=
  let z := z + 719468 in
  let era := z / 146097 in
  let doe := z - era * 146097 in
  let yoe := (doe - doe / 1460 + doe / 36524 - doe / 146096) / 365 in
  let y := yoe + era * 400 in
  let doy := doe - (365 * yoe + yoe / 4 - yoe / 100) in
  let mp := (5 * doy + 2) / 153 in
  let d := doy - (153 * mp + 2) / 5 + 1 in
  let m := if mp <? 10 then mp + 3 else mp - 9 in
  (if m <=? 2 then y + 1 else y, m, d).

Definition days_from_civil (y m d : Z) : Z :=
  let y := if m <=? 2 then y - 1 else y in
  let era := y / 400 in
  let yoe := y - era * 400 in
  let doy := (153 * (if 2 <? m then m - 3 else m + 9) + 2) / 5 + d - 1 in
  let doe := yoe * 365 + yoe / 4 - yoe / 100 + doy in
  era * 146097 + doe - 719468.

Definition digit (n : Z) : ascii := ascii_of_nat (48 + Z.to_nat (n mod 10)).

Definition pad2 (n : Z) : string :=
  String (digit (n / 10)) (String (digit n) EmptyString).

Definition pad4 (n : Z) : string :=
  String (digit (n / 1000)) (String (digit (n / 100)) (pad2 n)).

Definition fields (t : Z) : Z * Z * Z * Z :=
  let '(y, m, d) := civil_from_days (t / DAY) in
  (y, m, d, (t mod DAY) / HOUR).

(** [dt.strftime("%Y-%m-%dT%H")] *)
Definition strftime_datehour (t : Z) : string :=
  let '(y, m, d, h) := fields t in
  (pad4 y +:+ "-" +:+ pad2 m +:+ "-" +:+ pad2 d +:+ "T" +:+ pad2 h)%string.

(** [dt.strftime("%Y/%m/%d/%H")] *)
Definition strftime_path (t : Z) : string :=
  let '(y, m, d, h) := fields t in
  (pad4 y +:+ "/" +:+ pad2 m +:+ "/" +:+ pad2 d +:+ "/" +:+ pad2 h)%string.

Definition digit_value (c : ascii) : Z := Z.of_nat (nat_of_ascii c) - 48.

(** The parser of the zero-padded text [strftime_datehour] writes; the
    [strptime] of Python accepts unpadded fields as well. *)
Definition strptime_datehour (s : string) : option Z :=
  match s with
  | String y1 (String y2 (String y3 (String y4 (String _
      (String m1 (String m2 (String _
      (String d1 (String d2 (String _
      (String h1 (String h2 EmptyString)))))))))))) =>
      let y := digit_value y1 * 1000 + digit_value y2 * 100
               + digit_value y3 * 10 + digit_value y4 in
      let m := digit_value m1 * 10 + digit_value m2 in
      let d := digit_value d1 * 10 + digit_value d2 in
      let h := digit_value h1 * 10 + digit_value h2 in
      let t := days_from_civil y m d * DAY + h * HOUR in
      if decide (strftime_datehour t = s) then Some t else None
  | _ => None
  end.
End Calendar.

(** ** Vocabulary of the statements *)

(** The arguments of one [add_usage] call. *)
Record usage_call : Type := mkUsageCall {
  uc_region : string;
  uc_identity : string;
  uc_model_id : string;
  uc_input_tokens : Z;
  uc_output_tokens : Z;
  uc_cost_usd : float;
  uc_original_model_id : option string
}.

Definition call_add_usage (m : Metrics) (c : usage_call) : Metrics :=
  add_usage m (uc_region c) (uc_identity c) (uc_model_id c)
    (uc_input_tokens c) (uc_output_tokens c) (uc_cost_usd c) (uc_original_model_id c).

(** A sequence of [add_usage] calls on a fresh [Metrics()]. *)
Definition add_usages (calls : list usage_call) : Metrics :=
  foldl call_add_usage Metrics0 calls.

Definition sum_Z (l : list Z) : Z := foldr Z.add 0 l.

(** The sum of a field over the entries of a dimension. *)
Definition sum_of {K} (field : TokenStats -> Z) (d : list (K * TokenStats)) : Z :=
  sum_Z (map field (od_values d)).

(** The raw token counts of a [TokenStats]. *)
Definition token_counts (s : TokenStats) : Z * Z * Z :=
  (input_tokens s, output_tokens s, total_tokens s).

(** [total_tokens] agrees with the two counts it is meant to sum. *)
Definition consistent (s : TokenStats) : Prop :=
  total_tokens s = input_tokens s + output_tokens s.

(** A [Metrics] with every cost field replaced by zero. *)
Definition drop_costs (m : Metrics) : Metrics :=
  let zero := set_cost 0%float in
  mkMetrics (zero (totals m))
    (od_map_values zero (by_region m)) (od_map_values zero (by_identity m))
    (od_map_values zero (by_model m)) (od_map_values zero (by_usage_key m))
    (model_id_map m).

(** The entries of a dimension with their costs left out. *)
Definition token_view {K} (d : list (K * TokenStats)) : list (K * (Z * Z * Z)) :=
  map (fun kv => (fst kv, token_counts (snd kv))) d.

(** ** The data of the examples *)

Module Examples.
(** The first run of [test_accumulation_across_three_runs]: the snapshot
    holding 560,183 tokens. *)
Definition run1_metrics : Metrics :=
  add_usage Metrics0 "us-east-2" "arn:user1" "claude-sonnet" 177598 382585 0%float None.

(** The second run: 90,000 newly ingested tokens. *)
Definition run2_new : Metrics :=
  add_usage Metrics0 "us-east-2" "arn:user1" "claude-sonnet" 50000 40000 0%float None.

(** A snapshot document whose [totals] carry a [total_tokens] that is not
    the sum of the two counts. *)
Definition skewed_snapshot : json :=
  JDict [("schema_version"%string, JInt 1);
         ("metrics"%string,
          JDict [("totals"%string,
                  JDict [("input_tokens"%string, JInt 0);
                         ("output_tokens"%string, JInt 0);
                         ("total_tokens"%string, JInt 5);
                         ("cost_usd"%string, JFloat 0%float)])])].

Definition skewed_metrics : Metrics :=
  mkMetrics (mkTokenStats 0 0 5 0%float) [] [] [] [] [].

(** The table of [test_static_pricing_provider_region_override] *)
Definition override_table : Pricing.rate_table :=
  {[ "anthropic.claude-opus-4-5-20251101-v1"%string :=
       {[ "default"%string := PriceRate_of 0.005 0.015;
          "us-west-2"%string := PriceRate_of 0.006 0.018 ]} ]}.

(** The bucket and the provider of [test_apply_pricing_populates_by_usage_key_costs] *)
Definition priced_bucket : Metrics :=
  add_usage Metrics0 "us-east-2" "arn:test" "m" 1000 500 0%float None.

Definition flat_provider : PricingProvider :=
  fun _ _ => Some (PriceRate_of 0.003 0.015).

(** The binary64 value of [(1000 / 1000.0) * 0.003 + (500 / 1000.0) * 0.015] *)
Definition bucket_cost : float := 0.010499999999999999%float.

Definition priced_bucket_after : Metrics :=
  let s := mkTokenStats 1000 500 1500 bucket_cost in
  mkMetrics s [("us-east-2"%string, s)] [("arn:test"%string, s)] [("m"%string, s)]
    [(("us-east-2", "arn:test", "m")%string, s)] [].

(** Usage logged under an inference-profile ARN: aggregated under the
    normalized model, with the ARN kept in [model_id_map]. *)
Definition profile_id : string :=
  "arn:aws:bedrock:us-east-2:992382809180:inference-profile/us.anthropic.claude-opus-4-5-20251101-v1:0".

Definition profile_model : string := "us.anthropic.claude-opus-4-5-20251101-v1".

Definition profile_bucket : Metrics :=
  add_usage Metrics0 "us-east-2" "arn:test" profile_model 1000 500 0%float (Some profile_id).

(** The same usage with no original identifier recorded. *)
Definition unmapped_bucket : Metrics :=
  add_usage Metrics0 "us-east-2" "arn:test" profile_model 1000 500 0%float None.

(** A provider with a rate for the ARN and for nothing else. *)
Definition profile_provider : PricingProvider :=
  fun model_id _ =>
    if decide (model_id = profile_id) then Some (PriceRate_of 0.003 0.015) else None.

(** [abs(x - target) < tol], the comparison of the repository's tests *)
Definition within (tol x target : float) : bool := (abs (x - target) <? tol)%float.

(** A snapshot document whose granular list names a region, an identity
    and a model that its dimension maps do not hold. *)
Definition orphan_snapshot : json :=
  JDict [("schema_version"%string, JInt 1);
         ("metrics"%string,
          JDict [("totals"%string,
                  JDict [("input_tokens"%string, JInt 10);
                         ("output_tokens"%string, JInt 5);
                         ("total_tokens"%string, JInt 15);
                         ("cost_usd"%string, JFloat 0%float)]);
                 ("by_usage_key"%string,
                  JList [JDict [("region"%string, JStr "us-east-2");
                                ("identity"%string, JStr "arn:test");
                                ("model_id"%string, JStr "m");
                                ("input_tokens"%string, JInt 10);
                                ("output_tokens"%string, JInt 5);
                                ("total_tokens"%string, JInt 15);
                                ("cost_usd"%string, JFloat 0%float)]])])].

Definition orphan_metrics : Metrics :=
  mkMetrics (mkTokenStats 10 5 15 0%float) [] [] []
    [(("us-east-2", "arn:test", "m")%string, mkTokenStats 10 5 15 0%float)] [].

(** A table that knows one version of a model only. *)
Definition haiku_table : Pricing.rate_table :=
  {[ "global.anthropic.claude-haiku-4-5-20241022-v1"%string :=
       {[ "default"%string := PriceRate_of 0.001 0.005 ]} ]}.
End Examples.

(** ** Inference-profile identifiers *)

(** [arn:aws:bedrock:<region>:<account>:inference-profile/<scope>.<name>] *)
Definition profile_arn (arn_region account scope name : string) : string :=
  ("arn:aws:bedrock:" +:+ arn_region +:+ ":" +:+ account +:+ ":inference-profile/"
     +:+ scope +:+ "." +:+ name)%string.

(** Two inference profiles of scopes the parser's pattern does not list,
    logged without a version suffix. *)
Module ScopeExamples.
Definition canada_profile : string :=
  profile_arn "us-east-1" "123456789012" "ca" "anthropic.claude-v2".
Definition south_america_profile : string :=
  profile_arn "us-east-1" "123456789012" "sa" "anthropic.claude-v2".

(** Usage of the two profiles, aggregated as [ingest_objects_node] does:
    under the normalized identifier, with the logged one as the original. *)
Definition both_profiles : Metrics :=
  add_usage
    (add_usage Metrics0 "us-east-1" "arn:test"
       (Parser.normalize_model_id canada_profile) 10 5 0%float (Some canada_profile))
    "us-east-1" "arn:test"
    (Parser.normalize_model_id south_america_profile) 20 7 0%float
    (Some south_america_profile).
End ScopeExamples.

(** A region or account field of an ARN: not empty, and free of the two
    separators of the ARN. *)
Definition arn_field (s : string) : Prop :=
  Parser.nonempty s = true /\ PyStr.lacks ":" s = true /\ PyStr.lacks "/" s = true.

(** The profile name after the scope: a non-empty single line. *)
Definition profile_name (s : string) : Prop :=
  Parser.nonempty s = true /\ PyStr.lacks Parser.newline s = true.

(** ** Vocabulary of the pricing statements *)

Definition key_region (k : usage_key) : string := fst (fst k).
Definition key_identity (k : usage_key) : string := snd (fst k).
Definition key_model (k : usage_key) : string := snd k.

(** The costs, in iteration order, of the granular entries whose key
    projects onto [name]. *)
Definition costs_onto (proj : usage_key -> string) (name : string)
    (entries : list (usage_key * TokenStats)) : list float :=
  map (fun kv => cost_usd (snd kv)) (filter (fun kv => proj (fst kv) = name) entries).

(** Left-to-right floating-point sum starting from [0.0]. *)
Definition fsum (l : list float) : float := foldl PrimFloat.add 0%float l.

(** Every granular key has its region, identity and model in the three
    dimension maps. *)
Definition usage_keys_covered (m : Metrics) : Prop :=
  forall k, k ∈ od_keys (by_usage_key m) ->
    key_region k ∈ od_keys (by_region m) /\
    key_identity k ∈ od_keys (by_identity m) /\
    key_model k ∈ od_keys (by_model m).

(** The token counts of every granular entry convert to [float]. *)
Definition tokens_convertible (m : Metrics) : Prop :=
  forall kv, kv ∈ by_usage_key m ->
    is_ok (float_of_int (input_tokens (snd kv))) /\
    is_ok (float_of_int (output_tokens (snd kv))).

(** What one granular entry looks like after pricing. *)
Definition priced_as (pricing : PricingProvider) (idmap : list (string * string))
    (before after : usage_key * TokenStats) : Prop :=
  fst after = fst before /\
  token_counts (snd after) = token_counts (snd before) /\
  match pricing (original_of idmap (key_model (fst before))) (key_region (fst before)) with
  | None => cost_usd (snd after) = 0%float
  | Some rate =>
      exists i o,
        float_of_int (input_tokens (snd before)) = Ok i /\
        float_of_int (output_tokens (snd before)) = Ok o /\
        cost_usd (snd after)
        = ((i / 1000) * input_per_1k rate + (o / 1000) * output_per_1k rate)%float
  end.

(** ** Vocabulary of the scan-window statements *)

(** [n] consecutive hours from [start]. *)
Definition hour_range (start : Z) (n : nat) : list Z :=
  map (fun i => start + Z.of_nat i * HOUR) (seq 0 n).

(** The hours from [start] to [end_hour], both included; none when [start]
    is later than [end_hour]. *)
Definition scan_hours (start end_hour : Z) : list Z :=
  hour_range start (Z.to_nat ((end_hour - start) / HOUR + 1)).

(** Fuel that lets the loop of [plan_scan_node] run to its exit. *)
Definition scan_fuel (start end_hour : Z) : nat :=
  S (Z.to_nat ((end_hour - start) / HOUR + 1)).

Module ScanExamples.
(** 2026-02-02T00:00:00Z, the start of the report day of the tests *)
Definition report_start : Z := 1769990400 * SECOND.
Definition report_end : Z := report_start + DAY.
(** 2026-02-02T08:30:00Z, the first run of the tests *)
Definition first_run_time : Z := 1770021000 * SECOND.

Definition config : AppConfig := mkAppConfig [] (Some "123456789012"%string) EmptyString.

Definition fresh_manifest : Manifest.ManifestState := Manifest.ManifestState0 6.


(** A manifest checkpointed by the first run. *)
Definition morning_manifest : Manifest.ManifestState :=
  Manifest.mkManifestState 1 (Some "2026-02-02T08"%string) ∅ None 6.

Definition plan (manifest : Manifest.ManifestState) (now : Z) : option Workflow.scan_plan :=
  Workflow.plan_scan_node Calendar.strftime_datehour Calendar.strftime_path
    Calendar.strptime_datehour 30 false config "us-east-1" manifest
    report_start report_end now.
End ScanExamples.

(** ** Vocabulary of the proofs *)

(** The token fields of [totals] are the sums of the same fields over a
    dimension. *)
Definition sums_to {K} (t : TokenStats) (d : list (K * TokenStats)) : Prop :=
  input_tokens t = sum_of input_tokens d /\
  output_tokens t = sum_of output_tokens d /\
  total_tokens t = sum_of total_tokens d.

Definition aggregated (m : Metrics) : Prop :=
  sums_to (totals m) (by_region m) /\ sums_to (totals m) (by_identity m) /\
  sums_to (totals m) (by_model m) /\ sums_to (totals m) (by_usage_key m) /\
  consistent (totals m).

(** The state of one dimension after the loop, from its state before. *)
Definition rolled (proj : usage_key -> string) (priced : list (usage_key * TokenStats))
    (before after : list (string * TokenStats)) : Prop :=
  forall r,
    od_get r after
    = (fun st => set_cost (foldl PrimFloat.add (cost_usd st) (costs_onto proj r priced)) st)
        <$> od_get r before.

(** Whether the three dimension maps hold the components of a key. *)
Definition dims_hold (k : usage_key) (br bi bm : list (string * TokenStats)) : Prop :=
  od_mem (key_region k) br = true /\ od_mem (key_identity k) bi = true /\
  od_mem (key_model k) bm = true.

(** The entries [record_processed] writes for a list of objects. *)
Definition recorded (isoformat : Z -> string) (now : Z)
    (processed : gmap string (gmap string string)) (objects : list S3Object)
    : gmap string (gmap string string) :=
  foldl (fun p obj =>
           <[key obj := {[ "etag"%string := etag obj;
                           "seen_at"%string := isoformat now ]}]> p)
        processed objects.

Module DedupExamples.
Definition obj_v1 : S3Object := mkS3Object "logs/a.json" "etag-1" 0.

(** One record inside the report day of [ScanExamples], priced nowhere. *)
Definition record : json :=
  JDict [("timestamp"%string, JStr "2026-02-02T08"%string);
         ("modelId"%string, JStr "anthropic.claude-3-haiku-20240307-v1:0"%string);
         ("input"%string, JDict [("inputTokenCount"%string, JInt 5)]);
         ("output"%string, JDict [("outputTokenCount"%string, JInt 7)])].

Definition records_of (k : string) : outcome (list json) := Ok [record].

Definition isoformat (t : Z) : string := Calendar.strftime_datehour t.

Definition int_of_str (s : string) : option Z := None.

Definition start_state : Workflow.ingest_state :=
  Workflow.mkIngestState Metrics0 Warnings0 (Manifest.ManifestState0 6) Workflow.run_stats0.

(** The first pass over the listing [[obj_v1]]. *)
Definition first_pass : outcome Workflow.ingest_state :=
  Workflow.ingest_new_objects isoformat int_of_str Calendar.strptime_datehour records_of
    false "us-east-1" ScanExamples.report_start ScanExamples.report_end
    ScanExamples.first_run_time start_state [obj_v1].

(** The state the first pass ends in. *)
Definition after_first_pass : Workflow.ingest_state :=
  Eval vm_compute in
    match first_pass with
    | Ok st => st
    | Raise _ => start_state
    end.
End DedupExamples.

Module TokenExamples.




End TokenExamples.

From stdpp Require sorting.

(** ** Vocabulary of the merge statements *)

(** The entry [merge] leaves under a key, from the receiver's entry and the
    incoming one. *)
Definition merged_entry (mine theirs : option TokenStats) : option TokenStats :=
  match theirs with
  | None => mine
  | Some s =>
      Some (TokenStats_add (default TokenStats0 mine)
              (input_tokens s) (output_tokens s) 0%float)
  end.

(** The keys of a [dict] are distinct. *)
Definition keyed_once {K V} (d : list (K * V)) : Prop := NoDup (od_keys d).

(** The keys [merge] leaves, in iteration order: the receiver's, then the
    incoming ones it did not hold. *)
Definition merged_keys {K} `{EqDecision K} (mine theirs : list K) : list K :=
  mine ++ filter (fun k => k ∉ mine) theirs.

(** The three integer comparisons of [_stats_equal] hold between [totals]
    and the recomputed sums of [by_region] and of [by_identity]. *)
Definition counts_verified (m : Metrics) : Prop :=
  token_counts (totals m) = token_counts (Workflow._sum_stats (by_region m)) /\
  token_counts (totals m) = token_counts (Workflow._sum_stats (by_identity m)).

(** The warnings the pricing loop leaves after going through [entries]. *)
Definition noted_rates (pricing : PricingProvider) (idmap : list (string * string))
    (entries : list (usage_key * TokenStats)) (w : Warnings) : Warnings :=
  foldl (fun w kv => note_rate (key_model (fst kv)) (rate_of pricing idmap (fst kv)) w)
        w entries.

(** ** Vocabulary of the ingestion statements *)

(** The shape of the [add_usage] calls the ingestion loop makes under the
    region [region]. *)
Definition ingested_call (region : string) (c : usage_call) : Prop :=
  uc_cost_usd c = 0%float /\
  uc_identity c <> EmptyString /\
  (region <> EmptyString -> uc_region c <> EmptyString) /\
  exists orig,
    uc_original_model_id c = Some orig /\ orig <> EmptyString /\
    uc_model_id c = Parser.normalize_model_id orig.

(** What going through some records does to the state: [calls] are the
    [add_usage] calls made, [parsed], [skipped] and [missing] the growth of
    the three counters. *)
Definition ingest_effect (region : string) (st st' : Workflow.ingest_state)
    (calls : list usage_call) (parsed skipped missing : Z) : Prop :=
  Workflow.metrics st' = foldl call_add_usage (Workflow.metrics st) calls /\
  Forall (ingested_call region) calls /\
  Workflow.records_parsed (Workflow.stats st')
    = Workflow.records_parsed (Workflow.stats st) + parsed /\
  Workflow.records_used (Workflow.stats st')
    = Workflow.records_used (Workflow.stats st) + Z.of_nat (length calls) /\
  records_skipped (Workflow.warnings st') = records_skipped (Workflow.warnings st) + skipped /\
  missing_token_counts (Workflow.warnings st')
    = missing_token_counts (Workflow.warnings st) + missing /\
  0 <= skipped /\ 0 <= missing <= Z.of_nat (length calls) /\
  Z.of_nat (length calls) + skipped <= parsed /\
  Workflow.objects_listed (Workflow.stats st') = Workflow.objects_listed (Workflow.stats st) /\
  Workflow.objects_filtered (Workflow.stats st')
    = Workflow.objects_filtered (Workflow.stats st) /\
  unpriced_models (Workflow.warnings st') = unpriced_models (Workflow.warnings st) /\
  partial_pricing_models (Workflow.warnings st')
    = partial_pricing_models (Workflow.warnings st) /\
  verification_errors (Workflow.warnings st') = verification_errors (Workflow.warnings st).

(** ** The data of the pruning examples *)

Module PruneExamples.
(** The parser of the hour texts the examples write; a text it does not
    read is skipped as a [ValueError]. *)
Definition seen_instant (s : string) : outcome (option Z) :=
  Ok (Calendar.strptime_datehour s).

Definition entry (etag seen_at : string) : gmap string string :=
  {[ "etag"%string := etag; "seen_at"%string := seen_at ]}.

(** Two objects seen at 01:00 and at 08:00 of the report day, under a
    lookback of six hours. *)
Definition manifest : Manifest.ManifestState :=
  Manifest.mkManifestState 1 (Some "2026-02-02T08"%string)
    {[ "logs/a.json"%string := entry "etag-a" "2026-02-02T01";
       "logs/b.json"%string := entry "etag-b" "2026-02-02T08" ]}
    None 6.

(** The same after pruning at 08:30. *)
Definition pruned : Manifest.ManifestState :=
  Manifest.mkManifestState 1 (Some "2026-02-02T08"%string)
    {[ "logs/b.json"%string := entry "etag-b" "2026-02-02T08" ]}
    None 6.

(** A pass at 09:00 sharp over one object, from an empty manifest. *)
Definition run_time : Z := ScanExamples.report_start + 9 * HOUR.

Definition pass : outcome Workflow.ingest_state :=
  Workflow.ingest_objects_node DedupExamples.isoformat DedupExamples.int_of_str
    Calendar.strptime_datehour DedupExamples.records_of "us-east-1"
    ScanExamples.report_start ScanExamples.report_end run_time
    DedupExamples.start_state [DedupExamples.obj_v1].

Definition after_pass : Workflow.ingest_state :=
  Eval vm_compute in
    match pass with
    | Ok st => st
    | Raise _ => DedupExamples.start_state
    end.

Definition plan_at_nine : Workflow.scan_plan :=
  Workflow.mkScanPlan [] (Some "2026-02-02T09"%string).

Definition saved_after_pass : Manifest.ManifestState :=
  Eval vm_compute in
    match Workflow.update_manifest_node seen_instant
            (Workflow.current_manifest after_pass) plan_at_nine run_time with
    | Ok m => m
    | Raise _ => Manifest.ManifestState0 6
    end.

(** The instant 09:15 of the report day and a parser that reads its text. *)
Definition quarter_past_nine : Z := ScanExamples.report_start + 9 * HOUR + 900 * SECOND.

Definition seen_iso (s : string) : outcome (option Z) :=
  Ok (if decide (s = "2026-02-02T09:15:00+00:00"%string)
      then Some quarter_past_nine else None).

(** An object of hour 09 seen at 09:15, in a manifest checkpointed at 09. *)
Definition early_manifest : Manifest.ManifestState :=
  Manifest.mkManifestState 1 (Some "2026-02-02T09"%string)
    {[ "logs/a.json"%string := entry "etag-1" "2026-02-02T09:15:00+00:00" ]}
    None 6.

(** The run of 15:30 and the plan it makes. *)
Definition afternoon : Z := ScanExamples.report_start + 15 * HOUR + 1800 * SECOND.

Definition afternoon_plan : Workflow.scan_plan :=
  Workflow.mkScanPlan [] (Some "2026-02-02T15"%string).

Definition after_afternoon : Manifest.ManifestState :=
  Manifest.mkManifestState 1 (Some "2026-02-02T15"%string) ∅ None 6.
End PruneExamples.

(** ** [adapters/pricing.py]: the price file and the provider's table

    The parsed YAML document is a [json] value; the keys of its mappings
    are text, as in every price file the scraper writes. *)

Module PricingFile.
(** [_filter_rates]: [model_ids] is [None], or a set of identifiers. *)
Definition _filter_rates (rates : Pricing.rate_table) (model_ids : option (gset string))
    : Pricing.rate_table :=
  match model_ids with
  | None => rates
  | Some ids =>
      if decide (ids = ∅) then rates
      else
        let pricing_keys : gset string :=
          filter (fun k => k <> EmptyString)
                 (set_map (D := gset string) Pricing.get_pricing_model_key ids) in
        filter (fun kv => fst kv ∈ pricing_keys) rates
  end.

(** [StaticPricingProvider.refresh], from the table [_load_pricing_yaml]
    returns: the new value of [self._rates]. *)
Definition refresh (loaded : Pricing.rate_table) (model_ids : option (gset string))
    : option Pricing.rate_table :=
  Some (_filter_rates loaded model_ids).

(** The table [StaticPricingProvider.get_rate] looks into: [self._rates],
    after the [refresh()] it calls first when that is still [None]. *)
Definition rates_in_use (loaded : Pricing.rate_table) (_rates : option Pricing.rate_table)
    : Pricing.rate_table :=
  match _rates with
  | Some r => r
  | None => default ∅ (refresh loaded None)
  end.

(** [refresh_pricing_node]: the new value of the provider's [_rates]. *)
Definition refresh_pricing_node (metrics : Metrics) (loaded : Pricing.rate_table)
    (_rates : option Pricing.rate_table) : option Pricing.rate_table :=
  let model_ids : gset string :=
    list_to_set (map (original_of (model_id_map metrics)) (od_keys (by_model metrics))) in
  if decide (model_ids = ∅) then _rates
  else refresh loaded (Some model_ids).

Section price_file.
(** [float(s)] for a string, [None] for its [ValueError]. *)
Variable float_of_str : string -> option float.

(** [float(v)] for a value that is not [None]: [Ok None] is the
    [TypeError] or [ValueError] the loader catches; an integer beyond the
    range of [float] raises [OverflowError], which it does not catch. *)
Definition rate_number (v : json) : outcome (option float) :=
  match v with
  | JNull => Ok None
  | JBool b => Ok (Some (if b then 1 else 0)%float)
  | JInt n => f ← float_of_int n; Ok (Some f)
  | JFloat f => Ok (Some f)
  | JStr s => Ok (float_of_str s)
  | JList _ | JDict _ => Ok None
  end.

(** [float(v) if v is not None else 0.0] *)
Definition rate_or_zero (v : json) : outcome (option float) :=
  match v with
  | JNull => Ok (Some 0%float)
  | _ => rate_number v
  end.

Definition is_null (v : json) : bool :=
  match v with JNull => true | _ => false end.

(** The body of the inner loop for one [rate] that is a mapping:
    [Ok None] when the entry is skipped. *)
Definition read_rate (rate : list (string * json)) : outcome (option PriceRate) :=
  let input_rate := jget "input_per_1k" rate in
  let output_rate := jget "output_per_1k" rate in
  if is_null input_rate && is_null output_rate then Ok None
  else
    input_val ← rate_or_zero input_rate;
    match input_val with
    | None => Ok None
    | Some i =>
        output_val ← rate_or_zero output_rate;
        match output_val with
        | None => Ok None
        | Some o =>
            currency ← match od_get "currency" rate with
                       | None => Ok "USD"%string
                       | Some (JStr s) => Ok s
                       | Some _ => Raise Untyped
                       end;
            effective_date ← match jget "effective_date" rate with
                             | JNull => Ok None
                             | JStr s => Ok (Some s)
                             | _ => Raise Untyped
                             end;
            Ok (Some (mkPriceRate i o currency effective_date
                        (is_null input_rate) (is_null output_rate)))
        end
    end.

(** [rates.setdefault(pricing_key, {})[region] = price_rate] *)
Definition store_rate (pricing_key region : string) (price_rate : PriceRate)
    (rates : Pricing.rate_table) : Pricing.rate_table :=
  <[pricing_key := <[region := price_rate]> (default ∅ (rates !! pricing_key))]> rates.

(** [for region, rate in region_map.items(): ...] *)
Definition read_regions (pricing_key : string) (region_map : list (string * json))
    (rates : Pricing.rate_table) : outcome Pricing.rate_table :=
  foldl (fun acc kv =>
           rates ← acc;
           match snd kv with
           | JDict rate =>
               r ← read_rate rate;
               match r with
               | Some price_rate => Ok (store_rate pricing_key (fst kv) price_rate rates)
               | None => Ok rates
               end
           | _ => Ok rates
           end)
        (Ok rates) region_map.

(** [for model_id, region_map in raw_rates.items(): ...] *)
Definition read_models (raw_rates : list (string * json)) : outcome Pricing.rate_table :=
  foldl (fun acc kv =>
           rates ← acc;
           match snd kv with
           | JDict region_map =>
               let pricing_key := Pricing.get_pricing_model_key (fst kv) in
               match pricing_key with
               | EmptyString => Ok rates
               | _ => read_regions pricing_key region_map rates
               end
           | _ => Ok rates
           end)
        (Ok ∅) raw_rates.

(** [_load_pricing_yaml]: [payload] is [None] when the file does not exist,
    and what [yaml.safe_load] returns otherwise. *)
Definition _load_pricing_yaml (payload : option json) : outcome Pricing.rate_table :=
  match payload with
  | None => Ok ∅
  | Some JNull => Ok ∅
  | Some (JDict top) =>
      let raw_rates := match jget "rates" top with
                       | JNull => JDict top
                       | v => v
                       end in
      match raw_rates with
      | JDict entries => read_models entries
      | _ => Ok ∅
      end
  | Some _ => Ok ∅
  end.
End price_file.
End PricingFile.

Module PriceFileExamples.
Definition rate_doc (i o : float) : json :=
  JDict [("input_per_1k"%string, JFloat i); ("output_per_1k"%string, JFloat o);
         ("currency"%string, JStr "USD")].

(** The document of [test_static_pricing_provider_region_override] *)
Definition override_payload : json :=
  JDict [("schema_version"%string, JInt 1);
         ("rates"%string,
          JDict [("anthropic.claude-opus-4-5-20251101-v1"%string,
                  JDict [("default"%string, rate_doc 0.005 0.015);
                         ("us-west-2"%string, rate_doc 0.006 0.018)])])].

Definition override_rates : list (string * json) :=
  [("anthropic.claude-opus-4-5-20251101-v1"%string,
    JDict [("default"%string, rate_doc 0.005 0.015);
           ("us-west-2"%string, rate_doc 0.006 0.018)])].

(** No rate of the examples is written as text. *)
Definition float_of_str (s : string) : option float := None.

(** The usage of one model under the identifier the logs give it. *)
Definition opus_usage : Metrics :=
  add_usage Metrics0 "us-west-2" "arn:test" "anthropic.claude-opus-4-5-20251101-v1"
    1000 500 0%float (Some "anthropic.claude-opus-4-5-20251101-v1:0"%string).
End PriceFileExamples.

(** ** [state/manifest.py]: the manifest document

    The manifest is stored as JSON. What is modelled is the document
    [json.dumps(..., sort_keys=True)] is given and the document
    [json.loads] returns: the same document with the entries of every
    object in the order of their keys. *)

Module ManifestIO.
Import Manifest.

(** The order of [str] keys: by code point, which is the order of their
    UTF-8 bytes. *)
Definition key_le {V} (a b : string * V) : Prop := String.leb (fst a) (fst b) = true.

#[global] Instance key_le_dec {V} (a b : string * V) : Decision (key_le a b).
Proof. unfold key_le. apply _. Defined.

(** [json.loads(json.dumps(v, sort_keys=True))] *)
Fixpoint sort_keys (v : json) : json :=
  match v with
  | JList l => JList (map sort_keys l)
  | JDict d =>
      JDict (sorting.merge_sort key_le
               ((fix entries (d : list (string * json)) : list (string * json) :=
                   match d with
                   | [] => []
                   | (k, x) :: rest => (k, sort_keys x) :: entries rest
                   end) d))
  | _ => v
  end.

(** An [Optional[str]] as a JSON value *)
Definition opt_text (s : option string) : json :=
  match s with
  | Some t => JStr t
  | None => JNull
  end.

Definition meta_to_dict (meta : gmap string string) : json :=
  JDict (map (fun kv => (fst kv, JStr (snd kv))) (map_to_list meta)).

(** [ManifestState.to_dict] *)
Definition to_dict (m : ManifestState) : json :=
  JDict [("version"%string, JInt (version m));
         ("last_datehour"%string, opt_text (last_datehour m));
         ("processed"%string,
          JDict (map (fun kv => (fst kv, meta_to_dict (snd kv)))
                     (map_to_list (processed m))));
         ("updated_at"%string, opt_text (updated_at m));
         ("lookback_hours"%string, JInt (lookback_hours m))].

Section documents.
Variable isoformat : Z -> string.
Variable int_of_str : string -> option Z.

(** [save_manifest]: the manifest as it is left, and the document
    [put_object] stores. *)
Definition save_manifest (manifest : ManifestState) (now : Z) : ManifestState * json :=
  let manifest' :=
    mkManifestState (version manifest) (last_datehour manifest) (processed manifest)
      (Some (isoformat now)) (lookback_hours manifest) in
  (manifest', sort_keys (to_dict manifest')).

(** A field read as an [Optional[str]] *)
Definition text_field (v : json) : outcome (option string) :=
  match v with
  | JNull => Ok None
  | JStr s => Ok (Some s)
  | _ => Raise Untyped
  end.

(** One entry of [processed], a mapping of text to text *)
Definition read_meta (v : json) : outcome (gmap string string) :=
  match v with
  | JDict d =>
      entries ← mapM (fun kv => match snd kv with
                                | JStr s => Ok (fst kv, s)
                                | _ => Raise Untyped
                                end) d;
      Ok (list_to_map entries)
  | _ => Raise Untyped
  end.

Definition read_processed (v : json) : outcome (gmap string (gmap string string)) :=
  match v with
  | JDict d =>
      entries ← mapM (fun kv => meta ← read_meta (snd kv); Ok (fst kv, meta)) d;
      Ok (list_to_map entries)
  | _ => Raise Untyped
  end.

(** [int(v)]: [Ok None] is its [ValueError]. *)
Definition py_int (v : json) : outcome (option Z) :=
  match v with
  | JNull | JList _ | JDict _ => Raise TypeError
  | JBool b => Ok (Some (if b then 1 else 0))
  | JInt n => Ok (Some n)
  | JFloat f => Parser.int_of_float f
  | JStr s => Ok (int_of_str s)
  end.

(** [load_manifest]: [stored] is [None] when [get_object_etag] finds no
    object, else the etag and the parsed document; [Ok None] is the
    [ValueError] of [int]. *)
Definition load_manifest (stored : option (string * json)) (lookback_hours : Z)
    : outcome (option (ManifestState * option string)) :=
  match stored with
  | None => Ok (Some (ManifestState0 lookback_hours, None))
  | Some (etag, JDict data) =>
      version ← match od_get "version" data with
                | None => Ok MANIFEST_VERSION
                | Some (JInt n) => Ok n
                | Some _ => Raise Untyped
                end;
      last_datehour ← text_field (jget "last_datehour" data);
      processed ← match od_get "processed" data with
                  | None => Ok ∅
                  | Some v => read_processed v
                  end;
      updated_at ← text_field (jget "updated_at" data);
      lookback ← match od_get "lookback_hours" data with
                 | None => Ok (Some lookback_hours)
                 | Some v => py_int v
                 end;
      Ok (match lookback with
          | Some h =>
              Some (mkManifestState version last_datehour processed updated_at h, Some etag)
          | None => None
          end)
  | Some (_, _) => Raise AttributeError
  end.

(** [load_manifest_node]: the manifest and the etag put into the state. *)
Definition load_manifest_node (stored : option (string * json)) (lookback_hours : Z)
    : outcome (option (ManifestState * option string)) :=
  loaded ← load_manifest stored lookback_hours;
  Ok (match loaded with
      | Some (manifest, etag) =>
          Some (mkManifestState (version manifest) (last_datehour manifest)
                  (processed manifest) (updated_at manifest) lookback_hours,
                etag)
      | None => None
      end).
End documents.
End ManifestIO.

(** ** [reporting.py]: the snapshot document

    The snapshot is stored as YAML with [sort_keys=False]; what
    [read_snapshot] returns is taken to be the document [write_snapshot]
    was given. *)

Module Reporting.
(** The order of [str] values *)
Definition str_le (a b : string) : Prop := String.leb a b = true.

#[global] Instance str_le_dec (a b : string) : Decision (str_le a b).
Proof. unfold str_le. apply _. Defined.

(** [sorted(d)] for a dictionary with text keys: its keys in order *)
Definition sorted_keys {V} (d : list (string * V)) : list string :=
  sorting.merge_sort str_le (od_keys d).

(** The order of tuples of three [str] values *)
Definition triple_compare (a b : usage_key) : comparison :=
  let '(r1, i1, m1) := a in
  let '(r2, i2, m2) := b in
  match String.compare r1 r2 with
  | Eq => match String.compare i1 i2 with
          | Eq => String.compare m1 m2
          | c => c
          end
  | c => c
  end.

(** [sorted(d.items())] compares the keys: two items of a dictionary never
    have the same key, so the comparison never reaches the values. *)
Definition item_le (a b : usage_key * TokenStats) : Prop :=
  triple_compare (fst a) (fst b) <> Gt.

#[global] Instance item_le_dec (a b : usage_key * TokenStats) : Decision (item_le a b).
Proof. unfold item_le. apply _. Defined.

(** [_token_stats_to_dict], as a list of entries *)
Definition stats_entries (stats : TokenStats) : list (string * json) :=
  [("input_tokens"%string, JInt (input_tokens stats));
   ("output_tokens"%string, JInt (output_tokens stats));
   ("total_tokens"%string, JInt (total_tokens stats));
   ("cost_usd"%string, JFloat (cost_usd stats))].

(** [_token_stats_to_dict] *)
Definition _token_stats_to_dict (stats : TokenStats) : json := JDict (stats_entries stats).

(** [_stats_map_to_dict] *)
Definition _stats_map_to_dict (stats_map : list (string * TokenStats)) : json :=
  JDict (omap (fun k => (fun st => (k, _token_stats_to_dict st)) <$> od_get k stats_map)
              (sorted_keys stats_map)).

(** [_usage_key_map_to_list] *)
Definition _usage_key_map_to_list (stats_map : list (usage_key * TokenStats)) : json :=
  JList (map (fun kv =>
                let '(region, ident, model_id) := fst kv in
                JDict ([("region"%string, JStr region);
                        ("identity"%string, JStr ident);
                        ("model_id"%string, JStr model_id)]
                       ++ stats_entries (snd kv)))
             (sorting.merge_sort item_le stats_map)).

(** [_metrics_to_dict] *)
Definition _metrics_to_dict (metrics : Metrics) : json :=
  JDict [("totals"%string, _token_stats_to_dict (totals metrics));
         ("by_region"%string, _stats_map_to_dict (by_region metrics));
         ("by_model"%string, _stats_map_to_dict (by_model metrics));
         ("by_identity"%string, _stats_map_to_dict (by_identity metrics));
         ("by_usage_key"%string, _usage_key_map_to_list (by_usage_key metrics))].

(** [sorted(s)] for a set of text, as a JSON list *)
Definition sorted_set (s : gset string) : json :=
  JList (map JStr (sorting.merge_sort str_le (elements s))).

(** [Warnings.to_dict] *)
Definition Warnings_to_dict (w : Warnings) : json :=
  JDict [("unpriced_models"%string, sorted_set (unpriced_models w));
         ("partial_pricing_models"%string, sorted_set (partial_pricing_models w));
         ("missing_token_counts"%string, JInt (missing_token_counts w));
         ("records_skipped"%string, JInt (records_skipped w));
         ("verification_errors"%string, sorted_set (verification_errors w))].

(** [Warnings.has_critical_warnings] *)
Definition has_critical_warnings (w : Warnings) : bool :=
  negb (bool_decide (unpriced_models w = ∅))
  || negb (bool_decide (verification_errors w = ∅)).

(** [state["stats"]], the dictionary [load_config_node] creates *)
Definition stats_to_dict (stats : Workflow.run_stats) : json :=
  JDict [("objects_listed"%string, JInt (Workflow.objects_listed stats));
         ("objects_filtered"%string, JInt (Workflow.objects_filtered stats));
         ("objects_processed"%string, JInt (Workflow.objects_processed stats));
         ("records_parsed"%string, JInt (Workflow.records_parsed stats));
         ("records_used"%string, JInt (Workflow.records_used stats))].

Section snapshot.
Variable isoformat : Z -> string.

(** [build_report_snapshot] *)
Definition build_report_snapshot (report_date : string)
    (report_start report_end generated_at : Z) (metrics : Metrics) (warnings : Warnings)
    (stats : Workflow.run_stats) (report_text : string) : json :=
  JDict [("schema_version"%string, JInt 1);
         ("report_date"%string, JStr report_date);
         ("report_start"%string, JStr (isoformat report_start));
         ("report_end"%string, JStr (isoformat report_end));
         ("generated_at"%string, JStr (isoformat generated_at));
         ("report"%string, JDict [("text"%string, JStr report_text)]);
         ("metrics"%string, _metrics_to_dict metrics);
         ("warnings"%string, Warnings_to_dict warnings);
         ("stats"%string, stats_to_dict stats)].
End snapshot.

(** [_top_identities] and [_by_model] sort with
    [key=lambda item: item[1].total_tokens, reverse=True]: a stable sort
    into descending order, so that among entries with the same total the
    earlier one stays first. *)
Fixpoint insert_desc {K} (x : K * TokenStats) (l : list (K * TokenStats))
    : list (K * TokenStats) :=
  match l with
  | [] => [x]
  | y :: rest =>
      if total_tokens (snd y) <=? total_tokens (snd x) then x :: l
      else y :: insert_desc x rest
  end.

Definition sort_desc {K} (l : list (K * TokenStats)) : list (K * TokenStats) :=
  foldr insert_desc [] l.

(** [_by_model] *)
Definition _by_model (metrics : Metrics) : list (string * TokenStats) :=
  sort_desc (by_model metrics).

(** [_top_identities] *)
Definition _top_identities (metrics : Metrics) : list (string * TokenStats) :=
  take 5 (sort_desc (by_identity metrics)).
End Reporting.

(** Every component of every granular key is a non-empty text. *)
Definition usage_keys_named (m : Metrics) : Prop :=
  forall k, k ∈ od_keys (by_usage_key m) ->
    key_region k <> EmptyString /\ key_identity k <> EmptyString /\
    key_model k <> EmptyString.

(** The maps of a [Metrics] are dictionaries: no key occurs twice. *)
Definition well_keyed (m : Metrics) : Prop :=
  keyed_once (by_region m) /\ keyed_once (by_identity m) /\
  keyed_once (by_model m) /\ keyed_once (by_usage_key m).

(** The items of a dictionary in the order of their keys. *)
Definition sorted_items {V} (d : list (string * V)) : list (string * V) :=
  omap (fun k => (fun v => (k, v)) <$> od_get k d) (Reporting.sorted_keys d).

(** What a [Metrics] reads back as from the snapshot written for it. *)
Definition reloaded (m : Metrics) : Metrics :=
  mkMetrics (totals m) (sorted_items (by_region m)) (sorted_items (by_identity m))
    (sorted_items (by_model m)) (sorting.merge_sort Reporting.item_le (by_usage_key m)) [].

(** A ranking in descending order of [total_tokens]. *)
Definition descending {K} (l : list (K * TokenStats)) : Prop :=
  Sorted.StronglySorted (fun a b => total_tokens (snd b) <= total_tokens (snd a)) l.

(** ** [graph/workflow.py]: listing the objects of the scan prefixes *)
Module Listing.
Import Workflow.

(** [needle in s] *)
Fixpoint contains (needle s : string) : bool :=
  if PyStr.startswith needle s then true
  else
    match s with
    | EmptyString => false
    | String _ rest => contains needle rest
    end.

(** [key.rsplit("/", 1)[-1]] *)
Definition basename (key : string) : string :=
  default key (PyStr.after_last "/" key).

Definition add_listed (n : Z) (s : run_stats) : run_stats :=
  mkRunStats (objects_listed s + n) (objects_filtered s) (objects_processed s)
    (records_parsed s) (records_used s).

Definition add_filtered (n : Z) (s : run_stats) : run_stats :=
  mkRunStats (objects_listed s) (objects_filtered s + n) (objects_processed s)
    (records_parsed s) (records_used s).

Section listing.
(** [bool(re.match(r"^\d{8}T\d{6,9}Z_[a-f0-9]+\.json(\.gz)?$", basename))] *)
Variable metadata_name : string -> bool.
(** [deps.s3.list_objects(bucket, prefix)] *)
Variable list_objects : string -> string -> outcome (list S3Object).

(** [_is_metadata_file] *)
Definition _is_metadata_file (key : string) : bool :=
  let basename := basename key in
  if contains "_input.json" basename || contains "_output.json" basename then false
  else if PyStr.startswith "amazon-bedrock-logs-permission-check" basename then false
  else metadata_name basename.

(** The loop of [list_objects_node] over the prefixes, from the counters
    and the objects collected so far. *)
Fixpoint list_prefixes (bucket : string) (prefixes : list string)
    (stats : run_stats) (objects : list S3Object)
    : outcome (run_stats * list S3Object) :=
  match prefixes with
  | [] => Ok (stats, objects)
  | prefix :: rest =>
      match list_objects bucket prefix with
      | Raise e => Raise e
      | Ok found =>
          let stats := add_listed (Z.of_nat (length found)) stats in
          let metadata_files :=
            filter (fun obj => _is_metadata_file (key obj) = true) found in
          let stats :=
            add_filtered
              (Z.of_nat (length found) - Z.of_nat (length metadata_files)) stats in
          list_prefixes bucket rest stats (objects ++ metadata_files)
      end
  end.

(** [list_objects_node]: the counters and [state["objects"]] *)
Definition list_objects_node (bucket : string) (prefixes : list string)
    (stats : run_stats) : outcome (run_stats * list S3Object) :=
  list_prefixes bucket prefixes stats [].
End listing.
End Listing.

(** A bucket with one hour of logs: a metadata file, the two body files of
    its request and the permission check file. *)
Module ListingExamples.
Definition hour_prefix : string := "AWSLogs/BedrockModelInvocationLogs/us-east-1/2026/02/01/20/".
Definition named (name : string) : S3Object :=
  mkS3Object (hour_prefix +:+ name) "etag-1" 0.
Definition metadata_object : S3Object := named "20260201T204541Z_0a1b2c.json.gz".
Definition input_object : S3Object := named "20260201T204541Z_0a1b2c_input.json.gz".
Definition output_object : S3Object := named "20260201T204541Z_0a1b2c_output.json.gz".
Definition check_object : S3Object :=
  mkS3Object "AWSLogs/amazon-bedrock-logs-permission-check.json" "etag-2" 0.

Definition list_objects (bucket prefix : string) : outcome (list S3Object) :=
  if decide (bucket = "logs"%string) then
    Ok (filter (fun obj => PyStr.startswith prefix (key obj) = true)
          [check_object; metadata_object; input_object; output_object])
  else Raise KeyError.

(** The pattern of metadata names on ASCII names without a line break:
    eight digits, [T], six to nine digits, [Z_], a hash in lower-case
    hexadecimal, then [.json] or [.json.gz]. *)
Definition is_digit (c : ascii) : bool :=
  ((48 <=? nat_of_ascii c) && (nat_of_ascii c <=? 57))%nat.

Definition is_hex (c : ascii) : bool :=
  is_digit c || ((97 <=? nat_of_ascii c) && (nat_of_ascii c <=? 102))%nat.

Fixpoint span (p : ascii -> bool) (s : string) : string * string :=
  match s with
  | EmptyString => (EmptyString, EmptyString)
  | String a rest =>
      if p a then (String a (fst (span p rest)), snd (span p rest))
      else (EmptyString, s)
  end.

Definition metadata_name (name : string) : bool :=
  let day := span is_digit name in
  match snd day with
  | String "T" rest =>
      let time := span is_digit rest in
      match snd time with
      | String "Z" (String "_" rest) =>
          let hash := span is_hex rest in
          (String.length (fst day) =? 8)%nat
          && (6 <=? String.length (fst time))%nat
          && (String.length (fst time) <=? 9)%nat
          && (1 <=? String.length (fst hash))%nat
          && (bool_decide (snd hash = ".json"%string)
              || bool_decide (snd hash = ".json.gz"%string))
      | _ => false
      end
  | _ => false
  end.
End ListingExamples.

(** ** [graph/workflow.py]: the key of the manifest *)
Module ManifestKey.
(** [s.lstrip(c)] *)
Fixpoint lstrip (c : ascii) (s : string) : string :=
  match s with
  | EmptyString => EmptyString
  | String a rest => if decide (a = c) then lstrip c rest else s
  end.

(** [s.rstrip(c)] *)
Fixpoint rstrip (c : ascii) (s : string) : string :=
  match s with
  | EmptyString => EmptyString
  | String a rest =>
      match rstrip c rest with
      | EmptyString => if decide (a = c) then EmptyString else String a EmptyString
      | kept => String a kept
      end
  end.

(** [s.strip(c)] *)
Definition strip (c : ascii) (s : string) : string := rstrip c (lstrip c s).

(** [s.endswith(c)] *)
Fixpoint ends_with (c : ascii) (s : string) : bool :=
  match s with
  | EmptyString => false
  | String a EmptyString => if decide (a = c) then true else false
  | String _ rest => ends_with c rest
  end.

(** [_manifest_key] *)
Definition _manifest_key (prefix : string) : string :=
  let clean := strip "/" prefix in
  if str_truthy (Some clean) then (clean +:+ "/bedrock-usage/manifest.json")%string
  else "bedrock-usage/manifest.json"%string.
End ManifestKey.

(** * Properties *)

(** ** Ordered dictionaries *)

Section ordered_dict_facts.
Context {K : Type} `{EqDecision K} {V : Type}.
Implicit Types (d : list (K * V)) (k : K).

Lemma od_get_upsert_eq k f v0 d :
  od_get k (od_upsert k f v0 d) = Some (f (default v0 (od_get k d))).
Proof.
  induction d as [|[k' v] d IH]; simpl.
  - by rewrite decide_True.
  - destruct (decide (k = k')) as [->|Hne]; simpl.
    + by rewrite decide_True.
    + by rewrite decide_False.
Qed.

Lemma od_get_upsert_ne k k' f v0 d :
  k ≠ k' -> od_get k' (od_upsert k f v0 d) = od_get k' d.
Proof.
  intros Hne. induction d as [|[k0 v] d IH]; simpl.
  - by rewrite decide_False by congruence.
  - destruct (decide (k = k0)) as [->|Hne0]; simpl.
    + by rewrite !decide_False by congruence.
    + destruct (decide (k' = k0)); [done|apply IH].
Qed.

Lemma od_mem_upsert k k' f v0 d :
  od_mem k' (od_upsert k f v0 d) = true <-> k' = k \/ od_mem k' d = true.
Proof.
  unfold od_mem. destruct (decide (k' = k)) as [->|Hne].
  - rewrite od_get_upsert_eq. naive_solver.
  - rewrite od_get_upsert_ne by congruence. naive_solver.
Qed.

Lemma od_update_Some k f d :
  od_mem k d = true -> exists d', od_update k f d = Some d'.
Proof.
  unfold od_mem. induction d as [|[k' v] d IH]; simpl; [done|].
  destruct (decide (k = k')); [eauto|].
  intros Hk. destruct (IH Hk) as [d' ->]. simpl. eauto.
Qed.

Lemma od_update_None k f d :
  od_mem k d = false -> od_update k f d = None.
Proof.
  unfold od_mem. induction d as [|[k' v] d IH]; simpl; [done|].
  destruct (decide (k = k')); [done|].
  intros Hk. by rewrite IH.
Qed.

Lemma od_get_update k k' f d d' :
  od_update k f d = Some d' ->
  od_get k' d' = if decide (k' = k) then f <$> od_get k' d else od_get k' d.
Proof.
  revert d'. induction d as [|[k0 v] d IH]; intros d'; simpl; [done|].
  destruct (decide (k = k0)) as [->|Hne].
  - intros [= <-]. simpl. destruct (decide (k' = k0)); done.
  - destruct (od_update k f d) as [d0|] eqn:E; simpl; [|done].
    intros [= <-]. simpl. destruct (decide (k' = k0)) as [->|].
    + by rewrite decide_False by congruence.
    + by apply IH.
Qed.

Lemma od_keys_update k f d d' :
  od_update k f d = Some d' -> od_keys d' = od_keys d.
Proof.
  revert d'. induction d as [|[k0 v] d IH]; intros d'; simpl; [done|].
  destruct (decide (k = k0)) as [->|Hne].
  - by intros [= <-].
  - destruct (od_update k f d) as [d0|] eqn:E; simpl; [|done].
    intros [= <-]. simpl. f_equal. by apply IH.
Qed.

Lemma od_mem_keys k d : od_mem k d = true <-> k ∈ od_keys d.
Proof.
  unfold od_mem, od_keys. induction d as [|[k0 v] d IH]; simpl.
  - split; [done|]. by intros ?%elem_of_nil.
  - rewrite elem_of_cons. destruct (decide (k = k0)); naive_solver.
Qed.

Lemma od_get_map_values (g : V -> V) k d :
  od_get k (od_map_values g d) = g <$> od_get k d.
Proof.
  induction d as [|[k0 v] d IH]; simpl; [done|].
  destruct (decide (k = k0)); done.
Qed.

Lemma od_keys_map_values (g : V -> V) d : od_keys (od_map_values g d) = od_keys d.
Proof. unfold od_keys, od_map_values. rewrite map_map. done. Qed.
End ordered_dict_facts.

(** ** Token totals under [add_usage] *)

Lemma sum_of_upsert {K} `{EqDecision K} (field : TokenStats -> Z) (k : K)
    (f : TokenStats -> TokenStats) (delta : Z) (d : list (K * TokenStats)) :
  (forall s, field (f s) = field s + delta) ->
  field TokenStats0 = 0 ->
  sum_of field (od_upsert k f TokenStats0 d) = sum_of field d + delta.
Proof.
  intros Hf H0. unfold sum_of, od_values, sum_Z.
  induction d as [|[k' v] d IH]; simpl.
  - rewrite Hf, H0. lia.
  - destruct (decide (k = k')); simpl; [rewrite Hf|rewrite IH]; lia.
Qed.

Lemma sums_to_add_usage {K} `{EqDecision K} t (d : list (K * TokenStats)) k inp out c c' :
  sums_to t d ->
  sums_to (TokenStats_add t inp out c)
          (od_upsert k (fun s => TokenStats_add s inp out c') TokenStats0 d).
Proof.
  intros (Hi & Ho & Ht). unfold sums_to.
  rewrite (sum_of_upsert input_tokens k _ inp), (sum_of_upsert output_tokens k _ out),
    (sum_of_upsert total_tokens k _ (inp + out)) by done.
  simpl. lia.
Qed.

Lemma aggregated_empty : aggregated Metrics0.
Proof. repeat split. Qed.

Lemma aggregated_add_usage m region ident model_id inp out c orig :
  aggregated m -> aggregated (add_usage m region ident model_id inp out c orig).
Proof.
  intros (Hr & Hi & Hm & Hu & Hc). unfold aggregated, add_usage; simpl.
  repeat split; try (by apply sums_to_add_usage).
  all: try (by eapply (sums_to_add_usage _ _ _ _ _ _ _ _)).
  unfold consistent in *; simpl; lia.
Qed.

Lemma aggregated_add_usages_from m calls :
  aggregated m -> aggregated (foldl call_add_usage m calls).
Proof.
  revert m. induction calls as [|c calls IH]; intros m Hm; simpl; [done|].
  apply IH, aggregated_add_usage, Hm.
Qed.

(** ** The self-check *)

Lemma foldl_sum_stats (l : list TokenStats) (t : TokenStats) :
  let r := foldl (fun t s => TokenStats_add t (input_tokens s) (output_tokens s) (cost_usd s)) t l in
  input_tokens r = input_tokens t + sum_Z (map input_tokens l) /\
  output_tokens r = output_tokens t + sum_Z (map output_tokens l) /\
  total_tokens r =
    total_tokens t + (sum_Z (map input_tokens l) + sum_Z (map output_tokens l)).
Proof.
  revert t. induction l as [|s l IH]; intros t; simpl.
  - lia.
  - destruct (IH (TokenStats_add t (input_tokens s) (output_tokens s) (cost_usd s)))
      as (Hi & Ho & Ht).
    rewrite Hi, Ho, Ht. simpl. lia.
Qed.

Lemma sum_stats_tokens {K} (d : list (K * TokenStats)) :
  input_tokens (Workflow._sum_stats d) = sum_of input_tokens d /\
  output_tokens (Workflow._sum_stats d) = sum_of output_tokens d /\
  total_tokens (Workflow._sum_stats d) = sum_of input_tokens d + sum_of output_tokens d.
Proof.
  unfold Workflow._sum_stats, sum_of.
  destruct (foldl_sum_stats (od_values d) TokenStats0) as (Hi & Ho & Ht).
  rewrite Hi, Ho, Ht. simpl. lia.
Qed.

Lemma verify_results_fields (m : Metrics) (w : Warnings) :
  let w' := Workflow.verify_results_node m w in
  unpriced_models w' = unpriced_models w /\
  partial_pricing_models w' = partial_pricing_models w /\
  missing_token_counts w' = missing_token_counts w /\
  records_skipped w' = records_skipped w.
Proof.
  unfold Workflow.verify_results_node.
  repeat match goal with |- context [if ?b then _ else _] => destruct b end; done.
Qed.

Lemma verify_results_errors (m : Metrics) (w : Warnings) (name : string) :
  name ∈ verification_errors (Workflow.verify_results_node m w) <->
  name ∈ verification_errors w \/
  (name = "by_region_mismatch"%string /\
   Workflow._stats_equal (totals m) (Workflow._sum_stats (by_region m)) = false) \/
  (name = "by_identity_mismatch"%string /\
   Workflow._stats_equal (totals m) (Workflow._sum_stats (by_identity m)) = false).
Proof.
  unfold Workflow.verify_results_node.
  destruct (Workflow._stats_equal (totals m) (Workflow._sum_stats (by_region m)));
    destruct (Workflow._stats_equal (totals m) (Workflow._sum_stats (by_identity m)));
    simpl; set_solver.
Qed.

Lemma foldl_sum_stats_cost (l : list TokenStats) (t : TokenStats) :
  cost_usd (foldl (fun t s => TokenStats_add t (input_tokens s) (output_tokens s) (cost_usd s))
              t l)
  = foldl PrimFloat.add (cost_usd t) (map cost_usd l).
Proof.
  revert t. induction l as [|s l IH]; intros t; [done|].
  cbn [foldl map]. by rewrite IH.
Qed.

Lemma sum_stats_cost {K} (d : list (K * TokenStats)) :
  cost_usd (Workflow._sum_stats d) = fsum (map cost_usd (od_values d)).
Proof. unfold Workflow._sum_stats, fsum. by rewrite foldl_sum_stats_cost. Qed.

Lemma stats_equal_false (l r : TokenStats) :
  Workflow._stats_equal l r = false <->
  input_tokens l <> input_tokens r \/ output_tokens l <> output_tokens r \/
  total_tokens l <> total_tokens r \/
  (abs (cost_usd l - cost_usd r) <? 0.0001)%float = false.
Proof.
  unfold Workflow._stats_equal.
  destruct (Z.eqb_spec (input_tokens l) (input_tokens r)) as [Hi|Hi]; cbn [negb];
    [|by split; [left|]].
  destruct (Z.eqb_spec (output_tokens l) (output_tokens r)) as [Ho|Ho]; cbn [negb];
    [|by split; [right; left|]].
  destruct (Z.eqb_spec (total_tokens l) (total_tokens r)) as [Ht|Ht]; cbn [negb];
    [|by split; [right; right; left|]].
  split; [by right; right; right|].
  by intros [?|[?|[?|?]]].
Qed.

Lemma verify_results_mismatch {K} (t : TokenStats) (d : list (K * TokenStats)) :
  Workflow._stats_equal t (Workflow._sum_stats d) = false <->
  input_tokens t <> sum_of input_tokens d \/
  output_tokens t <> sum_of output_tokens d \/
  total_tokens t <> sum_of input_tokens d + sum_of output_tokens d \/
  (abs (cost_usd t - fsum (map cost_usd (od_values d))) <? 0.0001)%float = false.
Proof.
  rewrite stats_equal_false, sum_stats_cost.
  by destruct (sum_stats_tokens d) as (-> & -> & ->).
Qed.

(** C4. After any sequence of [add_usage] calls on a fresh [Metrics],
    [totals.total_tokens] is the sum of [total_tokens] over the entries of
    [by_region] and over the entries of [by_identity]. The verification node
    recomputes the sums of both dimensions (input, output, their sum as the
    total, and the costs added up from [0.0] in iteration order) and
    compares them with [totals]; it is a total function on the warnings.
    The name ["by_region_mismatch"] is in [verification_errors] afterwards
    exactly when it was there before or [totals] differs from the region
    sums in the input count, in the output count or in the total count, or
    its cost is not within [0.0001] of the summed cost; likewise
    ["by_identity_mismatch"] for the identity sums. Nothing is removed and
    no other warning field changes. After such a sequence of calls the
    three integer comparisons of the check agree for both dimensions, and a
    [totals] whose total is off by one from the region sums is recorded. *)
Theorem add_usage_totals_match_dimensions (calls : list usage_call) :
  let m := add_usages calls in
  (total_tokens (totals m) = sum_of total_tokens (by_region m) /\
   total_tokens (totals m) = sum_of total_tokens (by_identity m)) /\
  (token_counts (totals m) = token_counts (Workflow._sum_stats (by_region m)) /\
   token_counts (totals m) = token_counts (Workflow._sum_stats (by_identity m))) /\
  (forall (m0 : Metrics) (w : Warnings),
     let w' := Workflow.verify_results_node m0 w in
     (forall name,
        name ∈ verification_errors w' <->
        name ∈ verification_errors w \/
        (name = "by_region_mismatch"%string /\
         (input_tokens (totals m0) <> sum_of input_tokens (by_region m0) \/
          output_tokens (totals m0) <> sum_of output_tokens (by_region m0) \/
          total_tokens (totals m0)
            <> sum_of input_tokens (by_region m0) + sum_of output_tokens (by_region m0) \/
          (abs (cost_usd (totals m0) - fsum (map cost_usd (od_values (by_region m0))))
             <? 0.0001)%float = false)) \/
        (name = "by_identity_mismatch"%string /\
         (input_tokens (totals m0) <> sum_of input_tokens (by_identity m0) \/
          output_tokens (totals m0) <> sum_of output_tokens (by_identity m0) \/
          total_tokens (totals m0)
            <> sum_of input_tokens (by_identity m0) + sum_of output_tokens (by_identity m0) \/
          (abs (cost_usd (totals m0) - fsum (map cost_usd (od_values (by_identity m0))))
             <? 0.0001)%float = false))) /\
     unpriced_models w' = unpriced_models w /\
     partial_pricing_models w' = partial_pricing_models w /\
     missing_token_counts w' = missing_token_counts w /\
     records_skipped w' = records_skipped w /\
     input_tokens (Workflow._sum_stats (by_region m0)) = sum_of input_tokens (by_region m0) /\
     output_tokens (Workflow._sum_stats (by_region m0)) = sum_of output_tokens (by_region m0) /\
     total_tokens (Workflow._sum_stats (by_region m0)) =
       sum_of input_tokens (by_region m0) + sum_of output_tokens (by_region m0) /\
     input_tokens (Workflow._sum_stats (by_identity m0)) = sum_of input_tokens (by_identity m0) /\
     output_tokens (Workflow._sum_stats (by_identity m0)) = sum_of output_tokens (by_identity m0) /\
     total_tokens (Workflow._sum_stats (by_identity m0)) =
       sum_of input_tokens (by_identity m0) + sum_of output_tokens (by_identity m0)) /\
  (forall (w : Warnings) (ident : string) (st : TokenStats),
     let off_by_one :=
       mkMetrics (mkTokenStats (input_tokens st) (output_tokens st)
                    (input_tokens st + output_tokens st + 1) (cost_usd st))
         [("us-east-1"%string, st)] [(ident, st)] [] [] [] in
     forall name,
       name ∈ verification_errors (Workflow.verify_results_node off_by_one w) <->
       name ∈ verification_errors w \/ name = "by_region_mismatch"%string \/
       name = "by_identity_mismatch"%string).
Proof.
  intros m.
  assert (Hagg : aggregated m).
  { apply aggregated_add_usages_from, aggregated_empty. }
  destruct Hagg as ((Hri & Hro & Hrt) & (Hii & Hio & Hit) & _ & _ & Hc).
  split; [split; assumption|]. split; [|split].
  - unfold token_counts.
    destruct (sum_stats_tokens (by_region m)) as (-> & -> & ->).
    destruct (sum_stats_tokens (by_identity m)) as (-> & -> & ->).
    unfold consistent in Hc.
    split; (f_equal; [f_equal|]); lia.
  - intros m0 w w'.
    split.
    { intros name. subst w'. rewrite verify_results_errors, !verify_results_mismatch.
      done. }
    destruct (verify_results_fields m0 w) as (? & ? & ? & ?).
    destruct (sum_stats_tokens (by_region m0)) as (? & ? & ?).
    destruct (sum_stats_tokens (by_identity m0)) as (? & ? & ?).
    repeat split; assumption.
  - intros w ident st off_by_one name.
    rewrite verify_results_errors, !verify_results_mismatch.
    subst off_by_one. unfold sum_of. cbn.
    split; (intros [?|[?|?]]; [by left|right; left|right; right]);
      try tauto; (split; [tauto|right; right; left; lia]).
Qed.

(** ** Merging *)

Lemma merge_stats_drop_cost {K} `{EqDecision K} (g : TokenStats -> TokenStats)
    (self other : list (K * TokenStats)) :
  (forall s, input_tokens (g s) = input_tokens s /\ output_tokens (g s) = output_tokens s) ->
  merge_stats self (od_map_values g other) = merge_stats self other.
Proof.
  intros Hg. unfold merge_stats, od_map_values. revert self.
  induction other as [|[k v] other IH]; intros self; simpl; [done|].
  destruct (Hg v) as [-> ->]. apply IH.
Qed.

Lemma merge_drop_costs (a b : Metrics) : merge a (drop_costs b) = merge a b.
Proof.
  unfold merge, drop_costs; simpl.
  rewrite !merge_stats_drop_cost by done. done.
Qed.

(** C3, as amended: when the [totals] of both operands are consistent
    ([total_tokens] is the sum of the two counts), merging in either order
    gives the same three token counts in [totals]; the input and output
    counts commute for all operands. Merging an empty [Metrics] leaves the
    token counts of [totals] and every dimension map unchanged. The costs of
    the incoming operand are never read: merging it is merging its copy with
    all costs zeroed, and the cost of [totals] becomes the receiver's cost
    plus [0.0]. The [totals] built by [add_usage] calls on a fresh [Metrics]
    are consistent, and [merge] keeps the receiver's [totals] consistent.
    Merging the 560,183-token snapshot into the run that ingested 90,000
    tokens gives a total of 650,183. *)
Theorem merge_totals_commute (a b : Metrics)
    (Ha : consistent (totals a)) (Hb : consistent (totals b)) :
  token_counts (totals (merge a b)) = token_counts (totals (merge b a)) /\
  (forall x y : Metrics,
     input_tokens (totals (merge x y)) = input_tokens (totals (merge y x)) /\
     output_tokens (totals (merge x y)) = output_tokens (totals (merge y x))) /\
  (forall x : Metrics,
     token_counts (totals (merge x Metrics0)) = token_counts (totals x) /\
     by_region (merge x Metrics0) = by_region x /\
     by_identity (merge x Metrics0) = by_identity x /\
     by_model (merge x Metrics0) = by_model x /\
     by_usage_key (merge x Metrics0) = by_usage_key x /\
     model_id_map (merge x Metrics0) = model_id_map x) /\
  (forall x y : Metrics,
     merge x y = merge x (drop_costs y) /\
     cost_usd (totals (merge x y)) = (cost_usd (totals x) + 0)%float) /\
  (forall calls : list usage_call, consistent (totals (add_usages calls))) /\
  (forall x y : Metrics, consistent (totals x) -> consistent (totals (merge x y))) /\
  total_tokens (totals Examples.run1_metrics) = 560183 /\
  total_tokens (totals Examples.run2_new) = 90000 /\
  total_tokens (totals (merge Examples.run2_new Examples.run1_metrics)) = 650183.
Proof.
  split; [|split; [|split; [|split; [|split; [|split]]]]].
  - unfold consistent, token_counts in *; simpl. f_equal; [f_equal|]; lia.
  - intros x y. simpl. lia.
  - intros x. unfold token_counts; simpl. repeat split. f_equal; [f_equal|]; lia.
  - intros x y. split; [by rewrite merge_drop_costs|done].
  - intros calls.
    destruct (aggregated_add_usages_from Metrics0 calls aggregated_empty) as (_ & _ & _ & _ & H).
    exact H.
  - intros x y. unfold consistent; simpl. lia.
  - repeat split.
Qed.

Lemma merge_totals_commute_witness :
  consistent (totals Examples.run2_new) /\ consistent (totals Examples.run1_metrics) /\
  token_counts (totals (merge Examples.run2_new Examples.run1_metrics)) =
  token_counts (totals (merge Examples.run1_metrics Examples.run2_new)).
Proof.
  split; [reflexivity|]. split; [reflexivity|].
  exact (proj1 (merge_totals_commute Examples.run2_new Examples.run1_metrics eq_refl eq_refl)).
Defined.

(** C3 as stated fails: the [Metrics] read from a snapshot whose [totals]
    record [total_tokens = 5] with both counts zero merges to a total of 5
    as the receiver and to a total of 0 as the incoming operand. *)
Lemma merge_totals_commute_counterexample :
  ReportStore.load_metrics_from_snapshot Examples.skewed_snapshot
    = Ok (Some Examples.skewed_metrics) /\
  token_counts (totals (merge Examples.skewed_metrics Metrics0)) = (0, 0, 5) /\
  token_counts (totals (merge Metrics0 Examples.skewed_metrics)) = (0, 0, 0) /\
  ~ (forall a b : Metrics,
       token_counts (totals (merge a b)) = token_counts (totals (merge b a))).
Proof.
  split; [reflexivity|]. split; [reflexivity|]. split; [reflexivity|].
  intros H. specialize (H Examples.skewed_metrics Metrics0). discriminate H.
Qed.

(** ** Strings *)

Section string_facts.
Import PyStr.
Local Open Scope string_scope.

Lemma app_nil_str (b : string) : "" +:+ b = b.
Proof. reflexivity. Qed.

Lemma app_cons_str (x : ascii) (a b : string) : String x a +:+ b = String x (a +:+ b).
Proof. reflexivity. Qed.

Lemma app_assoc_str (a b c : string) : (a +:+ b) +:+ c = a +:+ (b +:+ c).
Proof. induction a as [|x a IH]; [done|]. rewrite !app_cons_str. by rewrite IH. Qed.

Lemma length_app_str (a b : string) :
  String.length (a +:+ b) = (String.length a + String.length b)%nat.
Proof.
  induction a as [|x a IH]; [done|]. rewrite app_cons_str. simpl. by rewrite IH.
Qed.

Lemma startswith_inv (p s : string) :
  startswith p s = true -> s = p +:+ drop (String.length p) s.
Proof.
  revert s. induction p as [|a p IH]; intros s; [done|].
  destruct s as [|b s]; [done|].
  cbn [startswith String.length drop]. rewrite app_cons_str.
  destruct (decide (a = b)) as [->|]; [|done].
  intros H. f_equal. apply IH, H.
Qed.

Lemma lacks_app (c : ascii) (a b : string) :
  lacks c (a +:+ b) = lacks c a && lacks c b.
Proof.
  induction a as [|x a IH]; [done|].
  rewrite app_cons_str. cbn [lacks].
  destruct (decide (x = c)); [done|apply IH].
Qed.

Lemma cut_app (c : ascii) (a b : string) :
  lacks c a = true -> cut c (a +:+ String c b) = Some (a, b).
Proof.
  induction a as [|x a IH].
  - intros _. rewrite app_nil_str. cbn [cut]. by rewrite decide_True.
  - rewrite app_cons_str. cbn [lacks cut].
    destruct (decide (x = c)); [done|]. intros H. by rewrite IH.
Qed.

Lemma after_first_app (c : ascii) (a b : string) :
  lacks c a = true -> after_first c (a +:+ String c b) = Some b.
Proof.
  induction a as [|x a IH].
  - intros _. rewrite app_nil_str. cbn [after_first]. by rewrite decide_True.
  - rewrite app_cons_str. cbn [lacks after_first].
    destruct (decide (x = c)); [done|]. apply IH.
Qed.

Lemma before_last_app (c : ascii) (a b : string) :
  lacks c a = true ->
  before_last c (a +:+ b) = (fun p => a +:+ p) <$> before_last c b.
Proof.
  induction a as [|x a IH].
  - intros _. rewrite app_nil_str. destruct (before_last c b); done.
  - rewrite app_cons_str. cbn [lacks before_last].
    destruct (decide (x = c)); [done|]. intros H. rewrite (IH H).
    destruct (before_last c b); done.
Qed.

Lemma strip_after_last_app (c : ascii) (a b : string) :
  lacks c a = true ->
  strip_after_last c (a +:+ b) = a +:+ strip_after_last c b.
Proof.
  intros H. unfold strip_after_last. rewrite (before_last_app c a b H).
  destruct (before_last c b); done.
Qed.

Lemma lacks_before_last (c : ascii) (s : string) :
  lacks c s = true -> before_last c s = None.
Proof.
  induction s as [|x s IH]; [done|]. cbn [lacks before_last].
  destruct (decide (x = c)); [done|]. intros H. by rewrite (IH H).
Qed.

Lemma line_prefix_single (s : string) :
  lacks Parser.newline s = true -> Parser.line_prefix s = (s, EmptyString).
Proof.
  induction s as [|x s IH]; [done|]. cbn [lacks Parser.line_prefix].
  destruct (decide (x = Parser.newline)); [done|].
  intros H. by rewrite (IH H).
Qed.

Lemma match_rest_single (s : string) :
  profile_name s -> Parser.match_rest s = Some s.
Proof.
  intros [Hne Hl]. unfold Parser.match_rest. rewrite (line_prefix_single s Hl).
  destruct s; [done|]. by rewrite decide_True.
Qed.

(** The first occurrence of the marker in a text whose head has no [/]
    is the one right after that head. *)
Lemma split_once_marker (head tail : string) :
  lacks "/" head = true ->
  split_once "inference-profile/" (head +:+ "inference-profile/" +:+ tail)
  = Some (head, tail).
Proof.
  induction head as [|x head IH]; intros Hl.
  - reflexivity.
  - cbn [lacks] in Hl. destruct (decide (x = "/"%char)) as [|Hx]; [done|].
    assert (Hno : startswith "inference-profile/"
                    (String x head +:+ "inference-profile/" +:+ tail) = false).
    { destruct (startswith _ _) eqn:E; [|done]. exfalso.
      apply startswith_inv in E.
      assert (Haf : after_first "/"
                      (String x head +:+ "inference-profile/" +:+ tail) = Some tail).
      { change ("inference-profile/" +:+ tail)
          with ("inference-profile" +:+ String "/" tail).
        rewrite <- app_assoc_str. apply after_first_app.
        rewrite lacks_app. cbn [lacks]. rewrite decide_False by done.
        rewrite Hl. done. }
      remember (String x head +:+ "inference-profile/" +:+ tail) as X eqn:HX.
      remember (drop (String.length "inference-profile/") X) as Y eqn:HY.
      rewrite E in Haf.
      change (after_first "/" ("inference-profile/" +:+ Y)) with (Some Y) in Haf.
      injection Haf as ->.
      apply (f_equal String.length) in E. rewrite HX in E.
      rewrite !length_app_str in E. cbn [String.length] in E. lia. }
    rewrite (app_cons_str x head) in Hno |- *.
    cbn [split_once]. rewrite Hno, (IH Hl). done.
Qed.
End string_facts.
Section profile_facts.
Import PyStr.
Local Open Scope string_scope.

Lemma scope_cases (s : string) :
  s ∈ Parser.profile_scopes -> s = "us" \/ s = "eu" \/ s = "global" \/ s = "apac".
Proof.
  unfold Parser.profile_scopes. rewrite !elem_of_cons, elem_of_nil. tauto.
Qed.

Lemma match_scope_profile (s n : string) :
  s ∈ Parser.profile_scopes ->
  Parser.match_scope Parser.profile_scopes (s +:+ "." +:+ n) = Some (s, n).
Proof.
  intros [->|[->|[->| ->]]]%scope_cases; reflexivity.
Qed.

Lemma scope_lacks_colon (s : string) :
  s ∈ Parser.profile_scopes -> lacks ":" (s +:+ ".") = true.
Proof.
  intros [->|[->|[->| ->]]]%scope_cases; reflexivity.
Qed.

Lemma scoped_names_differ (s1 s2 x y : string) :
  s1 ∈ Parser.profile_scopes -> s2 ∈ Parser.profile_scopes -> s1 <> s2 ->
  s1 +:+ "." +:+ x <> s2 +:+ "." +:+ y.
Proof.
  intros [->|[->|[->| ->]]]%scope_cases [->|[->|[->| ->]]]%scope_cases Hne;
    try done; intros H; discriminate H.
Qed.

Lemma match_profile_arn (r a s n : string) :
  s ∈ Parser.profile_scopes -> arn_field r -> arn_field a -> profile_name n ->
  Parser.match_inference_profile (profile_arn r a s n) = Some (s +:+ "." +:+ n).
Proof.
  intros Hs (Hr1 & Hr2 & _) (Ha1 & Ha2 & _) Hn.
  unfold Parser.match_inference_profile, profile_arn.
  change (startswith "arn:aws:bedrock:" ("arn:aws:bedrock:" +:+ ?x)) with true.
  cbv iota.
  change (drop 16 ("arn:aws:bedrock:" +:+ ?x)) with x.
  change (":" +:+ a +:+ ":inference-profile/" +:+ s +:+ "." +:+ n)
    with (String ":" (a +:+ String ":" ("inference-profile/" +:+ s +:+ "." +:+ n))).
  rewrite (cut_app ":" r _ Hr2), (cut_app ":" a _ Ha2), Hr1, Ha1.
  change (startswith "inference-profile/" ("inference-profile/" +:+ ?x)) with true.
  cbv iota beta. simpl andb. cbv iota.
  change (drop 18 ("inference-profile/" +:+ ?x)) with x.
  rewrite (match_scope_profile s n Hs), (match_rest_single n Hn). done.
Qed.
End profile_facts.
Section scope_preservation.
Import PyStr.
Local Open Scope string_scope.

Lemma normalize_profile_arn (r a s n : string) :
  s ∈ Parser.profile_scopes -> arn_field r -> arn_field a -> profile_name n ->
  Parser.normalize_model_id (profile_arn r a s n)
  = s +:+ "." +:+ strip_after_last ":" n.
Proof.
  intros Hs Hr Ha Hn. unfold Parser.normalize_model_id.
  rewrite (match_profile_arn r a s n Hs Hr Ha Hn).
  rewrite <- (app_assoc_str s "." n), <- (app_assoc_str s "." (strip_after_last ":" n)).
  apply strip_after_last_app, scope_lacks_colon, Hs.
Qed.

Lemma pricing_key_profile_arn (r a s n : string) :
  s ∈ Parser.profile_scopes -> arn_field r -> arn_field a ->
  Pricing.get_pricing_model_key (profile_arn r a s n)
  = s +:+ "." +:+ strip_after_last ":" n.
Proof.
  intros Hs (_ & _ & Hr) (_ & _ & Ha). unfold Pricing.get_pricing_model_key.
  assert (Hsplit : profile_arn r a s n
            = ("arn:aws:bedrock:" +:+ r +:+ ":" +:+ a +:+ ":")
              +:+ "inference-profile/" +:+ (s +:+ "." +:+ n)).
  { unfold profile_arn. rewrite !app_assoc_str. reflexivity. }
  rewrite Hsplit, split_once_marker.
  - rewrite <- (app_assoc_str s "." n), <- (app_assoc_str s "." (strip_after_last ":" n)).
    apply strip_after_last_app, scope_lacks_colon, Hs.
  - rewrite !lacks_app, Hr, Ha. reflexivity.
Qed.

Lemma normalize_bare_profile (s n : string) :
  s ∈ Parser.profile_scopes ->
  Parser.normalize_model_id (s +:+ "." +:+ n) = s +:+ "." +:+ strip_after_last ":" n.
Proof.
  intros Hs. unfold Parser.normalize_model_id.
  assert (Parser.match_inference_profile (s +:+ "." +:+ n) = None) as ->.
  { apply scope_cases in Hs as [->|[->|[->| ->]]]; reflexivity. }
  rewrite <- (app_assoc_str s "." n), <- (app_assoc_str s "." (strip_after_last ":" n)).
  apply strip_after_last_app, scope_lacks_colon, Hs.
Qed.

Lemma lacks_after_last (c : ascii) (s : string) :
  lacks c s = true -> after_last c s = None.
Proof.
  induction s as [|x s IH]; [done|]. cbn [lacks after_last].
  destruct (decide (x = c)); [done|]. intros H. by rewrite (IH H).
Qed.

Lemma lacks_split_once_marker (s : string) :
  lacks "/" s = true -> split_once "inference-profile/" s = None.
Proof.
  induction s as [|x s IH]; [done|]. intros Hl.
  assert (Hno : startswith "inference-profile/" (String x s) = false).
  { destruct (startswith _ _) eqn:E; [|done].
    apply startswith_inv in E. rewrite E in Hl.
    change ("inference-profile/" +:+ ?y) with ("inference-profile" +:+ String "/" y) in Hl.
    rewrite lacks_app in Hl. cbn [lacks] in Hl. rewrite decide_True in Hl by done.
    by rewrite andb_false_r in Hl. }
  cbn [split_once]. rewrite Hno.
  cbn [lacks] in Hl. destruct (decide (x = "/"%char)); [done|].
  by rewrite (IH Hl).
Qed.

Lemma pricing_key_bare_profile (s n : string) :
  s ∈ Parser.profile_scopes -> lacks "/" n = true ->
  Pricing.get_pricing_model_key (s +:+ "." +:+ n) = s +:+ "." +:+ strip_after_last ":" n.
Proof.
  intros Hs Hn. unfold Pricing.get_pricing_model_key.
  assert (Hl : lacks "/" (s +:+ "." +:+ n) = true).
  { rewrite <- app_assoc_str, lacks_app, Hn.
    apply scope_cases in Hs as [->|[->|[->| ->]]]; reflexivity. }
  rewrite (lacks_split_once_marker _ Hl). unfold Pricing.normalize_model_id.
  assert (startswith "arn:" (s +:+ "." +:+ n) = false) as ->.
  { apply scope_cases in Hs as [->|[->|[->| ->]]]; reflexivity. }
  rewrite (lacks_after_last _ _ Hl).
  rewrite <- (app_assoc_str s "." n), <- (app_assoc_str s "." (strip_after_last ":" n)).
  apply strip_after_last_app, scope_lacks_colon, Hs.
Qed.

(** C5. For two inference-profile ARNs that differ only in the scope
    ([us], [eu], [global] or [apac]), with region and account fields free
    of [:] and [/] and a non-empty single-line profile name: the parser's
    normalized key is the scope, a dot, and the name without its trailing
    [:version]; so is the pricing key; the two normalized keys differ and
    the two pricing keys differ; a price table can give the two
    identifiers different rates; and usage recorded under the two
    normalized keys lands in two separate [by_model] entries. The same
    holds of the bare profile identifiers [scope.name] when the name has
    no [/]. *)
Theorem scope_prefix_preserved (r a s1 s2 n : string)
    (Hs1 : s1 ∈ Parser.profile_scopes) (Hs2 : s2 ∈ Parser.profile_scopes)
    (Hne : s1 <> s2)
    (Hr : arn_field r) (Ha : arn_field a) (Hn : profile_name n) :
  let id1 := profile_arn r a s1 n in
  let id2 := profile_arn r a s2 n in
  let k1 := Parser.normalize_model_id id1 in
  let k2 := Parser.normalize_model_id id2 in
  k1 = s1 +:+ "." +:+ strip_after_last ":" n /\
  k2 = s2 +:+ "." +:+ strip_after_last ":" n /\
  k1 <> k2 /\
  Pricing.get_pricing_model_key id1 = k1 /\
  Pricing.get_pricing_model_key id2 = k2 /\
  Pricing.get_pricing_model_key id1 <> Pricing.get_pricing_model_key id2 /\
  (forall (rate1 rate2 : PriceRate) (region : string),
     exists rates : Pricing.rate_table,
       Pricing.get_rate rates id1 region = Some rate1 /\
       Pricing.get_rate rates id2 region = Some rate2) /\
  (forall (m : Metrics) region ident i1 o1 i2 o2,
     od_mem k1 (by_model m) = false -> od_mem k2 (by_model m) = false ->
     let m' := add_usage (add_usage m region ident k1 i1 o1 0%float (Some id1))
                 region ident k2 i2 o2 0%float (Some id2) in
     token_counts <$> od_get k1 (by_model m') = Some (i1, o1, i1 + o1)%Z /\
     token_counts <$> od_get k2 (by_model m') = Some (i2, o2, i2 + o2)%Z) /\
  (Parser.normalize_model_id (s1 +:+ "." +:+ n)
     <> Parser.normalize_model_id (s2 +:+ "." +:+ n) /\
   (lacks "/" n = true ->
    Pricing.get_pricing_model_key (s1 +:+ "." +:+ n)
      <> Pricing.get_pricing_model_key (s2 +:+ "." +:+ n))).
Proof.
  intros id1 id2 k1 k2.
  assert (E1 : k1 = s1 +:+ "." +:+ strip_after_last ":" n)
    by (apply normalize_profile_arn; assumption).
  assert (E2 : k2 = s2 +:+ "." +:+ strip_after_last ":" n)
    by (apply normalize_profile_arn; assumption).
  assert (P1 : Pricing.get_pricing_model_key id1 = k1).
  { rewrite E1. apply pricing_key_profile_arn; assumption. }
  assert (P2 : Pricing.get_pricing_model_key id2 = k2).
  { rewrite E2. apply pricing_key_profile_arn; assumption. }
  assert (D : k1 <> k2).
  { rewrite E1, E2. apply scoped_names_differ; assumption. }
  split; [exact E1|]. split; [exact E2|]. split; [exact D|].
  split; [exact P1|]. split; [exact P2|].
  split; [by rewrite P1, P2|]. split; [|split].
  - intros rate1 rate2 region.
    exists (<[k1 := {[ "default" := rate1 ]}]> {[ k2 := {[ "default" := rate2 ]} ]}).
    unfold Pricing.get_rate. rewrite P1, P2.
    split.
    + rewrite lookup_insert_eq.
      destruct (decide (region = "default")) as [->|Hd].
      * by rewrite lookup_singleton_eq.
      * rewrite lookup_singleton_ne by done. by rewrite lookup_singleton_eq.
    + rewrite lookup_insert_ne by done. rewrite lookup_singleton_eq.
      destruct (decide (region = "default")) as [->|Hd].
      * by rewrite lookup_singleton_eq.
      * rewrite lookup_singleton_ne by done. by rewrite lookup_singleton_eq.
  - intros m region ident i1 o1 i2 o2 M1 M2 m'. subst m'. simpl.
    unfold od_mem in M1, M2.
    destruct (od_get k1 (by_model m)) eqn:G1; [done|].
    destruct (od_get k2 (by_model m)) eqn:G2; [done|].
    rewrite od_get_upsert_ne by (intros ?; by apply D).
    rewrite !od_get_upsert_eq.
    rewrite od_get_upsert_ne by done.
    rewrite G1, G2. simpl. unfold token_counts. simpl.
    split; do 2 f_equal.
  - split.
    + rewrite !normalize_bare_profile by assumption.
      apply scoped_names_differ; assumption.
    + intros Hl. rewrite !pricing_key_bare_profile by assumption.
      apply scoped_names_differ; assumption.
Qed.

Lemma scope_prefix_preserved_witness :
  Parser.normalize_model_id
    "arn:aws:bedrock:us-east-2:992382809180:inference-profile/us.anthropic.claude-opus-4-5-20251101-v1:0"
  = "us.anthropic.claude-opus-4-5-20251101-v1" /\
  Parser.normalize_model_id
    "arn:aws:bedrock:us-east-2:992382809180:inference-profile/global.anthropic.claude-opus-4-5-20251101-v1:0"
  = "global.anthropic.claude-opus-4-5-20251101-v1".
Proof.
  pose proof (scope_prefix_preserved "us-east-2" "992382809180" "us" "global"
                "anthropic.claude-opus-4-5-20251101-v1:0"
                ltac:(repeat constructor) ltac:(repeat constructor) ltac:(discriminate)
                ltac:(repeat split) ltac:(repeat split) ltac:(repeat split))
    as (H1 & H2 & _).
  split; [exact H1|exact H2].
Defined.

(** C5 as stated fails: the pattern of the parser lists the scopes [us],
    [eu], [global] and [apac] only. Two inference-profile ARNs that differ
    only in the scope, [ca] against [sa] (both among the scopes the pricing
    module names), logged without a [:version], are both cut at their last
    [:], which leaves the same text for the two: their usage is aggregated
    into one [by_model] entry, while their pricing keys differ. *)
Lemma scope_prefix_preserved_counterexample :
  ("ca" ∈ Pricing._KNOWN_SCOPES /\ "sa" ∈ Pricing._KNOWN_SCOPES) /\
  Parser.normalize_model_id ScopeExamples.canada_profile
    = "arn:aws:bedrock:us-east-1:123456789012" /\
  Parser.normalize_model_id ScopeExamples.south_america_profile
    = "arn:aws:bedrock:us-east-1:123456789012" /\
  Pricing.get_pricing_model_key ScopeExamples.canada_profile = "ca.anthropic.claude-v2" /\
  Pricing.get_pricing_model_key ScopeExamples.south_america_profile
    = "sa.anthropic.claude-v2" /\
  token_view (by_model ScopeExamples.both_profiles)
    = [("arn:aws:bedrock:us-east-1:123456789012", (30, 12, 42)%Z)] /\
  model_id_map ScopeExamples.both_profiles
    = [("arn:aws:bedrock:us-east-1:123456789012", ScopeExamples.canada_profile)] /\
  ~ (forall r a s1 s2 n : string,
       s1 ∈ Pricing._KNOWN_SCOPES -> s2 ∈ Pricing._KNOWN_SCOPES -> s1 <> s2 ->
       arn_field r -> arn_field a -> profile_name n ->
       Parser.normalize_model_id (profile_arn r a s1 n)
         <> Parser.normalize_model_id (profile_arn r a s2 n)).
Proof.
  assert (Hca : "ca" ∈ Pricing._KNOWN_SCOPES) by (by repeat constructor).
  assert (Hsa : "sa" ∈ Pricing._KNOWN_SCOPES) by (by repeat constructor).
  split; [done|]. do 6 (split; [vm_compute; reflexivity|]).
  intros H.
  apply (H "us-east-1" "123456789012" "ca" "sa" "anthropic.claude-v2" Hca Hsa);
    [discriminate|repeat split..|vm_compute; reflexivity].
Qed.
End scope_preservation.

(** ** Rate lookup *)

(** C6. [get_rate] looks the pricing key of the identifier up in the table
    and nowhere else: a rate for the region under that key is returned; else
    the ["default"] rate under that key; else nothing. A rate returned is
    always one stored under that very key, the result depends on no other
    entry of the table, and a key absent from the table gives no rate: the
    newer version of a model the table holds in an older version is not
    priced. *)
Theorem get_rate_exact_lookup (rates : Pricing.rate_table) (model_id region : string) :
  let pricing_key := Pricing.get_pricing_model_key model_id in
  (forall model_rates rate,
     rates !! pricing_key = Some model_rates -> model_rates !! region = Some rate ->
     Pricing.get_rate rates model_id region = Some rate) /\
  (forall model_rates,
     rates !! pricing_key = Some model_rates -> model_rates !! region = None ->
     Pricing.get_rate rates model_id region = model_rates !! "default"%string) /\
  (rates !! pricing_key = None -> Pricing.get_rate rates model_id region = None) /\
  (forall rate,
     Pricing.get_rate rates model_id region = Some rate ->
     exists model_rates,
       rates !! pricing_key = Some model_rates /\
       (model_rates !! region = Some rate \/
        (model_rates !! region = None /\ model_rates !! "default"%string = Some rate))) /\
  (forall rates' : Pricing.rate_table,
     rates' !! pricing_key = rates !! pricing_key ->
     Pricing.get_rate rates' model_id region = Pricing.get_rate rates model_id region) /\
  Pricing.get_rate Examples.override_table "anthropic.claude-opus-4-5-20251101-v1:0" "us-west-2"
    = Some (PriceRate_of 0.006 0.018) /\
  Pricing.get_rate Examples.override_table "anthropic.claude-opus-4-5-20251101-v1:0" "us-east-2"
    = Some (PriceRate_of 0.005 0.015) /\
  Pricing.get_rate Examples.haiku_table "global.anthropic.claude-haiku-4-5-20251001-v1:0" "us-east-2"
    = None.
Proof.
  intros pricing_key. unfold Pricing.get_rate. fold pricing_key.
  repeat split.
  - intros model_rates rate -> ->. done.
  - intros model_rates -> ->. done.
  - intros ->. done.
  - intros rate. destruct (rates !! pricing_key) as [model_rates|]; [|done].
    destruct (model_rates !! region) as [rate'|] eqn:E.
    + intros [= ->]. eauto.
    + intros H. eauto.
  - intros rates' ->. done.
Qed.

(** ** Pricing *)

Lemma set_cost_add_cost (c c' : float) (s : TokenStats) :
  set_cost c (add_cost c' s) = set_cost c s.
Proof. reflexivity. Qed.

Lemma or_raise_Ok {A} (e : exn) (x : option A) (a : A) :
  or_raise e x = Ok a -> x = Some a.
Proof. destruct x; simpl; congruence. Qed.

(** One dimension across one pricing step. *)
Lemma od_get_add_cost (k r : string) (c : float) (d d' : list (string * TokenStats)) :
  od_update k (add_cost c) d = Some d' ->
  od_get r d' = (if decide (r = k) then add_cost c else id) <$> od_get r d.
Proof.
  intros H. rewrite (od_get_update _ _ _ _ _ H).
  destruct (decide (r = k)); [done|]. by destruct (od_get r d).
Qed.

Lemma rolled_nil proj d : rolled proj [] d d.
Proof. intros r. destruct (od_get r d) as [[]|]; done. Qed.

Lemma rolled_step proj k stats' priced cost (d0 d1 d2 : list (string * TokenStats)) :
  cost_usd stats' = cost ->
  od_update (proj k) (add_cost cost) d0 = Some d1 ->
  rolled proj priced d1 d2 ->
  rolled proj ((k, stats') :: priced) d0 d2.
Proof.
  intros Hc Hup Hroll r. rewrite (Hroll r), (od_get_add_cost _ _ _ _ _ Hup).
  unfold costs_onto. rewrite filter_cons. simpl.
  destruct (decide (proj k = r)) as [<-|Hne].
  - rewrite decide_True by done. destruct (od_get (proj k) d0) as [st|]; [|done].
    simpl. rewrite Hc. done.
  - rewrite decide_False by congruence. destruct (od_get r d0) as [st|]; done.
Qed.

Lemma price_entries_spec pricing idmap entries acc priced acc' :
  price_entries pricing idmap entries acc = Ok (priced, acc') ->
  Forall2 (priced_as pricing idmap) entries priced /\
  token_counts (r_totals acc') = token_counts (r_totals acc) /\
  cost_usd (r_totals acc')
  = foldl PrimFloat.add (cost_usd (r_totals acc)) (map (fun kv => cost_usd (snd kv)) priced) /\
  rolled key_region priced (r_by_region acc) (r_by_region acc') /\
  rolled key_identity priced (r_by_identity acc) (r_by_identity acc') /\
  rolled key_model priced (r_by_model acc) (r_by_model acc').
Proof.
  revert acc priced acc'.
  induction entries as [|[[[region ident] model_id] stats] entries IH];
    intros acc priced acc'; simpl.
  - intros [= <- <-]. split; [constructor|]. repeat split; try apply rolled_nil.
  - unfold rate_of, mbind, outcome_bind.
    destruct (compute_cost _ _ _) as [cost|] eqn:Hcost; [|done].
    destruct (or_raise KeyError (od_update region _ _)) as [br|] eqn:Hbr; [|done].
    destruct (or_raise KeyError (od_update ident _ _)) as [bi|] eqn:Hbi; [|done].
    destruct (or_raise KeyError (od_update model_id _ _)) as [bm|] eqn:Hbm; [|done].
    apply or_raise_Ok in Hbr, Hbi, Hbm.
    destruct (price_entries _ _ entries _) as [[rest' acc1]|] eqn:Hrest; [|done].
    intros [= <- <-].
    destruct (IH _ _ _ Hrest) as (HF & Ht & Hc & Hr & Hi & Hm). simpl in *.
    split; [|split; [|split; [|split; [|split]]]].
    + constructor; [|exact HF]. unfold priced_as; simpl.
      split; [done|]. split; [done|].
      unfold key_model, key_region; simpl.
      unfold compute_cost in Hcost.
      destruct (pricing _ region) as [rate|]; [|by injection Hcost as <-].
      unfold mbind, outcome_bind in Hcost.
      destruct (float_of_int (input_tokens stats)) as [i|]; [|done].
      destruct (float_of_int (output_tokens stats)) as [o|]; [|done].
      injection Hcost as <-. eauto.
    + rewrite Ht. done.
    + rewrite Hc. done.
    + eapply (rolled_step key_region (region, ident, model_id)); [..|exact Hr]; done.
    + eapply (rolled_step key_identity (region, ident, model_id)); [..|exact Hi]; done.
    + eapply (rolled_step key_model (region, ident, model_id)); [..|exact Hm]; done.
Qed.

Lemma note_rate_fields model_id rate w :
  missing_token_counts (note_rate model_id rate w) = missing_token_counts w /\
  records_skipped (note_rate model_id rate w) = records_skipped w /\
  verification_errors (note_rate model_id rate w) = verification_errors w.
Proof.
  destruct rate as [r|]; simpl; [|done].
  destruct (missing_input r || missing_output r); done.
Qed.

Lemma price_entries_warnings pricing idmap entries acc priced acc' :
  price_entries pricing idmap entries acc = Ok (priced, acc') ->
  (forall x,
     x ∈ unpriced_models (r_warnings acc') <->
     x ∈ unpriced_models (r_warnings acc) \/
     exists kv, kv ∈ entries /\ key_model (fst kv) = x /\
                rate_of pricing idmap (fst kv) = None) /\
  (forall x,
     x ∈ partial_pricing_models (r_warnings acc') <->
     x ∈ partial_pricing_models (r_warnings acc) \/
     exists kv rate, kv ∈ entries /\ key_model (fst kv) = x /\
                     rate_of pricing idmap (fst kv) = Some rate /\
                     missing_input rate || missing_output rate = true) /\
  missing_token_counts (r_warnings acc') = missing_token_counts (r_warnings acc) /\
  records_skipped (r_warnings acc') = records_skipped (r_warnings acc) /\
  verification_errors (r_warnings acc') = verification_errors (r_warnings acc).
Proof.
  revert acc priced acc'.
  induction entries as [|[[[region ident] model_id] stats] entries IH];
    intros acc priced acc'; cbn [price_entries].
  - intros [= <- <-]. repeat split; try tauto.
    + intros [?|(kv & []%elem_of_nil & _)]; done.
    + intros [?|(kv & rate & []%elem_of_nil & _)]; done.
  - remember (rate_of pricing idmap (region, ident, model_id)) as rate eqn:Hrate.
    unfold mbind, outcome_bind.
    destruct (compute_cost _ _ _) as [cost|]; [|done].
    destruct (or_raise KeyError (od_update region _ _)) as [br|]; [|done].
    destruct (or_raise KeyError (od_update ident _ _)) as [bi|]; [|done].
    destruct (or_raise KeyError (od_update model_id _ _)) as [bm|]; [|done].
    destruct (price_entries _ _ entries _) as [[rest' acc1]|] eqn:Hrest; [|done].
    intros [= <- <-].
    destruct (IH _ _ _ Hrest) as (Hu & Hp & Hm & Hs & Hv).
    cbn [r_warnings] in Hu, Hp, Hm, Hs, Hv.
    destruct (note_rate_fields model_id rate (r_warnings acc)) as (Hm' & Hs' & Hv').
    split; [|split; [|split; [|split]]]; [| |congruence..].
    + intros x. rewrite Hu. setoid_rewrite elem_of_cons.
      destruct rate as [rate|]; simpl.
      * assert (unpriced_models
                  (if missing_input rate || missing_output rate
                   then add_partial model_id (r_warnings acc) else r_warnings acc)
                = unpriced_models (r_warnings acc)) as ->
          by (destruct (missing_input rate || missing_output rate); done).
        split; (intros [?|(kv & Hin & Hk & Hr)]; [by left|]).
        -- right. exists kv. eauto.
        -- destruct Hin as [->|Hin]; [cbn [fst] in Hr; congruence|].
           right. exists kv. eauto.
      * rewrite elem_of_union, elem_of_singleton. split.
        -- intros [[->|?]|(kv & Hin & Hk & Hr)].
           ++ right. exists (region, ident, model_id, stats). eauto.
           ++ by left.
           ++ right. exists kv. eauto.
        -- intros [?|(kv & [->|Hin] & Hk & Hr)].
           ++ left. by right.
           ++ left. left. done.
           ++ right. exists kv. eauto.
    + intros x. rewrite Hp. setoid_rewrite elem_of_cons.
      destruct rate as [rate|]; simpl.
      * destruct (missing_input rate || missing_output rate) eqn:Hmiss; simpl.
        -- rewrite elem_of_union, elem_of_singleton. split.
           ++ intros [[->|?]|(kv & rate' & Hin & Hk & Hr)].
              ** right. exists (region, ident, model_id, stats), rate. eauto.
              ** by left.
              ** right. exists kv, rate'. eauto.
           ++ intros [?|(kv & rate' & [->|Hin] & Hk & Hr)].
              ** left. by right.
              ** left. left. done.
              ** right. exists kv, rate'. eauto.
        -- split.
           ++ intros [?|(kv & rate' & Hin & Hk & Hr)]; [by left|].
              right. exists kv, rate'. eauto.
           ++ intros [?|(kv & rate' & [->|Hin] & Hk & Hr & Hmm)]; [by left| |].
              ** cbn [fst] in Hr. rewrite <- Hrate in Hr. injection Hr as <-. congruence.
              ** right. exists kv, rate'. eauto.
      * split.
        -- intros [?|(kv & rate' & Hin & Hk & Hr)]; [by left|].
           right. exists kv, rate'. eauto.
        -- intros [?|(kv & rate' & [->|Hin] & Hk & Hr & Hmm)]; [by left| |].
           ++ cbn [fst] in Hr. congruence.
           ++ right. exists kv, rate'. eauto.
Qed.

Lemma od_mem_update (k k' : string) f (d d' : list (string * TokenStats)) :
  od_update k f d = Some d' -> od_mem k' d' = od_mem k' d.
Proof.
  intros H. apply od_keys_update in H.
  apply eq_true_iff_eq. rewrite !od_mem_keys, H. done.
Qed.

Lemma od_update_is_Some (k : string) f (d : list (string * TokenStats)) :
  is_Some (od_update k f d) <-> od_mem k d = true.
Proof.
  split.
  - intros [d' H]. destruct (od_mem k d) eqn:E; [done|].
    by rewrite (od_update_None _ _ _ E) in H.
  - intros H. destruct (od_update_Some k f d H) as [d' ->]. eauto.
Qed.

Lemma compute_cost_ok rate inp out :
  is_ok (float_of_int inp) -> is_ok (float_of_int out) ->
  is_ok (compute_cost rate inp out).
Proof.
  unfold compute_cost. destruct rate; [|done].
  destruct (float_of_int inp); [|done]. destruct (float_of_int out); done.
Qed.

Lemma compute_cost_raises rate inp out e :
  compute_cost rate inp out = Raise e -> e = OverflowError.
Proof.
  unfold compute_cost, float_of_int. destruct rate; [|done].
  unfold mbind, outcome_bind.
  destruct (SpecFloat.binary_normalize 53 1024 inp 0 false);
    destruct (SpecFloat.binary_normalize 53 1024 out 0 false); congruence.
Qed.

Lemma price_entries_total pricing idmap entries acc :
  (forall kv, kv ∈ entries ->
     dims_hold (fst kv) (r_by_region acc) (r_by_identity acc) (r_by_model acc) /\
     is_ok (float_of_int (input_tokens (snd kv))) /\
     is_ok (float_of_int (output_tokens (snd kv)))) ->
  is_ok (price_entries pricing idmap entries acc).
Proof.
  revert acc.
  induction entries as [|[[[region ident] model_id] stats] entries IH];
    intros acc Hall; cbn [price_entries]; [done|].
  destruct (Hall _ (list_elem_of_here _ _)) as ((Hr & Hi & Hm) & Hin & Hout).
  unfold key_region, key_identity, key_model in Hr, Hi, Hm. simpl in Hr, Hi, Hm, Hin, Hout.
  pose proof (compute_cost_ok (rate_of pricing idmap (region, ident, model_id)) _ _ Hin Hout)
    as Hcost.
  unfold mbind, outcome_bind.
  destruct (compute_cost _ _ _) as [cost|]; [|done].
  destruct (od_update_Some region (add_cost cost) _ Hr) as [br Hbr].
  destruct (od_update_Some ident (add_cost cost) _ Hi) as [bi Hbi].
  destruct (od_update_Some model_id (add_cost cost) _ Hm) as [bm Hbm].
  rewrite Hbr, Hbi, Hbm. simpl.
  match goal with |- context [price_entries _ _ entries ?a] => specialize (IH a) end.
  destruct (price_entries _ _ entries _) as [[rest' acc1]|]; [done|].
  apply IH. intros kv Hkv.
  destruct (Hall kv (list_elem_of_further _ _ _ Hkv)) as ((Hr' & Hi' & Hm') & ? & ?).
  split; [|done]. unfold dims_hold. simpl.
  rewrite (od_mem_update _ _ _ _ _ Hbr), (od_mem_update _ _ _ _ _ Hbi),
    (od_mem_update _ _ _ _ _ Hbm). done.
Qed.

Lemma price_entries_ok_covered pricing idmap entries acc res :
  price_entries pricing idmap entries acc = Ok res ->
  forall kv, kv ∈ entries ->
    dims_hold (fst kv) (r_by_region acc) (r_by_identity acc) (r_by_model acc).
Proof.
  revert acc res.
  induction entries as [|[[[region ident] model_id] stats] entries IH];
    intros acc res; cbn [price_entries].
  - intros _ kv []%elem_of_nil.
  - unfold mbind, outcome_bind.
    destruct (compute_cost _ _ _) as [cost|]; [|done].
    destruct (od_update region _ _) as [br|] eqn:Hbr; [|done].
    destruct (od_update ident _ _) as [bi|] eqn:Hbi; [|done].
    destruct (od_update model_id _ _) as [bm|] eqn:Hbm; [|done].
    simpl.
    destruct (price_entries _ _ entries _) as [[rest' acc1]|] eqn:Hrest; [|done].
    intros _ kv [->|Hkv]%elem_of_cons.
    + unfold dims_hold, key_region, key_identity, key_model. simpl.
      rewrite <- !od_update_is_Some with (f := add_cost cost).
      rewrite Hbr, Hbi, Hbm. eauto.
    + pose proof (IH _ _ Hrest kv Hkv) as (Hr' & Hi' & Hm'). simpl in *.
      unfold dims_hold.
      rewrite <- (od_mem_update _ _ _ _ _ Hbr), <- (od_mem_update _ _ _ _ _ Hbi),
        <- (od_mem_update _ _ _ _ _ Hbm). done.
Qed.

Lemma price_entries_raises pricing idmap entries acc e :
  price_entries pricing idmap entries acc = Raise e ->
  (e = OverflowError /\
   exists kv, kv ∈ entries /\
     ~ (is_ok (float_of_int (input_tokens (snd kv))) /\
        is_ok (float_of_int (output_tokens (snd kv))))) \/
  (e = KeyError /\
   exists kv, kv ∈ entries /\
     ~ dims_hold (fst kv) (r_by_region acc) (r_by_identity acc) (r_by_model acc)).
Proof.
  revert acc.
  induction entries as [|[[[region ident] model_id] stats] entries IH];
    intros acc; cbn [price_entries]; [done|].
  unfold mbind, outcome_bind.
  destruct (compute_cost _ _ _) as [cost|e0] eqn:Hcost.
  2:{ intros [= <-]. left. split; [eapply compute_cost_raises, Hcost|].
      exists (region, ident, model_id, stats). split; [left|]. simpl. intros [Hi Ho].
      pose proof (compute_cost_ok (rate_of pricing idmap (region, ident, model_id)) _ _ Hi Ho)
        as Hok.
      by rewrite Hcost in Hok. }
  assert (Hbad :
            ~ dims_hold (region, ident, model_id) (r_by_region acc) (r_by_identity acc)
                (r_by_model acc) ->
            exists kv, kv ∈ (region, ident, model_id, stats) :: entries /\
                ~ dims_hold (fst kv) (r_by_region acc) (r_by_identity acc) (r_by_model acc)).
  { intros Hn. exists (region, ident, model_id, stats). split; [left|done]. }
  destruct (od_update region _ _) as [br|] eqn:Hbr; simpl.
  2:{ intros [= <-]. right. split; [done|]. apply Hbad. intros (Hr & _ & _).
      apply (od_update_is_Some region (add_cost cost)) in Hr as [? Hr].
      unfold key_region in Hr; simpl in Hr. congruence. }
  destruct (od_update ident _ _) as [bi|] eqn:Hbi; simpl.
  2:{ intros [= <-]. right. split; [done|]. apply Hbad. intros (_ & Hi & _).
      apply (od_update_is_Some ident (add_cost cost)) in Hi as [? Hi].
      unfold key_identity in Hi; simpl in Hi. congruence. }
  destruct (od_update model_id _ _) as [bm|] eqn:Hbm; simpl.
  2:{ intros [= <-]. right. split; [done|]. apply Hbad. intros (_ & _ & Hm).
      apply (od_update_is_Some model_id (add_cost cost)) in Hm as [? Hm].
      unfold key_model in Hm; simpl in Hm. congruence. }
  destruct (price_entries _ _ entries _) as [[rest' acc1]|e1] eqn:Hrest; [done|].
  intros [= <-].
  destruct (IH _ Hrest) as [(-> & kv & Hkv & Hn)|(-> & kv & Hkv & Hn)].
  - left. split; [done|]. exists kv. split; [by right|done].
  - right. split; [done|]. exists kv. split; [by right|].
    simpl in Hn. unfold dims_hold in *.
    rewrite (od_mem_update _ _ _ _ _ Hbr), (od_mem_update _ _ _ _ _ Hbi),
      (od_mem_update _ _ _ _ _ Hbm) in Hn. done.
Qed.

Lemma apply_pricing_Ok self pricing w m' w' :
  apply_pricing self pricing w = Ok (m', w') ->
  exists acc,
    price_entries pricing (model_id_map self) (by_usage_key self)
      (mkRollup (set_cost 0%float (totals self))
         (od_map_values (set_cost 0%float) (by_region self))
         (od_map_values (set_cost 0%float) (by_identity self))
         (od_map_values (set_cost 0%float) (by_model self)) w)
    = Ok (by_usage_key m', acc) /\
    m' = mkMetrics (r_totals acc) (r_by_region acc) (r_by_identity acc) (r_by_model acc)
           (by_usage_key m') (model_id_map self) /\
    w' = r_warnings acc.
Proof.
  unfold apply_pricing, mbind, outcome_bind.
  destruct (price_entries _ _ _ _) as [[priced acc]|]; [|done].
  intros [= <- <-]. exists acc. done.
Qed.

Lemma rolled_from_zero proj priced (d d' : list (string * TokenStats)) :
  rolled proj priced (od_map_values (set_cost 0%float) d) d' ->
  forall r,
    od_get r d' = (fun st => set_cost (fsum (costs_onto proj r priced)) st) <$> od_get r d.
Proof.
  intros H r. rewrite (H r), od_get_map_values.
  destruct (od_get r d) as [st|]; done.
Qed.

Lemma rate_of_unfold pricing idmap (k : usage_key) :
  rate_of pricing idmap k = pricing (original_of idmap (key_model k)) (key_region k).
Proof. by destruct k as [[? ?] ?]. Qed.

Lemma apply_pricing_total self pricing w :
  usage_keys_covered self -> tokens_convertible self ->
  is_ok (apply_pricing self pricing w).
Proof.
  intros Hcov Hconv.
  unfold apply_pricing, mbind, outcome_bind.
  match goal with |- context [price_entries ?p ?i ?e ?a] =>
    pose proof (price_entries_total p i e a) as Htot end.
  destruct (price_entries _ _ _ _) as [[priced acc]|]; [done|].
  apply Htot. intros kv Hkv. split; [|by apply Hconv].
  unfold dims_hold. simpl. rewrite !od_mem_keys, !od_keys_map_values.
  apply Hcov. unfold od_keys. apply list_elem_of_fmap. eauto.
Qed.

(** C2. When [apply_pricing] completes: every granular entry keeps its key
    and token counts; its rate is the one the provider gives for its region
    and the identifier [model_id_map] holds for its model, or for the model
    itself when the map has no entry for it; without a rate its cost is
    [0.0] and its model is in [unpriced_models] (which gains exactly the
    models of such entries); with a rate its cost is
    [(input/1000)*input_per_1k + (output/1000)*output_per_1k] in binary64.
    The cost of [totals] is the sum, from [0.0] and in iteration order, of
    the costs of all granular entries, and the cost of every [by_region],
    [by_identity] and [by_model] entry is that sum over the entries whose
    key projects onto it, whatever cost it held before; token counts and
    keys of these maps do not change. It completes whenever the granular
    keys are covered and the token counts convert to [float]. On the bucket
    of 1000 input and 500 output tokens with rates 0.003 and 0.015 the cost
    is the binary64 number 0.010499999999999999, within 1e-9 of 0.0105. A
    provider that knows only the logged identifier of a model prices the
    usage whose [model_id_map] entry names that identifier, and leaves the
    same usage unpriced when the map has no entry. *)
Theorem apply_pricing_costs :
  (forall self pricing w m' w',
     apply_pricing self pricing w = Ok (m', w') ->
     Forall2
       (fun before after =>
          let '(region, _, model_id) := fst before in
          let original_model_id :=
            match od_get model_id (model_id_map self) with
            | Some original => original
            | None => model_id
            end in
          fst after = fst before /\
          token_counts (snd after) = token_counts (snd before) /\
          match pricing original_model_id region with
          | None => cost_usd (snd after) = 0%float
          | Some rate =>
              exists i o,
                float_of_int (input_tokens (snd before)) = Ok i /\
                float_of_int (output_tokens (snd before)) = Ok o /\
                cost_usd (snd after)
                = ((i / 1000) * input_per_1k rate + (o / 1000) * output_per_1k rate)%float
          end)
       (by_usage_key self) (by_usage_key m') /\
     token_counts (totals m') = token_counts (totals self) /\
     cost_usd (totals m') = fsum (map (fun kv => cost_usd (snd kv)) (by_usage_key m')) /\
     (forall r, od_get r (by_region m')
                = (fun st => set_cost (fsum (costs_onto key_region r (by_usage_key m'))) st)
                    <$> od_get r (by_region self)) /\
     (forall r, od_get r (by_identity m')
                = (fun st => set_cost (fsum (costs_onto key_identity r (by_usage_key m'))) st)
                    <$> od_get r (by_identity self)) /\
     (forall r, od_get r (by_model m')
                = (fun st => set_cost (fsum (costs_onto key_model r (by_usage_key m'))) st)
                    <$> od_get r (by_model self)) /\
     model_id_map m' = model_id_map self /\
     (forall x,
        x ∈ unpriced_models w' <->
        x ∈ unpriced_models w \/
        exists region ident stats,
          ((region, ident, x), stats) ∈ by_usage_key self /\
          pricing (match od_get x (model_id_map self) with
                   | Some original => original
                   | None => x
                   end) region = None)) /\
  (forall self pricing w,
     usage_keys_covered self -> tokens_convertible self ->
     is_ok (apply_pricing self pricing w)) /\
  apply_pricing Examples.priced_bucket Examples.flat_provider Warnings0
    = Ok (Examples.priced_bucket_after, Warnings0) /\
  Examples.within 1e-9 Examples.bucket_cost 0.0105 = true /\
  (exists m',
     apply_pricing Examples.profile_bucket Examples.profile_provider Warnings0
       = Ok (m', Warnings0) /\
     cost_usd (totals m') = Examples.bucket_cost /\
     cost_usd <$> od_get Examples.profile_model (by_model m') = Some Examples.bucket_cost) /\
  (exists m' w',
     apply_pricing Examples.unmapped_bucket Examples.profile_provider Warnings0
       = Ok (m', w') /\
     unpriced_models w' = {[ Examples.profile_model ]} /\
     cost_usd (totals m') = 0%float).
Proof.
  split; [|split; [|split; [|split; [|split]]]].
  - intros self pricing w m' w' H.
    destruct (apply_pricing_Ok _ _ _ _ _ H) as (acc & Hloop & Hm & ->).
    destruct (price_entries_spec _ _ _ _ _ _ Hloop) as (HF & Ht & Hc & Hr & Hi & Hmo).
    destruct (price_entries_warnings _ _ _ _ _ _ Hloop) as (Hu & _).
    simpl in Ht, Hc, Hr, Hi, Hmo, Hu.
    rewrite Hm. simpl.
    split.
    { eapply Forall2_impl; [exact HF|]. intros [[[region ident] model_id] st] after.
      unfold priced_as, original_of, key_model, key_region. cbn [fst snd].
      by destruct (od_get model_id (model_id_map self)). }
    split; [exact Ht|]. split; [exact Hc|].
    split; [apply rolled_from_zero, Hr|].
    split; [apply rolled_from_zero, Hi|].
    split; [apply rolled_from_zero, Hmo|].
    split; [done|].
    intros x. rewrite Hu. setoid_rewrite rate_of_unfold. unfold original_of.
    split; (intros [Hx|Hx]; [by left|right]).
    + destruct Hx as ([[[region ident] model_id] st] & Hin & Hmodel & Hrate).
      unfold key_model, key_region in *. cbn [fst snd] in *. subst x.
      exists region, ident, st. split; [done|].
      by destruct (od_get model_id (model_id_map self)).
    + destruct Hx as (region & ident & st & Hin & Hrate).
      exists ((region, ident, x), st). unfold key_model, key_region. cbn [fst snd].
      split; [done|]. split; [done|].
      by destruct (od_get x (model_id_map self)).
  - exact apply_pricing_total.
  - vm_compute. reflexivity.
  - vm_compute. reflexivity.
  - eexists. split; [vm_compute; reflexivity|]. split; vm_compute; reflexivity.
  - eexists _, _. split; [vm_compute; reflexivity|]. split; [|vm_compute; reflexivity].
    cbn. set_solver.
Qed.

Lemma apply_pricing_costs_witness :
  (exists m',
     apply_pricing Examples.profile_bucket Examples.profile_provider Warnings0
       = Ok (m', Warnings0) /\
     cost_usd (totals m') = fsum (map (fun kv => cost_usd (snd kv)) (by_usage_key m'))) /\
  apply_pricing Examples.priced_bucket Examples.flat_provider Warnings0
    = Ok (Examples.priced_bucket_after, Warnings0) /\
  cost_usd (totals Examples.priced_bucket_after)
  = fsum (map (fun kv => cost_usd (snd kv)) (by_usage_key Examples.priced_bucket_after)).
Proof.
  split.
  - eexists. split; [vm_compute; reflexivity|].
    exact (proj1 (proj2 (proj2
      (proj1 apply_pricing_costs Examples.profile_bucket Examples.profile_provider Warnings0
         _ Warnings0 eq_refl)))).
  - split; [vm_compute; reflexivity|].
    exact (proj1 (proj2 (proj2
      (proj1 apply_pricing_costs Examples.priced_bucket Examples.flat_provider Warnings0
         Examples.priced_bucket_after Warnings0 eq_refl)))).
Defined.

(** ** Coverage of the granular keys *)

Lemma od_keys_upsert {K} `{EqDecision K} {V} (k k' : K) (f : V -> V) v0 (d : list (K * V)) :
  k' ∈ od_keys (od_upsert k f v0 d) <-> k' = k \/ k' ∈ od_keys d.
Proof. rewrite <- !od_mem_keys. apply od_mem_upsert. Qed.

Lemma od_keys_merge_stats {K} `{EqDecision K} (k : K) (self other : list (K * TokenStats)) :
  k ∈ od_keys (merge_stats self other) <-> k ∈ od_keys self \/ k ∈ od_keys other.
Proof.
  unfold merge_stats. revert self.
  induction other as [|[k0 v] other IH]; intros self; simpl.
  - rewrite elem_of_nil. tauto.
  - rewrite IH, od_keys_upsert, elem_of_cons. tauto.
Qed.

Lemma covered_empty : usage_keys_covered Metrics0.
Proof. intros k []%elem_of_nil. Qed.

Lemma covered_add_usage m region ident model_id inp out c orig :
  usage_keys_covered m ->
  usage_keys_covered (add_usage m region ident model_id inp out c orig).
Proof.
  intros Hm k. unfold add_usage; simpl. rewrite !od_keys_upsert.
  intros [->|Hk]; [by repeat split; left|].
  destruct (Hm k Hk) as (? & ? & ?). repeat split; by right.
Qed.

Lemma covered_merge a b :
  usage_keys_covered a -> usage_keys_covered b -> usage_keys_covered (merge a b).
Proof.
  intros Ha Hb k. unfold merge; simpl. rewrite !od_keys_merge_stats.
  intros [Hk|Hk]; [destruct (Ha k Hk) as (? & ? & ?)|destruct (Hb k Hk) as (? & ? & ?)];
    repeat split; tauto.
Qed.

Lemma covered_dims_hold m kv :
  usage_keys_covered m -> kv ∈ by_usage_key m ->
  dims_hold (fst kv)
    (od_map_values (set_cost 0%float) (by_region m))
    (od_map_values (set_cost 0%float) (by_identity m))
    (od_map_values (set_cost 0%float) (by_model m)).
Proof.
  intros Hcov Hkv. unfold dims_hold. rewrite !od_mem_keys, !od_keys_map_values.
  apply Hcov. unfold od_keys. apply list_elem_of_fmap. eauto.
Qed.

Lemma dims_hold_covered m :
  (forall kv, kv ∈ by_usage_key m ->
     dims_hold (fst kv)
       (od_map_values (set_cost 0%float) (by_region m))
       (od_map_values (set_cost 0%float) (by_identity m))
       (od_map_values (set_cost 0%float) (by_model m))) ->
  usage_keys_covered m.
Proof.
  intros H k (kv & -> & Hkv)%list_elem_of_fmap.
  specialize (H kv Hkv). unfold dims_hold in H.
  by rewrite !od_mem_keys, !od_keys_map_values in H.
Qed.

Lemma apply_pricing_ok_covered self pricing w :
  is_ok (apply_pricing self pricing w) -> usage_keys_covered self.
Proof.
  unfold apply_pricing, mbind, outcome_bind.
  destruct (price_entries _ _ _ _) as [res|] eqn:Hloop; [|done].
  intros _. apply dims_hold_covered.
  apply (price_entries_ok_covered _ _ _ _ _ Hloop).
Qed.

Lemma apply_pricing_raises self pricing w e :
  apply_pricing self pricing w = Raise e ->
  (e = OverflowError /\ ~ tokens_convertible self) \/
  (e = KeyError /\ ~ usage_keys_covered self).
Proof.
  unfold apply_pricing, mbind, outcome_bind.
  destruct (price_entries _ _ _ _) as [[priced acc]|e'] eqn:Hloop; [done|].
  intros [= <-].
  destruct (price_entries_raises _ _ _ _ _ Hloop) as [(-> & kv & Hkv & Hn)|(-> & kv & Hkv & Hn)].
  - left. split; [done|]. intros Hconv. apply Hn, Hconv, Hkv.
  - right. split; [done|]. intros Hcov. apply Hn. simpl.
    by apply covered_dims_hold.
Qed.

(** C10. [apply_pricing] indexes the three dimension maps with the components
    of each granular key without a guard. If it completes, every granular
    key is covered (its region is in [by_region], its identity in
    [by_identity], its model in [by_model]); with covered keys it never
    raises [KeyError], and it completes as soon as the token counts convert
    to [float] (the only other failure of the loop is the [OverflowError] of
    that conversion); with an uncovered key it does not complete, and fails
    with [KeyError] when the counts convert. The empty [Metrics] is covered,
    [add_usage] keeps coverage, and [merge] keeps it when both operands
    have it. The [Metrics] read from a snapshot whose granular list names a
    key absent from its dimension maps is not covered: once
    [load_snapshot_node] has merged it, [apply_pricing] raises [KeyError]. *)
Theorem apply_pricing_needs_covered_keys :
  (forall self pricing w,
     is_ok (apply_pricing self pricing w) -> usage_keys_covered self) /\
  (forall self pricing w,
     usage_keys_covered self -> apply_pricing self pricing w <> Raise KeyError) /\
  (forall self pricing w,
     usage_keys_covered self -> tokens_convertible self ->
     is_ok (apply_pricing self pricing w)) /\
  (forall self pricing w e,
     apply_pricing self pricing w = Raise e -> e = KeyError \/ e = OverflowError) /\
  (forall self pricing w,
     ~ usage_keys_covered self ->
     ~ is_ok (apply_pricing self pricing w) /\
     (tokens_convertible self -> apply_pricing self pricing w = Raise KeyError)) /\
  usage_keys_covered Metrics0 /\
  (forall m region ident model_id inp out c orig,
     usage_keys_covered m ->
     usage_keys_covered (add_usage m region ident model_id inp out c orig)) /\
  (forall a b,
     usage_keys_covered a -> usage_keys_covered b -> usage_keys_covered (merge a b)) /\
  (ReportStore.load_metrics_from_snapshot Examples.orphan_snapshot
     = Ok (Some Examples.orphan_metrics) /\
   ~ usage_keys_covered Examples.orphan_metrics /\
   forall pricing w,
     Workflow.load_snapshot_node false (Some Examples.orphan_snapshot) Metrics0
       = Ok (merge Metrics0 Examples.orphan_metrics) /\
     apply_pricing (merge Metrics0 Examples.orphan_metrics) pricing w = Raise KeyError).
Proof.
  split; [exact apply_pricing_ok_covered|].
  split.
  { intros self pricing w Hcov H.
    destruct (apply_pricing_raises _ _ _ _ H) as [[? _]|[_ Hn]]; [done|]. by apply Hn. }
  split; [exact apply_pricing_total|].
  split.
  { intros self pricing w e H.
    destruct (apply_pricing_raises _ _ _ _ H) as [[-> _]|[-> _]]; tauto. }
  split.
  { intros self pricing w Hn. split.
    - intros H. apply Hn. eapply apply_pricing_ok_covered, H.
    - intros Hconv. destruct (apply_pricing self pricing w) as [res|e] eqn:H.
      + exfalso. apply Hn. apply (apply_pricing_ok_covered self pricing w). by rewrite H.
      + destruct (apply_pricing_raises _ _ _ _ H) as [[_ Hc]|[-> _]]; [done|done]. }
  split; [exact covered_empty|].
  split; [exact covered_add_usage|].
  split; [exact covered_merge|].
  split; [reflexivity|].
  assert (Hn : ~ usage_keys_covered Examples.orphan_metrics).
  { intros H. destruct (H ("us-east-2", "arn:test", "m")%string) as (Hr & _).
    - simpl. left.
    - simpl in Hr. by apply elem_of_nil in Hr. }
  split; [exact Hn|].
  intros pricing w. split; [reflexivity|].
  destruct (apply_pricing _ pricing w) as [res|e] eqn:H.
  - exfalso.
    assert (Hc : usage_keys_covered (merge Metrics0 Examples.orphan_metrics)).
    { apply (apply_pricing_ok_covered _ pricing w). by rewrite H. }
    destruct (Hc ("us-east-2", "arn:test", "m")%string) as (Hr & _).
    + simpl. left.
    + simpl in Hr. by apply elem_of_nil in Hr.
  - destruct (apply_pricing_raises _ _ _ _ H) as [[_ Hc]|[-> _]]; [|done].
    exfalso. apply Hc. intros kv [->|[]%elem_of_nil]%elem_of_cons. simpl.
    split; vm_compute; exact I.
Qed.

Lemma apply_pricing_needs_covered_keys_witness :
  usage_keys_covered Examples.priced_bucket /\
  tokens_convertible Examples.priced_bucket /\
  is_ok (apply_pricing Examples.priced_bucket Examples.flat_provider Warnings0).
Proof.
  assert (Hc : usage_keys_covered Examples.priced_bucket).
  { apply covered_add_usage, covered_empty. }
  assert (Ht : tokens_convertible Examples.priced_bucket).
  { intros kv [->|[]%elem_of_nil]%elem_of_cons. split; vm_compute; exact I. }
  split; [exact Hc|]. split; [exact Ht|].
  exact (proj1 (proj2 (proj2 apply_pricing_needs_covered_keys))
           Examples.priced_bucket Examples.flat_provider Warnings0 Hc Ht).
Defined.

(** ** The scan window *)

Lemma HOUR_pos : 0 < HOUR.
Proof. reflexivity. Qed.

Lemma floor_hour_le (t : Z) : floor_hour t <= t.
Proof. unfold floor_hour. pose proof (Z.mod_pos_bound t HOUR HOUR_pos). lia. Qed.

Lemma floor_hour_aligned (t : Z) : floor_hour t mod HOUR = 0.
Proof.
  unfold floor_hour. rewrite Zminus_mod, Zmod_mod, Z.sub_diag. reflexivity.
Qed.


Lemma hour_range_S (start : Z) (n : nat) :
  hour_range start (S n) = start :: hour_range (start + HOUR) n.
Proof.
  unfold hour_range. simpl. f_equal; [lia|].
  rewrite <- seq_shift, map_map. apply map_ext. intros i. lia.
Qed.

Lemma scan_count_bounds (start end_hour : Z) :
  let n := Z.to_nat ((end_hour - start) / HOUR + 1) in
  (n = 0%nat \/ start + (Z.of_nat n - 1) * HOUR <= end_hour) /\
  end_hour < start + Z.of_nat n * HOUR /\
  (n = 0%nat <-> end_hour < start).
Proof.
  pose proof HOUR_pos as Hpos. intros n. subst n.
  pose proof (Z.div_mod (end_hour - start) HOUR ltac:(lia)) as Hdm.
  pose proof (Z.mod_pos_bound (end_hour - start) HOUR Hpos) as Hmod.
  destruct (Z_lt_le_dec end_hour start) as [Hlt|Hle].
  - assert ((end_hour - start) / HOUR + 1 <= 0) by nia.
    assert (Z.to_nat ((end_hour - start) / HOUR + 1) = 0%nat) as -> by lia.
    simpl. split; [by left|]. split; [lia|]. tauto.
  - assert (0 <= (end_hour - start) / HOUR) by (apply Z.div_pos; lia).
    rewrite Z2Nat.id by lia. split; [right; nia|]. split; [nia|].
    split; [|lia]. intros Hz. apply (f_equal Z.of_nat) in Hz.
    rewrite Z2Nat.id in Hz by lia. simpl in Hz. lia.
Qed.

Lemma scan_hours_empty (start end_hour : Z) :
  end_hour < start -> scan_hours start end_hour = [].
Proof.
  intros H. unfold scan_hours.
  destruct (scan_count_bounds start end_hour) as (_ & _ & Hz).
  by rewrite (proj2 Hz H).
Qed.

Lemma hour_range_last (start : Z) (n : nat) :
  last (hour_range start (S n)) = Some (start + Z.of_nat n * HOUR).
Proof.
  unfold hour_range. rewrite seq_S, map_app. cbn [map]. rewrite last_snoc. done.
Qed.

Lemma hour_range_head (start : Z) (n : nat) :
  head (hour_range start (S n)) = Some start.
Proof. rewrite hour_range_S. simpl. done. Qed.

(** Between two whole hours the window starts at the first and ends at
    the second. *)
Lemma scan_hours_ends (start end_hour : Z) :
  start mod HOUR = 0 -> end_hour mod HOUR = 0 -> start <= end_hour ->
  head (scan_hours start end_hour) = Some start /\
  last (scan_hours start end_hour) = Some end_hour /\
  scan_hours start end_hour <> [].
Proof.
  pose proof HOUR_pos as Hpos. intros Hs He Hle. unfold scan_hours.
  assert (Hq : 0 <= (end_hour - start) / HOUR) by (apply Z.div_pos; lia).
  assert (Hexact : start + (end_hour - start) / HOUR * HOUR = end_hour).
  { pose proof (Z.div_mod (end_hour - start) HOUR ltac:(lia)) as Hdm.
    assert ((end_hour - start) mod HOUR = 0) as Hm.
    { rewrite Zminus_mod, Hs, He. reflexivity. }
    lia. }
  replace (Z.to_nat ((end_hour - start) / HOUR + 1))
    with (S (Z.to_nat ((end_hour - start) / HOUR))) by lia.
  rewrite hour_range_head, hour_range_last, Z2Nat.id by lia.
  rewrite Hexact. split; [done|]. split; [done|].
  rewrite hour_range_S. done.
Qed.

Lemma map_last {A B} (f : A -> B) (l : list A) : last (map f l) = f <$> last l.
Proof.
  induction l as [|x [|y l] IH]; [done..|]. exact IH.
Qed.

Section scan_window.
Import Workflow Manifest.
Variable strftime_datehour : Z -> string.
Variable strftime_path : Z -> string.
Variable strptime_datehour : string -> option Z.

Local Abbreviation prefix_of := (_build_log_prefix strftime_path) (only parsing).

(** The loop run: [n] iterations, then the exit. *)
Lemma scan_loop_run config region end_hour (n : nat) :
  forall (fuel : nat) (current : Z) (acc : list string),
    (n < fuel)%nat ->
    (n = 0%nat \/ current + (Z.of_nat n - 1) * HOUR <= end_hour) ->
    end_hour < current + Z.of_nat n * HOUR ->
    scan_loop strftime_path fuel config region current end_hour acc
    = Some (acc ++ map (prefix_of config region) (hour_range current n)).
Proof.
  pose proof HOUR_pos as Hpos.
  induction n as [|n IH]; intros fuel current acc Hfuel Hlast Hend.
  - destruct fuel as [|fuel]; [lia|]. simpl.
    rewrite (proj2 (Z.leb_gt _ _)) by lia. by rewrite app_nil_r.
  - destruct fuel as [|fuel]; [lia|]. cbn [scan_loop].
    destruct Hlast as [?|Hlast]; [done|].
    rewrite (proj2 (Z.leb_le _ _)) by nia.
    rewrite (IH fuel (current + HOUR)); [| lia | | nia].
    + rewrite hour_range_S. cbn [map]. rewrite <- app_assoc. done.
    + destruct n; [by left|right]. nia.
Qed.

Lemma scan_loop_complete config region start end_hour (fuel : nat) :
  (scan_fuel start end_hour <= fuel)%nat ->
  scan_loop strftime_path fuel config region start end_hour []
  = Some (map (prefix_of config region) (scan_hours start end_hour)).
Proof.
  intros Hfuel. destruct (scan_count_bounds start end_hour) as (H1 & H2 & _).
  unfold scan_hours.
  rewrite (scan_loop_run config region end_hour
             (Z.to_nat ((end_hour - start) / HOUR + 1)) fuel start []); done.
Qed.

(** What [plan_scan_node] returns, given enough fuel. *)
Lemma plan_scan_node_result fuel force config region manifest report_start report_end now :
  let start := scan_start strptime_datehour force manifest report_start in
  let end_hour := floor_hour (report_end - SECOND) in
  (scan_fuel start end_hour <= fuel)%nat ->
  plan_scan_node strftime_datehour strftime_path strptime_datehour fuel force config region
    manifest report_start report_end now
  = Some (mkScanPlan
            (map (prefix_of config region) (scan_hours start end_hour))
            (match scan_hours start end_hour with
             | [] => None
             | _ :: _ => Some (strftime_datehour (Z.min end_hour (floor_hour now)))
             end)).
Proof.
  intros start end_hour Hfuel. unfold plan_scan_node. fold start end_hour.
  rewrite (scan_loop_complete config region start end_hour fuel Hfuel).
  destruct (scan_hours start end_hour); done.
Qed.
End scan_window.

Lemma prune_keeps_checkpoint seen_instant manifest now manifest' :
  Manifest.prune_manifest seen_instant manifest now = Ok manifest' ->
  Manifest.last_datehour manifest' = Manifest.last_datehour manifest.
Proof.
  unfold Manifest.prune_manifest, mbind, outcome_bind.
  destruct (foldr _ _ _) as [pruned|]; [|done].
  by intros [= <-].
Qed.

Lemma update_last_datehour_cases manifest datehour :
  Manifest.last_datehour (Manifest.update_last_datehour manifest datehour)
  = if str_truthy datehour then datehour else Manifest.last_datehour manifest.
Proof.
  unfold Manifest.update_last_datehour. by destruct (str_truthy datehour).
Qed.

(** C1, as amended. With fuel for the loop to reach its exit,
    [plan_scan_node] returns a plan whose prefixes are those of every hour
    from the scan start through the report-day end hour: when the window is
    not empty its last prefix is that of the report-day end hour (whatever
    the current time is) and the checkpoint value it produces is the text of
    [min(report-day end hour, current hour)]; that hour is never later than
    the current hour, so the manifest's checkpoint, after
    [update_last_datehour] and after the whole of [update_manifest_node], is
    either what it was or the text of an hour no later than now. *)
Theorem scan_checkpoint_capped
    (strftime_datehour strftime_path : Z -> string) (strptime_datehour : string -> option Z)
    (fuel : nat) (force : bool) (config : AppConfig) (region : string)
    (manifest : Manifest.ManifestState) (report_start report_end now : Z) :
  let start := Workflow.scan_start strptime_datehour force manifest report_start in
  let end_hour := floor_hour (report_end - SECOND) in
  let now_hour := floor_hour now in
  let effective_end := Z.min end_hour now_hour in
  (scan_fuel start end_hour <= fuel)%nat ->
  exists plan,
    Workflow.plan_scan_node strftime_datehour strftime_path strptime_datehour fuel force
      config region manifest report_start report_end now = Some plan /\
    Workflow.scan_prefixes plan
    = map (Workflow._build_log_prefix strftime_path config region) (scan_hours start end_hour) /\
    (start <= end_hour ->
     last (Workflow.scan_prefixes plan)
       = Some (Workflow._build_log_prefix strftime_path config region end_hour) /\
     Workflow.scan_end_datehour plan = Some (strftime_datehour effective_end)) /\
    (end_hour < start ->
     Workflow.scan_prefixes plan = [] /\ Workflow.scan_end_datehour plan = None) /\
    effective_end <= now_hour /\ now_hour <= now /\
    (Manifest.last_datehour
       (Manifest.update_last_datehour manifest (Workflow.scan_end_datehour plan))
       = Manifest.last_datehour manifest \/
     Manifest.last_datehour
       (Manifest.update_last_datehour manifest (Workflow.scan_end_datehour plan))
       = Some (strftime_datehour effective_end)) /\
    (forall seen_instant now' manifest',
       Workflow.update_manifest_node seen_instant manifest plan now' = Ok manifest' ->
       Manifest.last_datehour manifest' = Manifest.last_datehour manifest \/
       Manifest.last_datehour manifest' = Some (strftime_datehour effective_end)).
Proof.
  intros start end_hour now_hour effective_end Hfuel.
  pose proof (plan_scan_node_result strftime_datehour strftime_path strptime_datehour
                fuel force config region manifest report_start report_end now Hfuel) as Hplan.
  fold start end_hour in Hplan.
  eexists. split; [exact Hplan|]. cbn [Workflow.scan_prefixes Workflow.scan_end_datehour].
  assert (Hcheckpoint :
    match scan_hours start end_hour with
    | [] => None
    | _ :: _ => Some (strftime_datehour (Z.min end_hour (floor_hour now)))
    end = None \/
    match scan_hours start end_hour with
    | [] => None
    | _ :: _ => Some (strftime_datehour (Z.min end_hour (floor_hour now)))
    end = Some (strftime_datehour effective_end)).
  { destruct (scan_hours start end_hour); [by left|by right]. }
  assert (Hupd :
    Manifest.last_datehour
      (Manifest.update_last_datehour manifest
         match scan_hours start end_hour with
         | [] => None
         | _ :: _ => Some (strftime_datehour (Z.min end_hour (floor_hour now)))
         end)
    = Manifest.last_datehour manifest \/
    Manifest.last_datehour
      (Manifest.update_last_datehour manifest
         match scan_hours start end_hour with
         | [] => None
         | _ :: _ => Some (strftime_datehour (Z.min end_hour (floor_hour now)))
         end)
    = Some (strftime_datehour effective_end)).
  { rewrite update_last_datehour_cases.
    destruct Hcheckpoint as [->| ->]; [by left|].
    destruct (str_truthy _); [by right|by left]. }
  split; [done|]. split; [|split; [|split; [|split; [|split]]]].
  - intros Hle.
    destruct (scan_hours_ends start end_hour) as (_ & Hlast & Hne); [..|done|].
    { apply floor_hour_aligned. }
    { apply floor_hour_aligned. }
    rewrite map_last, Hlast. split; [done|].
    destruct (scan_hours start end_hour); done.
  - intros Hlt. by rewrite (scan_hours_empty _ _ Hlt).
  - lia.
  - apply floor_hour_le.
  - exact Hupd.
  - intros seen_instant now' manifest' H.
    unfold Workflow.update_manifest_node in H. cbn [Workflow.scan_end_datehour] in H.
    rewrite (prune_keeps_checkpoint _ _ _ _ H). exact Hupd.
Qed.

Lemma scan_checkpoint_capped_witness :
  exists plan,
    ScanExamples.plan ScanExamples.morning_manifest (ScanExamples.first_run_time + 8 * HOUR)
      = Some plan /\
    Workflow.scan_end_datehour plan = Some "2026-02-02T16"%string.
Proof.
  destruct (scan_checkpoint_capped Calendar.strftime_datehour Calendar.strftime_path
              Calendar.strptime_datehour 30 false ScanExamples.config "us-east-1"
              ScanExamples.morning_manifest ScanExamples.report_start ScanExamples.report_end
              (ScanExamples.first_run_time + 8 * HOUR))
    as (plan & Hplan & _ & Hend & _).
  { vm_compute. lia. }
  exists plan. split; [exact Hplan|].
  destruct Hend as [_ Hend]; [vm_compute; discriminate|].
  rewrite Hend. vm_compute. reflexivity.
Defined.

(** C1 as stated fails: at 08:30 on the report day the emitted list ends
    with the prefix of hour 23 of that day, not with the prefix of
    [min(report-day end hour, current hour)], which is hour 08; only the
    checkpoint is capped. *)
Lemma scan_prefixes_capped_counterexample :
  exists plan,
    ScanExamples.plan ScanExamples.fresh_manifest ScanExamples.first_run_time = Some plan /\
    last (Workflow.scan_prefixes plan)
      = Some "AWSLogs/123456789012/BedrockModelInvocationLogs/us-east-1/2026/02/02/23/"%string /\
    Workflow._build_log_prefix Calendar.strftime_path ScanExamples.config "us-east-1"
      (Z.min (floor_hour (ScanExamples.report_end - SECOND))
             (floor_hour ScanExamples.first_run_time))
      = "AWSLogs/123456789012/BedrockModelInvocationLogs/us-east-1/2026/02/02/08/"%string /\
    last (Workflow.scan_prefixes plan)
      <> Some (Workflow._build_log_prefix Calendar.strftime_path ScanExamples.config "us-east-1"
                 (Z.min (floor_hour (ScanExamples.report_end - SECOND))
                        (floor_hour ScanExamples.first_run_time))) /\
    length (Workflow.scan_prefixes plan) = 24%nat /\
    Workflow.scan_end_datehour plan = Some "2026-02-02T08"%string.
Proof.
  eexists. split; [vm_compute; reflexivity|].
  split; [vm_compute; reflexivity|]. split; [vm_compute; reflexivity|].
  split; [vm_compute; discriminate|]. split; vm_compute; reflexivity.
Qed.



(** ** Deduplication by key and etag *)

Lemma is_new_spec (force : bool) (processed : gmap string (gmap string string))
    (obj : S3Object) :
  Workflow.is_new force processed obj = true <->
  force = true \/
  processed !! key obj = None \/
  (exists meta, processed !! key obj = Some meta /\
                meta !! "etag"%string <> Some (etag obj)).
Proof.
  unfold Workflow.is_new. destruct force; [naive_solver|].
  destruct (processed !! key obj) as [meta|] eqn:Hp; [|naive_solver].
  destruct (decide (meta = ∅)) as [->|Hne].
  - split; [|done]. intros _. right. right. exists ∅. by rewrite lookup_empty.
  - destruct (decide (meta !! "etag"%string = Some (etag obj))) as [He|He].
    + split; [done|]. intros [?|[?|(meta' & [= <-] & Hd)]]; done.
    + split; [|done]. intros _. right. right. eauto.
Qed.

Lemma is_new_recorded (processed : gmap string (gmap string string)) (obj : S3Object) meta :
  processed !! key obj = Some meta -> meta !! "etag"%string = Some (etag obj) ->
  Workflow.is_new false processed obj = false.
Proof.
  intros Hp He. destruct (Workflow.is_new false processed obj) eqn:E; [|done].
  apply is_new_spec in E as [?|[?|(meta' & Hp' & Hd)]]; [done|congruence|].
  rewrite Hp in Hp'. injection Hp' as <-. done.
Qed.

Lemma filter_new_nothing (manifest : Manifest.ManifestState) (objects : list S3Object) :
  (forall obj, obj ∈ objects ->
     exists meta, Manifest.processed manifest !! key obj = Some meta /\
                  meta !! "etag"%string = Some (etag obj)) ->
  Workflow.filter_new_objects_node false manifest objects = [].
Proof.
  unfold Workflow.filter_new_objects_node.
  induction objects as [|obj objects IH]; intros H; [done|].
  rewrite filter_cons.
  destruct (H obj) as (meta & Hp & He); [left|].
  rewrite (is_new_recorded _ _ _ Hp He). rewrite decide_False by done.
  apply IH. intros obj' Hin. apply H. by right.
Qed.

Section ingestion.
Import Workflow Manifest.
Variable isoformat : Z -> string.
Variable int_of_str : string -> option Z.
Variable fromisoformat : string -> option Z.
Variable records_of : string -> outcome (list json).

Lemma ingest_record_manifest region report_start report_end st record st' :
  ingest_record int_of_str fromisoformat region report_start report_end st record = Ok st' ->
  current_manifest st' = current_manifest st.
Proof.
  unfold ingest_record, mbind, outcome_bind.
  destruct (Parser.parse_timestamp _ _) as [[ts|]|]; [| |done].
  - destruct (negb _); [by intros [= <-]|].
    destruct (Parser.extract_token_counts _ _) as [[[i o] fb]|]; [|done].
    destruct (attr_get record "modelId") as [raw_model|]; [|done].
    destruct (text_or TypeError raw_model _) as [orig|]; [|done].
    destruct (nested_get record "identity" "arn") as [raw_arn|]; [|done].
    destruct (text_or Untyped raw_arn _) as [ident|]; [|done].
    destruct (attr_get record "region") as [raw_region|]; [|done].
    destruct (text_or Untyped raw_region _) as [rr|]; [|done].
    by intros [= <-].
  - by intros [= <-].
Qed.

Lemma ingest_records_manifest region report_start report_end records :
  forall st st',
    ingest_records int_of_str fromisoformat region report_start report_end st records
      = Ok st' ->
    current_manifest st' = current_manifest st.
Proof.
  induction records as [|record records IH]; intros st st'; simpl.
  - by intros [= <-].
  - unfold mbind, outcome_bind.
    destruct (ingest_record _ _ _ _ _ st record) as [st1|] eqn:H1; [|done].
    intros H. rewrite (IH _ _ H). eapply ingest_record_manifest, H1.
Qed.

Lemma ingest_objects_processed region report_start report_end now objects :
  forall st st',
    ingest_objects_node isoformat int_of_str fromisoformat records_of region
      report_start report_end now st objects = Ok st' ->
    processed (current_manifest st')
    = recorded isoformat now (processed (current_manifest st)) objects.
Proof.
  induction objects as [|obj objects IH]; intros st st'; simpl.
  - by intros [= <-].
  - unfold mbind, outcome_bind.
    destruct (records_of (key obj)) as [records|]; [|done].
    destruct (ingest_records _ _ _ _ _ _ records) as [st2|] eqn:H2; [|done].
    intros H. rewrite (IH _ _ H). simpl.
    by rewrite (ingest_records_manifest _ _ _ _ _ _ H2).
Qed.


Lemma ingest_new_objects_none region report_start report_end now st objects :
  filter_new_objects_node false (current_manifest st) objects = [] ->
  ingest_new_objects isoformat int_of_str fromisoformat records_of false region
    report_start report_end now st objects = Ok st.
Proof. unfold ingest_new_objects. by intros ->. Qed.
End ingestion.



(** ** Token-count extraction *)

Section token_extraction.
Import Parser Workflow.
Variable int_of_str : string -> option Z.
Variable fromisoformat : string -> option Z.

Local Abbreviation primary record field sub :=
  (nested_get record field sub ≫= _safe_int int_of_str) (only parsing).




Lemma note_token_counts_spec i o fb w :
  missing_token_counts (note_token_counts i o fb w)
  = missing_token_counts w + (if fb || ((i =? 0) && (o =? 0)) then 1 else 0) /\
  records_skipped (note_token_counts i o fb w) = records_skipped w /\
  unpriced_models (note_token_counts i o fb w) = unpriced_models w /\
  partial_pricing_models (note_token_counts i o fb w) = partial_pricing_models w /\
  verification_errors (note_token_counts i o fb w) = verification_errors w.
Proof.
  unfold note_token_counts. destruct (fb || _); simpl; repeat split; lia.
Qed.

End token_extraction.



(** * Further properties *)

(** ** [Metrics.merge], entry by entry *)

Lemma od_keys_upsert_list {K} `{EqDecision K} {V} (k : K) (f : V -> V) v0 (d : list (K * V)) :
  od_keys (od_upsert k f v0 d)
  = if decide (k ∈ od_keys d) then od_keys d else od_keys d ++ [k].
Proof.
  unfold od_keys. induction d as [|[k' v] d IH].
  - cbn [od_upsert map fst]. case_decide as Hin; [by apply elem_of_nil in Hin|done].
  - cbn [od_upsert map fst]. destruct (decide (k = k')) as [->|Hne]; cbn [map fst].
    + rewrite decide_True; [done|]. apply list_elem_of_here.
    + rewrite IH. destruct (decide (k ∈ map fst d)) as [Hin|Hnin].
      * rewrite decide_True; [done|]. by apply list_elem_of_further.
      * rewrite decide_False; [done|]. rewrite elem_of_cons. naive_solver.
Qed.

Lemma od_get_None_keys {K} `{EqDecision K} {V} (k : K) (d : list (K * V)) :
  od_get k d = None <-> k ∉ od_keys d.
Proof.
  rewrite <- od_mem_keys. unfold od_mem. destruct (od_get k d); naive_solver.
Qed.

Lemma merge_stats_lookup {K} `{EqDecision K} (k : K) (self other : list (K * TokenStats)) :
  keyed_once other ->
  od_get k (merge_stats self other) = merged_entry (od_get k self) (od_get k other).
Proof.
  unfold merge_stats, keyed_once. revert self.
  induction other as [|[k0 s0] other IH]; intros self Hnd; [done|].
  change (od_keys ((k0, s0) :: other)) with (k0 :: od_keys other) in Hnd.
  apply NoDup_cons in Hnd as [Hk0 Hnd]. cbn [foldl fst snd od_get]. rewrite IH by done.
  destruct (decide (k = k0)) as [->|Hne].
  - apply od_get_None_keys in Hk0. rewrite Hk0. simpl. by rewrite od_get_upsert_eq.
  - by rewrite od_get_upsert_ne by congruence.
Qed.

Lemma filter_agree {A} (P Q : A -> Prop) `{!forall x, Decision (P x)}
    `{!forall x, Decision (Q x)} (l : list A) :
  (forall x, x ∈ l -> P x <-> Q x) -> filter P l = filter Q l.
Proof.
  induction l as [|x l IH]; intros Hag; [done|].
  rewrite !filter_cons. rewrite IH by (intros y Hy; apply Hag; by apply list_elem_of_further).
  specialize (Hag x (list_elem_of_here _ _)).
  destruct (decide (P x)), (decide (Q x)); tauto.
Qed.

Lemma merge_stats_keys {K} `{EqDecision K} (self other : list (K * TokenStats)) :
  keyed_once other ->
  od_keys (merge_stats self other) = merged_keys (od_keys self) (od_keys other).
Proof.
  unfold merge_stats, keyed_once, merged_keys. revert self.
  induction other as [|[k0 s0] other IH]; intros self Hnd.
  - cbn [foldl od_keys map]. by rewrite filter_nil, app_nil_r.
  - change (od_keys ((k0, s0) :: other)) with (k0 :: od_keys other) in *.
    apply NoDup_cons in Hnd as [Hk0 Hnd]. cbn [foldl fst snd]. rewrite IH by done.
    rewrite od_keys_upsert_list, filter_cons.
    destruct (decide (k0 ∈ od_keys self)) as [Hin|Hnin].
    + by rewrite decide_False by tauto.
    + rewrite decide_True by done. rewrite <- app_assoc. simpl. do 2 f_equal.
      apply filter_agree. intros k Hk. rewrite elem_of_app, list_elem_of_singleton.
      split; [tauto|]. intros Hks [?| ->]; done.
Qed.

(** X1. [merge], entry by entry. Under every key the merged map holds the
    receiver's entry with the incoming input and output counts added (to a
    fresh entry when the receiver had none; the incoming [total_tokens] and
    cost are not read), and an entry the incoming operand lacks stays as it
    was. The merged keys are the receiver's in their order, followed by
    the incoming keys the receiver did not hold, in the incoming order. This
    holds of the three dimension maps and of the granular map. *)
Theorem merge_adds_entries (a b : Metrics)
    (Hr : keyed_once (by_region b)) (Hi : keyed_once (by_identity b))
    (Hm : keyed_once (by_model b)) (Hu : keyed_once (by_usage_key b)) :
  (forall k, od_get k (by_region (merge a b))
             = merged_entry (od_get k (by_region a)) (od_get k (by_region b))) /\
  (forall k, od_get k (by_identity (merge a b))
             = merged_entry (od_get k (by_identity a)) (od_get k (by_identity b))) /\
  (forall k, od_get k (by_model (merge a b))
             = merged_entry (od_get k (by_model a)) (od_get k (by_model b))) /\
  (forall k, od_get k (by_usage_key (merge a b))
             = merged_entry (od_get k (by_usage_key a)) (od_get k (by_usage_key b))) /\
  od_keys (by_region (merge a b))
    = merged_keys (od_keys (by_region a)) (od_keys (by_region b)) /\
  od_keys (by_identity (merge a b))
    = merged_keys (od_keys (by_identity a)) (od_keys (by_identity b)) /\
  od_keys (by_model (merge a b))
    = merged_keys (od_keys (by_model a)) (od_keys (by_model b)) /\
  od_keys (by_usage_key (merge a b))
    = merged_keys (od_keys (by_usage_key a)) (od_keys (by_usage_key b)).
Proof.
  unfold merge; cbn [by_region by_identity by_model by_usage_key].
  repeat split; intros; by (apply merge_stats_lookup || apply merge_stats_keys).
Qed.

Lemma merge_adds_entries_witness :
  keyed_once (by_region Examples.run1_metrics) /\
  od_get "us-east-2"%string (by_region (merge Examples.run2_new Examples.run1_metrics))
  = Some (mkTokenStats 227598 422585 650183 0%float).
Proof.
  split; [apply NoDup_singleton|].
  destruct (merge_adds_entries Examples.run2_new Examples.run1_metrics) as (H & _).
  1-4: apply NoDup_singleton.
  rewrite H. reflexivity.
Defined.

(** ** [merge] and the self-check *)

Lemma sum_of_merge_stats {K} `{EqDecision K} (self other : list (K * TokenStats)) :
  sum_of input_tokens (merge_stats self other)
    = sum_of input_tokens self + sum_of input_tokens other /\
  sum_of output_tokens (merge_stats self other)
    = sum_of output_tokens self + sum_of output_tokens other.
Proof.
  unfold merge_stats. revert self.
  induction other as [|[k0 s0] other IH]; intros self.
  - unfold sum_of at 3 6. simpl. lia.
  - cbn [foldl fst snd]. destruct (IH (od_upsert k0
      (fun s => TokenStats_add s (input_tokens s0) (output_tokens s0) 0%float)
      TokenStats0 self)) as [Hi Ho].
    rewrite Hi, Ho.
    rewrite (sum_of_upsert input_tokens k0 _ (input_tokens s0)),
      (sum_of_upsert output_tokens k0 _ (output_tokens s0)) by done.
    unfold sum_of, od_values, sum_Z. simpl. lia.
Qed.

Lemma counts_verified_iff (m : Metrics) :
  counts_verified m <->
  input_tokens (totals m) = sum_of input_tokens (by_region m) /\
  output_tokens (totals m) = sum_of output_tokens (by_region m) /\
  input_tokens (totals m) = sum_of input_tokens (by_identity m) /\
  output_tokens (totals m) = sum_of output_tokens (by_identity m) /\
  consistent (totals m).
Proof.
  unfold counts_verified, token_counts, consistent.
  destruct (sum_stats_tokens (by_region m)) as (-> & -> & ->).
  destruct (sum_stats_tokens (by_identity m)) as (-> & -> & ->).
  split.
  - intros [[= -> -> ->] [= Hi Ho _]]. repeat split; lia.
  - intros (Hri & Hro & Hii & Hio & Hc). rewrite Hc, <- Hri, <- Hro, <- Hii, <- Hio. done.
Qed.

Lemma aggregated_counts_verified (m : Metrics) : aggregated m -> counts_verified m.
Proof.
  intros ((Hri & Hro & _) & (Hii & Hio & _) & _ & _ & Hc).
  apply counts_verified_iff. done.
Qed.

(** X2. The self-check survives a merge. When the three integer
    comparisons of the check hold of two [Metrics] (as they do of every
    value built by [add_usage] calls on a fresh one), they hold of their
    merge, in whichever order; so [load_snapshot_node] hands the check a
    consistent aggregate whenever the run's own aggregate and the one read
    from the snapshot are consistent. For a value on which the comparisons
    hold, [_stats_equal] is decided by the cost comparison alone. *)
Theorem merge_keeps_counts_verified (a b : Metrics)
    (Ha : counts_verified a) (Hb : counts_verified b) :
  counts_verified (merge a b) /\
  (forall calls, counts_verified (add_usages calls)) /\
  (forall force snapshot existing m,
     ReportStore.load_metrics_from_snapshot snapshot = Ok (Some existing) ->
     counts_verified existing ->
     Workflow.load_snapshot_node force (Some snapshot) a = Ok m ->
     counts_verified m) /\
  Workflow._stats_equal (totals (merge a b)) (Workflow._sum_stats (by_region (merge a b)))
    = (abs (cost_usd (totals (merge a b))
            - cost_usd (Workflow._sum_stats (by_region (merge a b)))) <? 0.0001)%float.
Proof.
  assert (Hmerge : forall x y, counts_verified x -> counts_verified y ->
                     counts_verified (merge x y)).
  { intros x y Hx Hy. apply counts_verified_iff in Hx as (Hx1 & Hx2 & Hx3 & Hx4 & Hx5).
    apply counts_verified_iff in Hy as (Hy1 & Hy2 & Hy3 & Hy4 & Hy5).
    apply counts_verified_iff. unfold merge, consistent in *.
    cbn [totals by_region by_identity].
    destruct (sum_of_merge_stats (by_region x) (by_region y)) as [-> ->].
    destruct (sum_of_merge_stats (by_identity x) (by_identity y)) as [-> ->].
    simpl. lia. }
  split; [by apply Hmerge|]. split; [|split].
  - intros calls. apply aggregated_counts_verified.
    apply aggregated_add_usages_from, aggregated_empty.
  - intros force snapshot existing m Hload Hex. unfold Workflow.load_snapshot_node.
    destruct force; [by intros [= <-]|].
    destruct snapshot as [| | | | | |top]; try (by intros [= <-]); try done.
    destruct (negb _); [by intros [= <-]|].
    rewrite Hload. simpl. intros [= <-]. by apply Hmerge.
  - specialize (Hmerge a b Ha Hb). destruct Hmerge as [Hr _].
    remember (merge a b) as m eqn:Em. clear Em.
    remember (Workflow._sum_stats (by_region m)) as t eqn:Et. clear Et.
    unfold token_counts in Hr. injection Hr as Hi Ho Ht.
    unfold Workflow._stats_equal. rewrite <- Hi, <- Ho, <- Ht, !Z.eqb_refl. done.
Qed.

Lemma merge_keeps_counts_verified_witness :
  counts_verified Examples.run2_new /\ counts_verified Examples.run1_metrics /\
  counts_verified (merge Examples.run2_new Examples.run1_metrics).
Proof.
  assert (H1 : counts_verified Examples.run2_new) by (split; reflexivity).
  assert (H2 : counts_verified Examples.run1_metrics) by (split; reflexivity).
  split; [exact H1|]. split; [exact H2|].
  exact (proj1 (merge_keeps_counts_verified _ _ H1 H2)).
Defined.

(** ** The map from normalized to original model identifiers *)

Lemma od_get_snoc {V} (k k0 : string) (v : V) (d : list (string * V)) :
  od_get k (d ++ [(k0, v)])
  = match od_get k d with
    | Some o => Some o
    | None => if decide (k = k0) then Some v else None
    end.
Proof.
  induction d as [|[k1 o1] d IH]; simpl; [done|].
  destruct (decide (k = k1)); [done|apply IH].
Qed.

Lemma merge_model_id_map_lookup (k : string) (self other : list (string * string)) :
  od_get k (merge_model_id_map self other)
  = match od_get k self with
    | Some o => Some o
    | None => od_get k other
    end.
Proof.
  unfold merge_model_id_map. revert self.
  induction other as [|[k0 o0] other IH]; intros self; cbn [foldl fst snd].
  - by destruct (od_get k self).
  - rewrite IH. cbn [od_get]. unfold od_mem.
    destruct (od_get k0 self) as [o|] eqn:E0.
    + destruct (od_get k self) as [o'|] eqn:E; [done|].
      destruct (decide (k = k0)) as [->|]; [congruence|done].
    + rewrite od_get_snoc. destruct (od_get k self) as [o'|]; [done|].
      by destruct (decide (k = k0)).
Qed.

(** X3. The first original identifier recorded for a normalized model is
    the one kept. [add_usage] never changes a mapping that exists; for a
    model without one it records the original identifier given, when that
    is a non-empty text, and nothing otherwise; the mappings of other
    models are untouched. [merge] keeps every mapping of the receiver and
    takes from the incoming operand only the models the receiver does not
    map. So the identifier [apply_pricing] looks a model up under is the
    one of the first record seen for it. *)
Theorem model_id_map_first_wins :
  (forall m region ident model_id inp out c orig k o,
     od_get k (model_id_map m) = Some o ->
     od_get k (model_id_map (add_usage m region ident model_id inp out c orig)) = Some o) /\
  (forall m region ident model_id inp out c orig,
     od_get model_id (model_id_map m) = None ->
     od_get model_id (model_id_map (add_usage m region ident model_id inp out c orig))
     = if str_truthy orig then orig else None) /\
  (forall m region ident model_id inp out c orig k,
     k <> model_id ->
     od_get k (model_id_map (add_usage m region ident model_id inp out c orig))
     = od_get k (model_id_map m)) /\
  (forall a b k,
     od_get k (model_id_map (merge a b))
     = match od_get k (model_id_map a) with
       | Some o => Some o
       | None => od_get k (model_id_map b)
       end) /\
  (forall a b k o,
     od_get k (model_id_map a) = Some o ->
     original_of (model_id_map (merge a b)) k = o) /\
  (forall m region ident model_id inp out c orig o,
     od_get model_id (model_id_map m) = Some o ->
     original_of (model_id_map (add_usage m region ident model_id inp out c orig)) model_id
     = o).
Proof.
  assert (Hadd : forall m region ident model_id inp out c orig k,
    od_get k (model_id_map (add_usage m region ident model_id inp out c orig))
    = match od_get k (model_id_map m) with
      | Some o => Some o
      | None => if decide (k = model_id)
                then (if str_truthy orig then orig else None) else None
      end).
  { intros m region ident model_id inp out c orig k. unfold add_usage; cbn [model_id_map].
    destruct orig as [o|]; [|simpl; destruct (od_get k (model_id_map m)); [done|]; by case_decide].
    unfold od_mem.
    destruct (str_truthy (Some o)) eqn:Ht; cbn [andb].
    - destruct (od_get model_id (model_id_map m)) as [o'|] eqn:Em; cbn [negb].
      + destruct (od_get k (model_id_map m)) eqn:Ek; [done|].
        case_decide; [congruence|done].
      + rewrite od_get_snoc. done.
    - destruct (od_get k (model_id_map m)); [done|]. by case_decide. }
  repeat split.
  - intros m region ident model_id inp out c orig k o Hk. by rewrite Hadd, Hk.
  - intros m region ident model_id inp out c orig Hk.
    by rewrite Hadd, Hk, decide_True.
  - intros m region ident model_id inp out c orig k Hne.
    rewrite Hadd. destruct (od_get k (model_id_map m)); [done|]. by rewrite decide_False.
  - intros a b k. apply merge_model_id_map_lookup.
  - intros a b k o Hk. unfold original_of, merge; cbn [model_id_map].
    by rewrite merge_model_id_map_lookup, Hk.
  - intros m region ident model_id inp out c orig o Hk. unfold original_of.
    by rewrite Hadd, Hk.
Qed.

(** ** Pricing again *)

Lemma price_entries_zeroed pricing idmap c0 entries acc :
  price_entries pricing idmap (od_map_values (set_cost c0) entries) acc
  = price_entries pricing idmap entries acc.
Proof.
  revert acc. induction entries as [|[[[region ident] model_id] stats] entries IH];
    intros acc; [done|].
  cbn [od_map_values map fst snd price_entries].
  change (map (fun kv => (kv.1, set_cost c0 kv.2)) entries)
    with (od_map_values (set_cost c0) entries).
  cbn [input_tokens output_tokens set_cost].
  unfold mbind, outcome_bind.
  destruct (compute_cost _ _ _) as [cost|]; [|done].
  destruct (or_raise KeyError (od_update region _ _)) as [br|]; [|done].
  destruct (or_raise KeyError (od_update ident _ _)) as [bi|]; [|done].
  destruct (or_raise KeyError (od_update model_id _ _)) as [bm|]; [|done].
  by rewrite IH.
Qed.

Lemma od_map_values_twice {K V} (g : V -> V) (d : list (K * V)) :
  (forall v, g (g v) = g v) -> od_map_values g (od_map_values g d) = od_map_values g d.
Proof.
  intros Hg. unfold od_map_values. rewrite map_map. apply map_ext. intros [k v]. simpl.
  by rewrite Hg.
Qed.

Lemma apply_pricing_drop_costs self pricing w :
  apply_pricing (drop_costs self) pricing w = apply_pricing self pricing w.
Proof.
  unfold apply_pricing, drop_costs.
  cbn [totals by_region by_identity by_model by_usage_key model_id_map].
  rewrite price_entries_zeroed, !od_map_values_twice by done. done.
Qed.

Lemma od_update_zeroed {K} `{EqDecision K} (k : K) c (d d' : list (K * TokenStats)) :
  od_update k (add_cost c) d = Some d' ->
  od_map_values (set_cost 0%float) d' = od_map_values (set_cost 0%float) d.
Proof.
  revert d'. induction d as [|[k0 v] d IH]; intros d'; simpl; [done|].
  destruct (decide (k = k0)).
  - by intros [= <-].
  - destruct (od_update k (add_cost c) d) as [d0|]; [|done].
    simpl. intros [= <-]. simpl. f_equal. by apply IH.
Qed.

Lemma price_entries_zero_view pricing idmap entries acc priced acc' :
  price_entries pricing idmap entries acc = Ok (priced, acc') ->
  od_map_values (set_cost 0%float) priced = od_map_values (set_cost 0%float) entries /\
  set_cost 0%float (r_totals acc') = set_cost 0%float (r_totals acc) /\
  od_map_values (set_cost 0%float) (r_by_region acc')
    = od_map_values (set_cost 0%float) (r_by_region acc) /\
  od_map_values (set_cost 0%float) (r_by_identity acc')
    = od_map_values (set_cost 0%float) (r_by_identity acc) /\
  od_map_values (set_cost 0%float) (r_by_model acc')
    = od_map_values (set_cost 0%float) (r_by_model acc).
Proof.
  revert acc priced acc'.
  induction entries as [|[[[region ident] model_id] stats] entries IH];
    intros acc priced acc'; cbn [price_entries].
  - by intros [= <- <-].
  - unfold mbind, outcome_bind.
    destruct (compute_cost _ _ _) as [cost|]; [|done].
    destruct (or_raise KeyError (od_update region _ _)) as [br|] eqn:Hbr; [|done].
    destruct (or_raise KeyError (od_update ident _ _)) as [bi|] eqn:Hbi; [|done].
    destruct (or_raise KeyError (od_update model_id _ _)) as [bm|] eqn:Hbm; [|done].
    apply or_raise_Ok in Hbr, Hbi, Hbm.
    destruct (price_entries _ _ entries _) as [[rest' acc1]|] eqn:Hrest; [|done].
    intros [= <- <-].
    destruct (IH _ _ _ Hrest) as (Hp & Ht & Hr & Hi & Hm).
    cbn [r_totals r_by_region r_by_identity r_by_model] in Ht, Hr, Hi, Hm.
    rewrite Ht, Hr, Hi, Hm.
    rewrite (od_update_zeroed _ _ _ _ Hbr), (od_update_zeroed _ _ _ _ Hbi),
      (od_update_zeroed _ _ _ _ Hbm).
    split; [|done]. cbn [od_map_values map fst snd]. f_equal. exact Hp.
Qed.

Lemma price_entries_warnings_free pricing idmap entries t br bi bm w priced acc' :
  price_entries pricing idmap entries (mkRollup t br bi bm w) = Ok (priced, acc') ->
  r_warnings acc' = noted_rates pricing idmap entries w /\
  forall w2,
    price_entries pricing idmap entries (mkRollup t br bi bm w2)
    = Ok (priced, mkRollup (r_totals acc') (r_by_region acc') (r_by_identity acc')
                    (r_by_model acc') (noted_rates pricing idmap entries w2)).
Proof.
  revert t br bi bm w priced acc'.
  induction entries as [|[[[region ident] model_id] stats] entries IH];
    intros t br bi bm w priced acc'; cbn [price_entries].
  - by intros [= <- <-].
  - cbn [r_totals r_by_region r_by_identity r_by_model r_warnings].
    unfold mbind, outcome_bind.
    destruct (compute_cost _ _ _) as [cost|]; [|done].
    destruct (or_raise KeyError (od_update region _ _)) as [br1|]; [|done].
    destruct (or_raise KeyError (od_update ident _ _)) as [bi1|]; [|done].
    destruct (or_raise KeyError (od_update model_id _ _)) as [bm1|]; [|done].
    destruct (price_entries _ _ entries _) as [[rest' acc1]|] eqn:Hrest; [|done].
    intros [= <- <-].
    destruct (IH _ _ _ _ _ _ _ Hrest) as [Hw Hany].
    split; [exact Hw|]. intros w2. by rewrite Hany.
Qed.

Lemma note_rate_idem model_id rate w :
  note_rate model_id rate (note_rate model_id rate w) = note_rate model_id rate w.
Proof.
  destruct w as [u p m s v]. destruct rate as [r|]; simpl.
  - destruct (missing_input r || missing_output r) eqn:E; simpl; rewrite ?E; simpl; [|done].
    unfold add_partial; simpl. f_equal. set_solver.
  - unfold add_unpriced; simpl. f_equal. set_solver.
Qed.

Lemma note_rate_comm m1 r1 m2 r2 w :
  note_rate m1 r1 (note_rate m2 r2 w) = note_rate m2 r2 (note_rate m1 r1 w).
Proof.
  destruct w as [u p m s v].
  destruct r1 as [r1|], r2 as [r2|]; simpl;
    repeat match goal with |- context [missing_input ?r || missing_output ?r] =>
      destruct (missing_input r || missing_output r) end;
    unfold add_partial, add_unpriced; simpl; f_equal; set_solver.
Qed.

Lemma noted_rates_cons pricing idmap kv entries w :
  noted_rates pricing idmap (kv :: entries) w
  = noted_rates pricing idmap entries
      (note_rate (key_model (fst kv)) (rate_of pricing idmap (fst kv)) w).
Proof. reflexivity. Qed.

Lemma noted_rates_note pricing idmap entries m r w :
  noted_rates pricing idmap entries (note_rate m r w)
  = note_rate m r (noted_rates pricing idmap entries w).
Proof.
  unfold noted_rates. revert w. induction entries as [|kv entries IH]; intros w; [done|].
  cbn [foldl]. by rewrite note_rate_comm, IH.
Qed.

Lemma noted_rates_idem pricing idmap entries w :
  noted_rates pricing idmap entries (noted_rates pricing idmap entries w)
  = noted_rates pricing idmap entries w.
Proof.
  revert w. induction entries as [|kv entries IH]; intros w; [done|].
  rewrite !noted_rates_cons.
  by rewrite noted_rates_note, IH, !noted_rates_note, note_rate_idem.
Qed.

Lemma od_map_values_upsert_view {K} `{EqDecision K} (g f : TokenStats -> TokenStats)
    (k : K) (d1 d2 : list (K * TokenStats)) :
  (forall v v', g v = g v' -> g (f v) = g (f v')) ->
  od_map_values g d1 = od_map_values g d2 ->
  od_map_values g (od_upsert k f TokenStats0 d1) = od_map_values g (od_upsert k f TokenStats0 d2).
Proof.
  intros Hgf. revert d2. induction d1 as [|[k1 v1] d1 IH]; intros [|[k2 v2] d2]; try done.
  unfold od_map_values. cbn [map fst snd od_upsert]. intros [= -> Hv Hd].
  destruct (decide (k = k2)); cbn [map fst snd]; f_equal.
  - f_equal. by apply Hgf.
  - exact Hd.
  - by rewrite Hv.
  - by apply IH.
Qed.

Lemma merge_stats_zero_view {K} `{EqDecision K} (d1 d2 other : list (K * TokenStats)) :
  od_map_values (set_cost 0%float) d1 = od_map_values (set_cost 0%float) d2 ->
  od_map_values (set_cost 0%float) (merge_stats d1 other)
  = od_map_values (set_cost 0%float) (merge_stats d2 other).
Proof.
  unfold merge_stats. revert d1 d2.
  induction other as [|[k0 s0] other IH]; intros d1 d2 Hd; [done|].
  cbn [foldl fst snd]. apply IH. apply od_map_values_upsert_view; [|done].
  intros v v' [= Hi Ho Ht]. unfold set_cost, TokenStats_add; simpl. by rewrite Hi, Ho, Ht.
Qed.

(** X4. [apply_pricing] reads no cost. Its result is the same on a
    [Metrics] with every cost zeroed beforehand, so two aggregates with the
    same keys, token counts and identifier map price alike; the costs the
    receiver of a [merge] carried do not reach the priced result either.
    Pricing again what was just priced, with the same rates and the warnings
    the first pass returned, changes nothing: costs are recomputed, not
    accumulated, and no warning is added twice. *)
Theorem apply_pricing_forgets_costs :
  (forall self pricing w,
     apply_pricing (drop_costs self) pricing w = apply_pricing self pricing w) /\
  (forall m1 m2 pricing w,
     drop_costs m1 = drop_costs m2 ->
     apply_pricing m1 pricing w = apply_pricing m2 pricing w) /\
  (forall a b pricing w,
     apply_pricing (merge (drop_costs a) b) pricing w
     = apply_pricing (merge a b) pricing w) /\
  (forall self pricing w m' w',
     apply_pricing self pricing w = Ok (m', w') ->
     apply_pricing m' pricing w' = Ok (m', w')).
Proof.
  assert (Hsame : forall m1 m2 pricing w,
    drop_costs m1 = drop_costs m2 ->
    apply_pricing m1 pricing w = apply_pricing m2 pricing w).
  { intros m1 m2 pricing w H.
    by rewrite <- (apply_pricing_drop_costs m1), <- (apply_pricing_drop_costs m2), H. }
  split; [exact apply_pricing_drop_costs|]. split; [exact Hsame|]. split.
  - intros a b pricing w. apply Hsame. unfold drop_costs, merge.
    cbn [totals by_region by_identity by_model by_usage_key model_id_map].
    f_equal; apply merge_stats_zero_view, od_map_values_twice; done.
  - intros self pricing w m' w' H.
    destruct (apply_pricing_Ok _ _ _ _ _ H) as (acc & Hloop & Hm & Hw).
    destruct (price_entries_zero_view _ _ _ _ _ _ Hloop) as (Hp & Ht & Hr & Hi & Hmo).
    cbn [r_totals r_by_region r_by_identity r_by_model] in Ht, Hr, Hi, Hmo.
    destruct (price_entries_warnings_free _ _ _ _ _ _ _ _ _ _ Hloop) as [Hnoted Hany].
    assert (Hdrop : drop_costs m' = drop_costs self).
    { rewrite Hm. unfold drop_costs.
      cbn [totals by_region by_identity by_model by_usage_key model_id_map].
      rewrite Hp, Ht, Hr, Hi, Hmo.
      rewrite !od_map_values_twice by done. done. }
    rewrite (Hsame m' self pricing w' Hdrop).
    unfold apply_pricing. rewrite Hany. unfold mbind, outcome_bind.
    rewrite Hw, Hnoted, noted_rates_idem, <- Hnoted. cbn [r_warnings].
    rewrite Hm at 2. done.
Qed.

(** ** What ingestion does to the state *)

Lemma text_or_nonempty e v fallback s :
  Workflow.text_or e v fallback = Ok s -> fallback <> EmptyString -> s <> EmptyString.
Proof.
  unfold Workflow.text_or. destruct (truthy v) eqn:Ht.
  - destruct v; try done. intros [= <-]. simpl in Ht. by destruct s0.
  - by intros [= <-].
Qed.

Section ingestion_effect.
Import Workflow Manifest.
Variable isoformat : Z -> string.
Variable int_of_str : string -> option Z.
Variable fromisoformat : string -> option Z.
Variable records_of : string -> outcome (list json).

Lemma ingest_effect_refl region st : ingest_effect region st st [] 0 0 0.
Proof. unfold ingest_effect. simpl. repeat split; try lia. constructor. Qed.

Lemma ingest_effect_trans region st0 st1 st2 c1 c2 p1 p2 s1 s2 m1 m2 :
  ingest_effect region st0 st1 c1 p1 s1 m1 ->
  ingest_effect region st1 st2 c2 p2 s2 m2 ->
  ingest_effect region st0 st2 (c1 ++ c2) (p1 + p2) (s1 + s2) (m1 + m2).
Proof.
  unfold ingest_effect.
  intros (Hm1 & Hf1 & Hp1 & Hu1 & Hs1 & Hmi1 & ? & ? & ? & Hl1 & Hfi1 & Hun1 & Hpa1 & Hv1)
         (Hm2 & Hf2 & Hp2 & Hu2 & Hs2 & Hmi2 & ? & ? & ? & Hl2 & Hfi2 & Hun2 & Hpa2 & Hv2).
  rewrite Hm2, Hm1, Hp2, Hp1, Hu2, Hu1, Hs2, Hs1, Hmi2, Hmi1, Hl2, Hl1, Hfi2, Hfi1,
    Hun2, Hun1, Hpa2, Hpa1, Hv2, Hv1, foldl_app, length_app.
  repeat split; try lia. by apply Forall_app.
Qed.

Lemma ingest_record_effect region report_start report_end st record st' :
  ingest_record int_of_str fromisoformat region report_start report_end st record = Ok st' ->
  exists calls skipped missing,
    ingest_effect region st st' calls 1 skipped missing /\ (length calls <= 1)%nat.
Proof.
  unfold ingest_record, mbind, outcome_bind.
  destruct (Parser.parse_timestamp _ _) as [[ts|]|]; [| |done].
  - destruct (negb _).
    { intros [= <-]. exists [], 0, 0. split; [|simpl; lia].
      unfold ingest_effect; simpl. repeat split; try lia. constructor. }
    destruct (Parser.extract_token_counts _ _) as [[[i o] fb]|]; [|done].
    destruct (attr_get record "modelId") as [raw_model|]; [|done].
    destruct (text_or TypeError raw_model _) as [orig|] eqn:Horig; [|done].
    destruct (nested_get record "identity" "arn") as [raw_arn|]; [|done].
    destruct (text_or Untyped raw_arn _) as [ident|] eqn:Hident; [|done].
    destruct (attr_get record "region") as [raw_region|]; [|done].
    destruct (text_or Untyped raw_region _) as [rr|] eqn:Hrr; [|done].
    intros [= <-].
    exists [mkUsageCall rr ident (Parser.normalize_model_id orig) i o 0%float (Some orig)],
      0, (if fb || ((i =? 0) && (o =? 0)) then 1 else 0).
    split; [|simpl; lia].
    destruct (note_token_counts_spec i o fb (warnings st)) as (Hmi & Hs & Hun & Hpa & Hv).
    unfold ingest_effect. cbn [metrics warnings stats current_manifest].
    rewrite Hmi, Hs, Hun, Hpa, Hv. simpl.
    repeat split; try lia; try (destruct (fb || _); lia).
    constructor; [|constructor]. unfold ingested_call; simpl.
    split; [done|]. split; [by eapply text_or_nonempty|].
    split; [intros Hr; by eapply text_or_nonempty|].
    exists orig. split; [done|]. split; [by eapply text_or_nonempty|done].
  - intros [= <-]. exists [], 1, 0. split; [|simpl; lia].
    unfold ingest_effect; simpl. repeat split; try lia. constructor.
Qed.

Lemma ingest_records_effect region report_start report_end records :
  forall st st',
    ingest_records int_of_str fromisoformat region report_start report_end st records
      = Ok st' ->
    exists calls skipped missing,
      ingest_effect region st st' calls (Z.of_nat (length records)) skipped missing.
Proof.
  induction records as [|record records IH]; intros st st'; cbn [ingest_records].
  - intros [= <-]. exists [], 0, 0. apply ingest_effect_refl.
  - unfold mbind, outcome_bind.
    destruct (ingest_record _ _ _ _ _ st record) as [st1|] eqn:H1; [|done].
    intros H. destruct (ingest_record_effect _ _ _ _ _ _ H1) as (c1 & s1 & m1 & E1 & _).
    destruct (IH _ _ H) as (c2 & s2 & m2 & E2).
    exists (c1 ++ c2), (s1 + s2), (m1 + m2).
    replace (Z.of_nat (length (record :: records))) with (1 + Z.of_nat (length records))
      by (simpl; lia).
    eapply ingest_effect_trans; eassumption.
Qed.

Lemma ingest_record_objects_processed region report_start report_end st record st' :
  ingest_record int_of_str fromisoformat region report_start report_end st record = Ok st' ->
  objects_processed (stats st') = objects_processed (stats st).
Proof.
  unfold ingest_record, mbind, outcome_bind.
  destruct (Parser.parse_timestamp _ _) as [[ts|]|]; [| |done].
  - destruct (negb _); [by intros [= <-]|].
    destruct (Parser.extract_token_counts _ _) as [[[i o] fb]|]; [|done].
    destruct (attr_get record "modelId") as [raw_model|]; [|done].
    destruct (text_or TypeError raw_model _) as [orig|]; [|done].
    destruct (nested_get record "identity" "arn") as [raw_arn|]; [|done].
    destruct (text_or Untyped raw_arn _) as [ident|]; [|done].
    destruct (attr_get record "region") as [raw_region|]; [|done].
    destruct (text_or Untyped raw_region _) as [rr|]; [|done].
    by intros [= <-].
  - by intros [= <-].
Qed.

Lemma ingest_records_objects_processed region report_start report_end records :
  forall st st',
    ingest_records int_of_str fromisoformat region report_start report_end st records
      = Ok st' ->
    objects_processed (stats st') = objects_processed (stats st).
Proof.
  induction records as [|record records IH]; intros st st'; cbn [ingest_records].
  - by intros [= <-].
  - unfold mbind, outcome_bind.
    destruct (ingest_record _ _ _ _ _ st record) as [st1|] eqn:H1; [|done].
    intros H. rewrite (IH _ _ H). eapply ingest_record_objects_processed, H1.
Qed.

Lemma ingest_objects_effect region report_start report_end now objects :
  forall st st',
    ingest_objects_node isoformat int_of_str fromisoformat records_of region
      report_start report_end now st objects = Ok st' ->
    exists batches calls skipped missing,
      Forall2 (fun obj records => records_of (key obj) = Ok records) objects batches /\
      ingest_effect region st st' calls (Z.of_nat (length (concat batches))) skipped missing /\
      objects_processed (stats st')
        = objects_processed (stats st) + Z.of_nat (length objects).
Proof.
  induction objects as [|obj objects IH]; intros st st'; cbn [ingest_objects_node].
  - intros [= <-]. exists [], [], 0, 0. split; [constructor|].
    split; [apply ingest_effect_refl|simpl; lia].
  - unfold mbind, outcome_bind.
    destruct (records_of (key obj)) as [records|] eqn:Hrec; [|done].
    destruct (ingest_records _ _ _ _ _ _ records) as [st2|] eqn:H2; [|done].
    intros H. destruct (ingest_records_effect _ _ _ _ _ _ H2) as (c1 & s1 & m1 & E1).
    destruct (IH _ _ H) as (batches & c2 & s2 & m2 & HF & E2 & Hproc).
    exists (records :: batches), (c1 ++ c2), (s1 + s2), (m1 + m2).
    split; [by constructor|]. split.
    + cbn [concat]. rewrite length_app, Nat2Z.inj_add.
      eapply ingest_effect_trans; [|exact E2].
      revert E1. unfold ingest_effect. cbn [metrics warnings stats]. done.
    + rewrite Hproc. cbn [stats].
      rewrite (ingest_records_objects_processed _ _ _ _ _ _ H2). simpl. lia.
Qed.

Lemma covered_add_usages_from m calls :
  usage_keys_covered m -> usage_keys_covered (foldl call_add_usage m calls).
Proof.
  revert m. induction calls as [|c calls IH]; intros m Hm; simpl; [done|].
  apply IH, covered_add_usage, Hm.
Qed.

(** X5. Ingestion changes the aggregate through [add_usage] alone. When
    [ingest_objects_node] completes, the metrics it leaves are the metrics
    it found after a sequence of [add_usage] calls, as many as
    [records_used] grew by; every call carries cost [0.0], a non-empty
    identity, a non-empty original model identifier and that identifier's
    normalized form as the model, and a non-empty region when the region at
    hand is not empty. So the aggregate stays one whose [totals] are the
    sums of every dimension, the three integer comparisons of the self-check
    hold after it when they held before, and every granular key stays
    covered by the three dimension maps. *)
Theorem ingestion_is_add_usage region report_start report_end now objects st st'
    (Hrun : ingest_objects_node isoformat int_of_str fromisoformat records_of region
              report_start report_end now st objects = Ok st') :
  (exists calls,
     metrics st' = foldl call_add_usage (metrics st) calls /\
     Forall (ingested_call region) calls /\
     records_used (stats st') = records_used (stats st) + Z.of_nat (length calls)) /\
  (aggregated (metrics st) -> aggregated (metrics st') /\ counts_verified (metrics st')) /\
  (usage_keys_covered (metrics st) -> usage_keys_covered (metrics st')) /\
  (metrics st = Metrics0 ->
   exists calls, metrics st' = add_usages calls /\ Forall (ingested_call region) calls).
Proof.
  destruct (ingest_objects_effect _ _ _ _ _ _ _ Hrun)
    as (batches & calls & skipped & missing & _ & E & _).
  destruct E as (Hm & Hcalls & _ & Hused & _).
  split; [eauto|]. split; [|split].
  - intros Hagg. rewrite Hm.
    assert (aggregated (foldl call_add_usage (metrics st) calls))
      by by apply aggregated_add_usages_from.
    split; [done|by apply aggregated_counts_verified].
  - intros Hcov. rewrite Hm. by apply covered_add_usages_from.
  - intros H0. exists calls. rewrite Hm, H0. done.
Qed.

(** X6. The counters of a completed ingestion pass add up.
    [objects_processed] grows by the number of objects given, and
    [records_parsed] by the number of records these objects hold;
    [records_used] and [records_skipped] each grow, by no more together
    than [records_parsed] does (the rest being the records stamped outside
    the report day); [missing_token_counts] grows by no more than
    [records_used]. [objects_listed], [objects_filtered] and the three sets
    of warnings are left as they were. *)
Theorem ingestion_counters region report_start report_end now objects st st'
    (Hrun : ingest_objects_node isoformat int_of_str fromisoformat records_of region
              report_start report_end now st objects = Ok st') :
  exists batches : list (list json),
    Forall2 (fun obj records => records_of (key obj) = Ok records) objects batches /\
    objects_processed (stats st') = objects_processed (stats st) + Z.of_nat (length objects) /\
    records_parsed (stats st')
      = records_parsed (stats st) + Z.of_nat (length (concat batches)) /\
    records_used (stats st) <= records_used (stats st') /\
    records_skipped (warnings st) <= records_skipped (warnings st') /\
    (records_used (stats st') - records_used (stats st))
      + (records_skipped (warnings st') - records_skipped (warnings st))
      <= records_parsed (stats st') - records_parsed (stats st) /\
    0 <= missing_token_counts (warnings st') - missing_token_counts (warnings st)
      <= records_used (stats st') - records_used (stats st) /\
    objects_listed (stats st') = objects_listed (stats st) /\
    objects_filtered (stats st') = objects_filtered (stats st) /\
    unpriced_models (warnings st') = unpriced_models (warnings st) /\
    partial_pricing_models (warnings st') = partial_pricing_models (warnings st) /\
    verification_errors (warnings st') = verification_errors (warnings st).
Proof.
  destruct (ingest_objects_effect _ _ _ _ _ _ _ Hrun)
    as (batches & calls & skipped & missing & HF & E & Hproc).
  destruct E as (_ & _ & Hp & Hu & Hs & Hmi & ? & ? & ? & Hl & Hfi & Hun & Hpa & Hv).
  exists batches. rewrite Hp, Hu, Hs, Hmi.
  repeat split; try done; lia.
Qed.
End ingestion_effect.

Lemma ingestion_is_add_usage_witness :
  exists calls,
    Workflow.metrics DedupExamples.after_first_pass = add_usages calls /\
    Forall (ingested_call "us-east-1") calls.
Proof.
  refine (proj2 (proj2 (proj2
    (ingestion_is_add_usage DedupExamples.isoformat DedupExamples.int_of_str
       Calendar.strptime_datehour DedupExamples.records_of "us-east-1"
       ScanExamples.report_start ScanExamples.report_end ScanExamples.first_run_time
       [DedupExamples.obj_v1] DedupExamples.start_state DedupExamples.after_first_pass _))) _).
  - vm_compute. reflexivity.
  - reflexivity.
Defined.

Lemma ingestion_counters_witness :
  exists batches : list (list json),
    Forall2 (fun obj records => DedupExamples.records_of (key obj) = Ok records)
      [DedupExamples.obj_v1] batches /\
    Workflow.records_parsed (Workflow.stats DedupExamples.after_first_pass)
      = 0 + Z.of_nat (length (concat batches)).
Proof.
  destruct (ingestion_counters DedupExamples.isoformat DedupExamples.int_of_str
       Calendar.strptime_datehour DedupExamples.records_of "us-east-1"
       ScanExamples.report_start ScanExamples.report_end ScanExamples.first_run_time
       [DedupExamples.obj_v1] DedupExamples.start_state DedupExamples.after_first_pass)
    as (batches & HF & _ & Hp & _).
  - vm_compute. reflexivity.
  - exists batches. split; [exact HF|exact Hp].
Defined.

(** ** The report day as a half-open window *)

Section report_window.
Import Workflow.
Variable int_of_str : string -> option Z.
Variable fromisoformat : string -> option Z.

Lemma ingest_record_cases region report_start report_end st record st' :
  ingest_record int_of_str fromisoformat region report_start report_end st record = Ok st' ->
  exists stamp, Parser.parse_timestamp fromisoformat record = Ok stamp /\
    match stamp with
    | None =>
        metrics st' = metrics st /\
        records_used (stats st') = records_used (stats st) /\
        records_skipped (warnings st') = records_skipped (warnings st) + 1
    | Some ts =>
        records_skipped (warnings st') = records_skipped (warnings st) /\
        if (report_start <=? ts) && (ts <? report_end)
        then records_used (stats st') = records_used (stats st) + 1
        else metrics st' = metrics st /\
             records_used (stats st') = records_used (stats st) /\
             warnings st' = warnings st
    end.
Proof.
  unfold ingest_record, mbind, outcome_bind.
  destruct (Parser.parse_timestamp _ _) as [[ts|]|]; [| |done].
  - intros H. exists (Some ts). split; [done|]. revert H.
    destruct ((report_start <=? ts) && (ts <? report_end)); cbn [negb].
    + destruct (Parser.extract_token_counts _ _) as [[[i o] fb]|]; [|done].
      destruct (attr_get record "modelId") as [raw_model|]; [|done].
      destruct (text_or TypeError raw_model _) as [orig|]; [|done].
      destruct (nested_get record "identity" "arn") as [raw_arn|]; [|done].
      destruct (text_or Untyped raw_arn _) as [ident|]; [|done].
      destruct (attr_get record "region") as [raw_region|]; [|done].
      destruct (text_or Untyped raw_region _) as [rr|]; [|done].
      intros [= <-]. cbn [warnings stats records_used bump_used].
      split; [|done].
      by destruct (note_token_counts_spec i o fb (warnings st)) as (_ & -> & _).
    + by intros [= <-].
  - intros [= <-]. exists None. by split.
Qed.

(** X7. The report day is the half-open window from [report_start] to
    [report_end]. A record that [ingest_record] gets through is used (it
    adds one to [records_used]) exactly when its timestamp parses to an
    instant [ts] with [report_start <= ts < report_end]: a record stamped
    at [report_start] can be used, one stamped at [report_end] never is. It
    adds one to [records_skipped] exactly when it has no timestamp that
    parses. A record that is not used leaves the metrics as they were, and
    one stamped outside the window leaves the warnings as they were too. So
    under two windows that do not overlap (as those of two different report
    days) no record is used twice. *)
Theorem record_used_within_report_day :
  (forall region report_start report_end st record st',
     ingest_record int_of_str fromisoformat region report_start report_end st record = Ok st' ->
     (records_used (stats st') = records_used (stats st) + 1 <->
      exists ts, Parser.parse_timestamp fromisoformat record = Ok (Some ts) /\
                 report_start <= ts < report_end) /\
     (records_used (stats st') = records_used (stats st) + 1 \/
      (records_used (stats st') = records_used (stats st) /\ metrics st' = metrics st)) /\
     (records_skipped (warnings st') = records_skipped (warnings st) + 1 <->
      Parser.parse_timestamp fromisoformat record = Ok None) /\
     (forall ts, Parser.parse_timestamp fromisoformat record = Ok (Some ts) ->
        ~ (report_start <= ts < report_end) -> warnings st' = warnings st)) /\
  (forall region1 region2 start1 end1 start2 end2 st1 st2 record st1' st2',
     end1 <= start2 ->
     ingest_record int_of_str fromisoformat region1 start1 end1 st1 record = Ok st1' ->
     ingest_record int_of_str fromisoformat region2 start2 end2 st2 record = Ok st2' ->
     metrics st1' = metrics st1 \/ metrics st2' = metrics st2).
Proof.
  assert (Hcases := ingest_record_cases).
  split.
  - intros region report_start report_end st record st' H.
    destruct (Hcases _ _ _ _ _ _ H) as (stamp & Hts & Hst).
    destruct stamp as [ts|].
    + destruct Hst as [Hskip Hst].
      destruct ((report_start <=? ts) && (ts <? report_end)) eqn:Hin.
      * apply andb_true_iff in Hin as [?%Z.leb_le ?%Z.ltb_lt].
        split; [|split; [|split]].
        -- split; [|done]. intros _. exists ts. split; [done|lia].
        -- by left.
        -- rewrite Hskip, Hts. split; [lia|done].
        -- intros ts' Hts'. rewrite Hts in Hts'. injection Hts' as <-. lia.
      * destruct Hst as (Hm & Hu & Hw).
        split; [|split; [|split]].
        -- split; [lia|]. intros (ts' & Hts' & Hr). rewrite Hts in Hts'.
           injection Hts' as <-. apply andb_false_iff in Hin as [?%Z.leb_gt|?%Z.ltb_ge]; lia.
        -- by right.
        -- rewrite Hskip, Hts. split; [lia|done].
        -- done.
    + destruct Hst as (Hm & Hu & Hs). split; [|split; [|split]].
      * split; [lia|]. intros (ts' & Hts' & _). by rewrite Hts in Hts'.
      * by right.
      * by rewrite Hts.
      * intros ts' Hts'. by rewrite Hts in Hts'.
  - intros region1 region2 start1 end1 start2 end2 st1 st2 record st1' st2' Hsep H1 H2.
    destruct (Hcases _ _ _ _ _ _ H1) as (stamp1 & Hts1 & Hst1).
    destruct (Hcases _ _ _ _ _ _ H2) as (stamp2 & Hts2 & Hst2).
    rewrite Hts1 in Hts2. injection Hts2 as <-.
    destruct stamp1 as [ts|]; [|left; tauto].
    destruct Hst1 as [_ Hst1], Hst2 as [_ Hst2].
    destruct ((start1 <=? ts) && (ts <? end1)) eqn:Hin1; [|left; tauto].
    destruct ((start2 <=? ts) && (ts <? end2)) eqn:Hin2; [|right; tauto].
    apply andb_true_iff in Hin1 as [_ ?%Z.ltb_lt].
    apply andb_true_iff in Hin2 as [?%Z.leb_le _]. lia.
Qed.
End report_window.

(** ** Pruning the manifest *)

Section pruning.
Import Manifest.
Variable seen_instant : string -> outcome (option Z).

Local Abbreviation prune_step cutoff :=
  (fun (kv : string * gmap string string) (acc : outcome (gmap string (gmap string string))) =>
     rest ← acc;
     keep ← keep_entry seen_instant cutoff (snd kv);
     Ok (if keep : bool then <[fst kv := snd kv]> rest else rest)) (only parsing).

Lemma prune_fold_spec cutoff (l : list (string * gmap string string)) pruned :
  NoDup (l.*1) ->
  foldr (prune_step cutoff) (Ok ∅) l = Ok pruned ->
  forall k meta,
    pruned !! k = Some meta <->
    (k, meta) ∈ l /\ keep_entry seen_instant cutoff meta = Ok true.
Proof.
  revert pruned. induction l as [|[k0 m0] l IH]; intros pruned Hnd; cbn [foldr].
  - intros [= <-] k meta. rewrite lookup_empty, elem_of_nil. naive_solver.
  - rewrite fmap_cons in Hnd. apply NoDup_cons in Hnd as [Hk0 Hnd].
    unfold mbind, outcome_bind.
    destruct (foldr _ _ l) as [rest|] eqn:Hrest; [|done].
    specialize (IH rest Hnd eq_refl).
    cbn [fst snd].
    destruct (keep_entry seen_instant cutoff m0) as [[|]|] eqn:Hkeep; [| |done].
    + intros [= <-] k meta. rewrite elem_of_cons.
      destruct (decide (k = k0)) as [->|Hne].
      * rewrite lookup_insert_eq. split.
        -- intros [= <-]. split; [by left|done].
        -- intros [[[= <-]|Hin] _]; [done|].
           exfalso. apply Hk0. apply list_elem_of_fmap. by exists (k0, meta).
      * rewrite lookup_insert_ne by done. rewrite IH. naive_solver.
    + intros [= <-] k meta. rewrite IH, elem_of_cons. split; [naive_solver|].
      intros [[[= -> ->]|Hin] Hk]; [congruence|done].
Qed.

Lemma prune_fold_ok cutoff (l : list (string * gmap string string)) :
  is_ok (foldr (prune_step cutoff) (Ok ∅) l) <->
  forall kv, kv ∈ l -> is_ok (keep_entry seen_instant cutoff (snd kv)).
Proof.
  induction l as [|[k0 m0] l IH]; cbn [foldr].
  - split; [|done]. by intros _ kv ?%elem_of_nil.
  - unfold mbind, outcome_bind. setoid_rewrite elem_of_cons.
    destruct (foldr _ _ l) as [rest|] eqn:Hrest; cbn [fst snd].
    + destruct (keep_entry seen_instant cutoff m0) as [b|] eqn:Hkeep.
      * split; [|done]. intros _ kv [->|Hin]; [cbn [snd]; by rewrite Hkeep|].
        by apply (proj1 IH).
      * split; [done|]. intros H. specialize (H (k0, m0)). simpl in H.
        rewrite Hkeep in H. apply H. by left.
    + split; [done|]. intros H. apply IH. intros kv Hin. apply H. by right.
Qed.

Lemma keep_entry_true cutoff meta :
  keep_entry seen_instant cutoff meta = Ok true <->
  exists text seen,
    meta !! "seen_at"%string = Some text /\ text <> EmptyString /\
    seen_instant text = Ok (Some seen) /\ cutoff <= seen.
Proof.
  unfold keep_entry. destruct (meta !! "seen_at"%string) as [[|a rest]|] eqn:Hs.
  - split; [done|]. by intros (text & seen & [= <-] & ? & _).
  - unfold mbind, outcome_bind.
    destruct (seen_instant (String a rest)) as [[seen|]|] eqn:Hseen.
    + split.
      * intros [= ?%Z.leb_le]. exists (String a rest), seen. done.
      * intros (text & seen' & [= <-] & _ & Hs' & Hle).
        rewrite Hseen in Hs'. injection Hs' as <-. f_equal. by apply Z.leb_le.
    + split; [done|]. intros (text & seen' & [= <-] & _ & Hs' & _). congruence.
    + split; [done|]. intros (text & seen' & [= <-] & _ & Hs' & _). congruence.
  - split; [done|]. by intros (text & seen & ? & _).
Qed.

Lemma prune_manifest_spec manifest now manifest' :
  prune_manifest seen_instant manifest now = Ok manifest' ->
  manifest' = with_processed (processed manifest') manifest /\
  forall k meta,
    processed manifest' !! k = Some meta <->
    processed manifest !! k = Some meta /\
    keep_entry seen_instant (now - lookback_hours manifest * HOUR) meta = Ok true.
Proof.
  unfold prune_manifest, mbind, outcome_bind.
  destruct (foldr _ _ _) as [pruned|] eqn:Hfold; [|done].
  intros [= <-]. split; [done|]. intros k meta. cbn [processed with_processed].
  rewrite (prune_fold_spec _ _ _ (NoDup_fst_map_to_list _) Hfold k meta).
  by rewrite elem_of_map_to_list.
Qed.

(** X8. [prune_manifest] keeps exactly the recent entries. When it
    completes, the pruned [processed] map holds an entry under a key
    exactly when the map held that entry before and the entry has a
    non-empty [seen_at] text that parses to an instant no earlier than
    [now - lookback_hours]; entries are neither added nor altered, and the
    other fields of the manifest are left as they were. It completes
    exactly when the timestamp comparison fails for no entry. Pruning
    again at the same instant changes nothing. *)
Theorem prune_manifest_keeps_recent manifest now manifest'
    (Hprune : prune_manifest seen_instant manifest now = Ok manifest') :
  let cutoff := now - lookback_hours manifest * HOUR in
  (forall k meta,
     processed manifest' !! k = Some meta <->
     processed manifest !! k = Some meta /\
     exists text seen,
       meta !! "seen_at"%string = Some text /\ text <> EmptyString /\
       seen_instant text = Ok (Some seen) /\ cutoff <= seen) /\
  processed manifest' ⊆ processed manifest /\
  version manifest' = version manifest /\
  last_datehour manifest' = last_datehour manifest /\
  updated_at manifest' = updated_at manifest /\
  lookback_hours manifest' = lookback_hours manifest /\
  prune_manifest seen_instant manifest' now = Ok manifest' /\
  (forall m t,
     is_ok (prune_manifest seen_instant m t) <->
     forall k meta, processed m !! k = Some meta ->
       is_ok (keep_entry seen_instant (t - lookback_hours m * HOUR) meta)).
Proof.
  intros cutoff. destruct (prune_manifest_spec _ _ _ Hprune) as [Hm Hp].
  assert (Htotal : forall m t,
     is_ok (prune_manifest seen_instant m t) <->
     forall k meta, processed m !! k = Some meta ->
       is_ok (keep_entry seen_instant (t - lookback_hours m * HOUR) meta)).
  { intros m t. unfold prune_manifest, mbind, outcome_bind.
    pose proof (prune_fold_ok (t - lookback_hours m * HOUR) (map_to_list (processed m)))
      as Hok.
    destruct (foldr _ _ _) as [pruned|].
    - split; [|done]. intros _ k meta Hk.
      apply (proj1 Hok I (k, meta)). by apply elem_of_map_to_list.
    - split; [done|]. intros H. apply Hok. intros [k meta] Hin.
      apply (H k meta). by apply elem_of_map_to_list. }
  split; [|split; [|split; [|split; [|split; [|split; [|split]]]]]].
  - intros k meta. rewrite Hp. by rewrite keep_entry_true.
  - apply map_subseteq_spec. intros k meta Hk. by apply Hp in Hk as [? _].
  - by rewrite Hm.
  - by rewrite Hm.
  - by rewrite Hm.
  - by rewrite Hm.
  - assert (Hok : is_ok (prune_manifest seen_instant manifest' now)).
    { apply Htotal. intros k meta Hk. apply Hp in Hk as [_ Hk].
      rewrite Hm. cbn [lookback_hours with_processed]. by rewrite Hk. }
    destruct (prune_manifest seen_instant manifest' now) as [m2|] eqn:H2; [|done].
    destruct (prune_manifest_spec _ _ _ H2) as [Hm2 Hp2].
    assert (Hpp : processed m2 = processed manifest').
    { apply map_eq. intros k. apply option_eq. intros meta. rewrite Hp2.
      split; [tauto|]. intros Hk. split; [done|]. apply Hp in Hk as [_ Hk].
      rewrite Hm. cbn [lookback_hours with_processed]. exact Hk. }
    f_equal. rewrite Hm2, Hpp. by destruct manifest'.
  - exact Htotal.
Qed.
End pruning.

Lemma prune_manifest_keeps_recent_witness :
  Manifest.prune_manifest PruneExamples.seen_instant PruneExamples.manifest
    ScanExamples.first_run_time = Ok PruneExamples.pruned /\
  Manifest.processed PruneExamples.pruned ⊆ Manifest.processed PruneExamples.manifest.
Proof.
  assert (H : Manifest.prune_manifest PruneExamples.seen_instant PruneExamples.manifest
                ScanExamples.first_run_time = Ok PruneExamples.pruned)
    by (vm_compute; reflexivity).
  split; [exact H|].
  exact (proj1 (proj2 (prune_manifest_keeps_recent _ _ _ _ H))).
Defined.

(** ** From one run to the next *)

Section across_runs.
Import Workflow Manifest.
Variable isoformat : Z -> string.
Variable seen_instant : string -> outcome (option Z).
Variable int_of_str : string -> option Z.
Variable fromisoformat : string -> option Z.
Variable records_of : string -> outcome (list json).

Lemma recorded_lookup_meta now objects :
  forall processed obj,
    obj ∈ objects ->
    (forall obj', obj' ∈ objects -> key obj' = key obj -> etag obj' = etag obj) ->
    recorded isoformat now processed objects !! key obj
    = Some {[ "etag"%string := etag obj; "seen_at"%string := isoformat now ]}.
Proof.
  unfold recorded.
  induction objects as [|x objects IH] using rev_ind; intros processed obj Hin Hsame.
  - by apply elem_of_nil in Hin.
  - rewrite foldl_app. simpl.
    destruct (decide (key x = key obj)) as [Hk|Hk].
    + rewrite <- Hk, lookup_insert_eq. rewrite (Hsame x); [done| |done].
      apply elem_of_app. right. left.
    + rewrite lookup_insert_ne by done.
      apply IH.
      * apply elem_of_app in Hin as [?|Hx]; [done|].
        apply list_elem_of_singleton in Hx. by subst.
      * intros obj' Hin'. apply Hsame, elem_of_app. by left.
Qed.

(** X9. What a run records, the next run skips. Let a pass of
    [ingest_objects_node] at the instant [now] complete over a listing in
    which one key comes with one etag, and let [update_manifest_node] then
    complete at [now'], no more than [lookback_hours] after [now]. If the
    text [record_processed] writes for [now] is not empty and reads back as
    [now], the manifest handed to [save_manifest] holds every object of the
    listing with its etag: none of them is new to [filter_new_objects_node]
    against that manifest, and a later unforced pass over the same listing
    returns its state as it was. *)
Theorem recorded_objects_are_skipped region report_start report_end now now' objects
    st st1 plan manifest'
    (Hrun : ingest_objects_node isoformat int_of_str fromisoformat records_of region
              report_start report_end now st objects = Ok st1)
    (Hupd : update_manifest_node seen_instant (current_manifest st1) plan now' = Ok manifest')
    (Hetag : forall o1 o2, o1 ∈ objects -> o2 ∈ objects -> key o1 = key o2 ->
               etag o1 = etag o2)
    (Htext : isoformat now <> EmptyString)
    (Hback : seen_instant (isoformat now) = Ok (Some now))
    (Hfresh : now' - lookback_hours (current_manifest st1) * HOUR <= now) :
  (forall obj, obj ∈ objects ->
     processed manifest' !! key obj
     = Some {[ "etag"%string := etag obj; "seen_at"%string := isoformat now ]} /\
     is_new false (processed manifest') obj = false) /\
  filter_new_objects_node false manifest' objects = [] /\
  (forall region2 start2 end2 now2 st2,
     current_manifest st2 = manifest' ->
     ingest_new_objects isoformat int_of_str fromisoformat records_of false region2
       start2 end2 now2 st2 objects = Ok st2).
Proof.
  assert (Hobj : forall obj, obj ∈ objects ->
     processed manifest' !! key obj
     = Some {[ "etag"%string := etag obj; "seen_at"%string := isoformat now ]}).
  { intros obj Hin. unfold update_manifest_node in Hupd.
    destruct (prune_manifest_spec _ _ _ _ Hupd) as [_ Hp]. apply Hp.
    assert (Hfields :
      processed (update_last_datehour (current_manifest st1) (scan_end_datehour plan))
        = processed (current_manifest st1) /\
      lookback_hours (update_last_datehour (current_manifest st1) (scan_end_datehour plan))
        = lookback_hours (current_manifest st1)).
    { unfold update_last_datehour. by destruct (str_truthy _). }
    destruct Hfields as [-> ->].
    rewrite (ingest_objects_processed _ _ _ _ _ _ _ _ _ _ _ Hrun).
    split.
    - apply recorded_lookup_meta; [done|]. intros obj' Hin' Hk. by apply Hetag.
    - apply keep_entry_true. exists (isoformat now), now.
      split; [|done]. rewrite lookup_insert_ne by done. by rewrite lookup_singleton_eq. }
  assert (Hold : forall obj, obj ∈ objects ->
     exists meta, processed manifest' !! key obj = Some meta /\
                  meta !! "etag"%string = Some (etag obj)).
  { intros obj Hin. eexists. split; [by apply Hobj|]. by rewrite lookup_insert_eq. }
  split; [|split].
  - intros obj Hin. split; [by apply Hobj|].
    destruct (Hold obj Hin) as (meta & Hp & He). by eapply is_new_recorded.
  - by apply filter_new_nothing.
  - intros region2 start2 end2 now2 st2 Hst2. apply ingest_new_objects_none.
    rewrite Hst2. by apply filter_new_nothing.
Qed.
End across_runs.

Lemma recorded_objects_are_skipped_witness :
  Workflow.filter_new_objects_node false PruneExamples.saved_after_pass
    [DedupExamples.obj_v1] = [].
Proof.
  refine (proj1 (proj2
    (recorded_objects_are_skipped DedupExamples.isoformat PruneExamples.seen_instant
       DedupExamples.int_of_str Calendar.strptime_datehour DedupExamples.records_of
       "us-east-1" ScanExamples.report_start ScanExamples.report_end
       PruneExamples.run_time PruneExamples.run_time [DedupExamples.obj_v1]
       DedupExamples.start_state PruneExamples.after_pass PruneExamples.plan_at_nine
       PruneExamples.saved_after_pass _ _ _ _ _ _))).
  - vm_compute. reflexivity.
  - vm_compute. reflexivity.
  - intros o1 o2 ->%list_elem_of_singleton ->%list_elem_of_singleton _. reflexivity.
  - vm_compute. discriminate.
  - vm_compute. reflexivity.
  - vm_compute. discriminate.
Defined.

(** ** The hours of a scan window *)

Lemma elem_of_scan_hours (start end_hour h : Z) :
  h ∈ scan_hours start end_hour <->
  start <= h <= end_hour /\ (h - start) mod HOUR = 0.
Proof.
  pose proof HOUR_pos as Hpos. unfold scan_hours, hour_range.
  rewrite list_elem_of_fmap. setoid_rewrite elem_of_seq. split.
  - intros (i & -> & _ & Hi).
    pose proof (Z.div_mod (end_hour - start) HOUR ltac:(lia)) as Hdm.
    pose proof (Z.mod_pos_bound (end_hour - start) HOUR Hpos) as Hmod.
    destruct (Z_lt_le_dec end_hour start) as [Hlt|Hle].
    + assert ((end_hour - start) / HOUR + 1 <= 0) by nia. lia.
    + assert (0 <= (end_hour - start) / HOUR) by (apply Z.div_pos; lia).
      split; [nia|].
      replace (start + Z.of_nat i * HOUR - start) with (Z.of_nat i * HOUR) by lia.
      apply Z_mod_mult.
  - intros [[Hlo Hhi] Hm].
    pose proof (Z.div_mod (h - start) HOUR ltac:(lia)) as Hdm. rewrite Hm in Hdm.
    assert (0 <= (h - start) / HOUR) by (apply Z.div_pos; lia).
    assert ((h - start) / HOUR <= (end_hour - start) / HOUR)
      by (apply Z.div_le_mono; lia).
    exists (Z.to_nat ((h - start) / HOUR)). split; [|lia].
    rewrite Z2Nat.id by lia. lia.
Qed.

Section pruning_gap.
Import Workflow Manifest.
Variable seen_instant : string -> outcome (option Z).
Variable strftime_datehour : Z -> string.
Variable strftime_path : Z -> string.
Variable strptime_datehour : string -> option Z.

(** X10. The pruning cutoff is the instant of the run, the scan start a
    whole hour. When [update_manifest_node] completes at [now], an object
    whose entry was seen earlier than [now - lookback_hours] is gone from
    the manifest: whatever its etag, [filter_new_objects_node] keeps it as
    new the next time it is listed. If that update wrote the current hour
    as the checkpoint and the checkpoint text reads back as that hour, the
    next unforced plan scans every whole hour [h] of the report day from
    [current hour - lookback_hours] on. So an object of such an hour that
    was seen before the cutoff, in the part of an hour by which [now]
    exceeds its hour, is listed and ingested again. *)
Theorem pruned_object_is_new_again manifest plan now manifest' obj meta text seen
    (Hupd : update_manifest_node seen_instant manifest plan now = Ok manifest')
    (Hentry : processed manifest !! key obj = Some meta)
    (Htext : meta !! "seen_at"%string = Some text)
    (Hseen : seen_instant text = Ok (Some seen))
    (Hold : seen < now - lookback_hours manifest * HOUR) :
  processed manifest' !! key obj = None /\
  is_new false (processed manifest') obj = true /\
  (forall objects, obj ∈ objects -> obj ∈ filter_new_objects_node false manifest' objects) /\
  (forall fuel config region report_start report_end now2 h,
     let checkpoint := strftime_datehour (floor_hour now) in
     let start := Z.max report_start (floor_hour now - lookback_hours manifest * HOUR) in
     let end_hour := floor_hour (report_end - SECOND) in
     scan_end_datehour plan = Some checkpoint ->
     checkpoint <> EmptyString ->
     strptime_datehour checkpoint = Some (floor_hour now) ->
     h mod HOUR = 0 -> start <= h <= end_hour ->
     (scan_fuel (floor_hour start) end_hour <= fuel)%nat ->
     exists plan2,
       plan_scan_node strftime_datehour strftime_path strptime_datehour fuel false config
         region manifest' report_start report_end now2 = Some plan2 /\
       _build_log_prefix strftime_path config region h ∈ scan_prefixes plan2).
Proof.
  unfold update_manifest_node in Hupd.
  destruct (prune_manifest_spec _ _ _ _ Hupd) as [Hm Hp].
  assert (Hfields :
    processed (update_last_datehour manifest (scan_end_datehour plan)) = processed manifest /\
    lookback_hours (update_last_datehour manifest (scan_end_datehour plan))
      = lookback_hours manifest).
  { unfold update_last_datehour. by destruct (str_truthy _). }
  destruct Hfields as [Hproc Hlook]. rewrite Hproc, Hlook in Hp.
  assert (Hgone : processed manifest' !! key obj = None).
  { destruct (processed manifest' !! key obj) as [meta'|] eqn:E; [|done].
    apply Hp in E as [E Hkeep]. rewrite Hentry in E. injection E as <-.
    apply keep_entry_true in Hkeep as (text' & seen' & Ht & _ & Hs & Hle).
    rewrite Htext in Ht. injection Ht as <-. rewrite Hseen in Hs. injection Hs as <-. lia. }
  assert (Hnew : is_new false (processed manifest') obj = true).
  { apply is_new_spec. right. by left. }
  split; [done|]. split; [done|]. split.
  - intros objects Hin. unfold filter_new_objects_node.
    apply list_elem_of_filter. done.
  - intros fuel config region report_start report_end now2 h checkpoint start end_hour
      Hplan Hne Hparse Hh Hrange Hfuel.
    clearbody checkpoint.
    assert (Ht : str_truthy (Some checkpoint) = true) by (by destruct checkpoint).
    assert (Hlast : last_datehour manifest' = Some checkpoint).
    { rewrite Hm. cbn [last_datehour with_processed].
      by rewrite update_last_datehour_cases, Hplan, Ht. }
    assert (Hlook' : lookback_hours manifest' = lookback_hours manifest).
    { rewrite Hm. cbn [lookback_hours with_processed]. exact Hlook. }
    assert (Hstart : scan_start strptime_datehour false manifest' report_start
                     = floor_hour start).
    { unfold scan_start, _parse_datehour. rewrite Hlast, Hlook', Ht.
      cbn [negb andb default from_option id]. by rewrite Hparse. }
    pose proof (plan_scan_node_result strftime_datehour strftime_path strptime_datehour
                  fuel false config region manifest' report_start report_end now2) as Hres.
    cbn zeta in Hres. rewrite Hstart in Hres. specialize (Hres Hfuel).
    eexists. split; [exact Hres|]. cbn [scan_prefixes].
    apply list_elem_of_fmap. exists h. split; [done|].
    apply elem_of_scan_hours.
    pose proof (floor_hour_le start). pose proof (floor_hour_aligned start) as Hal.
    split; [lia|].
    rewrite Zminus_mod, Hh, Hal. reflexivity.
Qed.
End pruning_gap.

Lemma pruned_object_is_new_again_witness :
  Manifest.processed PruneExamples.after_afternoon !! "logs/a.json"%string = None /\
  Workflow.is_new false (Manifest.processed PruneExamples.after_afternoon)
    DedupExamples.obj_v1 = true.
Proof.
  destruct (pruned_object_is_new_again PruneExamples.seen_iso Calendar.strftime_datehour
              Calendar.strftime_path Calendar.strptime_datehour
              PruneExamples.early_manifest PruneExamples.afternoon_plan
              PruneExamples.afternoon PruneExamples.after_afternoon DedupExamples.obj_v1
              (PruneExamples.entry "etag-1" "2026-02-02T09:15:00+00:00")
              "2026-02-02T09:15:00+00:00" PruneExamples.quarter_past_nine)
    as (H1 & H2 & _).
  - vm_compute. reflexivity.
  - vm_compute. reflexivity.
  - vm_compute. reflexivity.
  - vm_compute. reflexivity.
  - vm_compute. reflexivity.
  - split; [exact H1|exact H2].
Defined.

(** ** The aggregation key and the pricing key *)

Section key_agreement.
Import PyStr.
Local Open Scope string_scope.

Lemma before_last_split (c : ascii) (s p : string) :
  before_last c s = Some p -> exists t, s = p +:+ String c t.
Proof.
  revert p. induction s as [|a s IH]; intros p; [done|]. cbn [before_last].
  destruct (before_last c s) as [q|] eqn:E.
  - intros [= <-]. destruct (IH q eq_refl) as [t ->]. exists t. by rewrite app_cons_str.
  - destruct (decide (a = c)) as [->|]; [|done]. intros [= <-]. exists s. done.
Qed.

Lemma startswith_app (p a b : string) :
  startswith p a = true -> startswith p (a +:+ b) = true.
Proof.
  revert a. induction p as [|x p IH]; intros a; [done|].
  destruct a as [|y a]; [done|]. rewrite app_cons_str. cbn [startswith].
  destruct (decide (x = y)); [apply IH|done].
Qed.

Lemma strip_after_last_prefix (c : ascii) (s : string) :
  exists t, s = strip_after_last c s +:+ t.
Proof.
  unfold strip_after_last. destruct (before_last c s) as [p|] eqn:E; simpl.
  - destruct (before_last_split c s p E) as [t ->]. by exists (String c t).
  - exists "". clear. induction s as [|a s IH]; [done|]. rewrite app_cons_str. by f_equal.
Qed.

Lemma not_arn_no_profile (s : string) :
  startswith "arn:" s = false -> Parser.match_inference_profile s = None.
Proof.
  intros H. unfold Parser.match_inference_profile.
  destruct (startswith "arn:aws:bedrock:" s) eqn:E; [|done].
  apply startswith_inv in E. rewrite E in H. done.
Qed.

Lemma plain_keys (s : string) :
  lacks "/" s = true -> startswith "arn:" s = false ->
  Parser.normalize_model_id s = strip_after_last ":" s /\
  Pricing.get_pricing_model_key s = strip_after_last ":" s.
Proof.
  intros Hl Ha. split.
  - unfold Parser.normalize_model_id. by rewrite (not_arn_no_profile s Ha).
  - unfold Pricing.get_pricing_model_key, Pricing.normalize_model_id.
    by rewrite (lacks_split_once_marker s Hl), Ha, (lacks_after_last _ s Hl).
Qed.

Lemma strip_after_last_plain (s : string) :
  lacks "/" s = true -> startswith "arn:" s = false ->
  lacks "/" (strip_after_last ":" s) = true /\
  startswith "arn:" (strip_after_last ":" s) = false.
Proof.
  intros Hl Ha. destruct (strip_after_last_prefix ":" s) as [t Ht].
  split.
  - rewrite Ht, lacks_app in Hl. by apply andb_true_iff in Hl as [? _].
  - destruct (startswith "arn:" (strip_after_last ":" s)) eqn:E; [|done].
    rewrite Ht in Ha. by rewrite (startswith_app _ _ t E) in Ha.
Qed.

Lemma strip_after_last_id (c : ascii) (s : string) :
  lacks c s = true -> strip_after_last c s = s.
Proof. intros H. unfold strip_after_last. by rewrite (lacks_before_last c s H). Qed.

(** X11. The aggregation key and the pricing key agree on plain
    identifiers. For a model identifier without [/] that does not start
    with [arn:], the key [normalize_model_id] of the parser aggregates
    under and the key [get_pricing_model_key] prices under are the same
    text, the identifier without its last [:suffix]. When that text holds
    no further [:] (the identifier has at most one), the pricing key of the
    normalized identifier is the pricing key of the original one, and so
    is it for an inference-profile ARN of scope [us], [eu], [global] or
    [apac] (the scopes the pattern of the parser lists) whose profile name
    has no [/] and at most one [:]: [get_rate] then answers alike for the
    two, and usage whose [model_id_map] entry is gone (as after a snapshot
    is read back) is priced as it was. Elsewhere the keys part: ["m:1:0"]
    is aggregated under ["m:1"], priced under ["m:1"] through the map and
    under ["m"] without it; an identifier ["arn:x"] is aggregated under
    ["arn"] and priced under ["x"]; and an inference-profile ARN of scope
    [ca] without a version is aggregated under the text before its last
    [:], priced under [ca.anthropic.claude-v2] through the map and under
    its account number without it. *)
Theorem pricing_key_of_normalized_id :
  (forall id,
     lacks "/" id = true -> startswith "arn:" id = false ->
     Parser.normalize_model_id id = strip_after_last ":" id /\
     Pricing.get_pricing_model_key id = Parser.normalize_model_id id /\
     (lacks ":" (strip_after_last ":" id) = true ->
      Pricing.get_pricing_model_key (Parser.normalize_model_id id)
        = Pricing.get_pricing_model_key id)) /\
  (forall r a s n,
     s ∈ Parser.profile_scopes -> arn_field r -> arn_field a -> profile_name n ->
     lacks "/" n = true -> lacks ":" (strip_after_last ":" n) = true ->
     Pricing.get_pricing_model_key (Parser.normalize_model_id (profile_arn r a s n))
       = Pricing.get_pricing_model_key (profile_arn r a s n)) /\
  (forall id rates region ident,
     Pricing.get_pricing_model_key (Parser.normalize_model_id id)
       = Pricing.get_pricing_model_key id ->
     Pricing.get_rate rates (Parser.normalize_model_id id) region
       = Pricing.get_rate rates id region /\
     rate_of (Pricing.get_rate rates) [] (region, ident, Parser.normalize_model_id id)
       = rate_of (Pricing.get_rate rates) [(Parser.normalize_model_id id, id)]
           (region, ident, Parser.normalize_model_id id)) /\
  (forall (pricing : PricingProvider) idmap region ident model_id,
     rate_of pricing idmap (region, ident, model_id)
     = pricing (match od_get model_id idmap with
                | Some original => original
                | None => model_id
                end) region) /\
  (Parser.normalize_model_id "anthropic.claude-3-haiku-20240307-v1:0"
     = "anthropic.claude-3-haiku-20240307-v1" /\
   Pricing.get_pricing_model_key "anthropic.claude-3-haiku-20240307-v1"
     = "anthropic.claude-3-haiku-20240307-v1") /\
  (Parser.normalize_model_id "m:1:0" = "m:1" /\
   Pricing.get_pricing_model_key "m:1:0" = "m:1" /\
   Pricing.get_pricing_model_key (Parser.normalize_model_id "m:1:0") = "m") /\
  (Parser.normalize_model_id "arn:x" = "arn" /\
   Pricing.get_pricing_model_key "arn:x" = "x") /\
  (Parser.normalize_model_id ScopeExamples.canada_profile
     = "arn:aws:bedrock:us-east-1:123456789012" /\
   Pricing.get_pricing_model_key ScopeExamples.canada_profile = "ca.anthropic.claude-v2" /\
   Pricing.get_pricing_model_key (Parser.normalize_model_id ScopeExamples.canada_profile)
     = "123456789012").
Proof.
  split; [|split; [|split; [|split; [|split; [|split; [|split]]]]]].
  - intros id Hl Ha. destruct (plain_keys id Hl Ha) as [Hn Hk].
    split; [done|]. split; [congruence|]. intros Hone.
    destruct (strip_after_last_plain id Hl Ha) as [Hl' Ha'].
    rewrite Hn, Hk. destruct (plain_keys _ Hl' Ha') as [_ ->].
    by apply strip_after_last_id.
  - intros r a s n Hs Hr Ha Hn Hl Hone.
    rewrite (normalize_profile_arn r a s n Hs Hr Ha Hn),
      (pricing_key_profile_arn r a s n Hs Hr Ha).
    destruct (strip_after_last_prefix ":" n) as [t Ht].
    assert (Hl' : lacks "/" (strip_after_last ":" n) = true).
    { rewrite Ht, lacks_app in Hl. by apply andb_true_iff in Hl as [? _]. }
    rewrite (pricing_key_bare_profile s _ Hs Hl').
    by rewrite (strip_after_last_id ":" _ Hone).
  - intros mid rates region ident Hk. unfold rate_of, original_of, Pricing.get_rate.
    cbn [od_get]. rewrite decide_True by done. cbn [default from_option id].
    by rewrite Hk.
  - intros pricing idmap region ident model_id. unfold rate_of, original_of.
    by destruct (od_get model_id idmap).
  - by vm_compute.
  - by vm_compute.
  - by vm_compute.
  - by vm_compute.
Qed.
End key_agreement.

(** ** The provider's table *)

Section provider_table.
Import PricingFile.

Lemma filter_rates_lookup (rates : Pricing.rate_table) (ids : gset string) (k : string) :
  ids <> ∅ ->
  _filter_rates rates (Some ids) !! k
  = if decide (k <> EmptyString /\ exists id, id ∈ ids /\ Pricing.get_pricing_model_key id = k)
    then rates !! k else None.
Proof.
  intros Hne. unfold _filter_rates. rewrite decide_False by done.
  apply option_eq. intros rm. rewrite map_lookup_filter_Some. cbn [fst].
  rewrite elem_of_filter, elem_of_map.
  case_decide as Hw.
  - split; [tauto|]. intros Hk. split; [done|]. destruct Hw as (Hk0 & id & Hin & <-).
    split; [done|]. by exists id.
  - split; [|done]. intros (_ & Hk0 & id & -> & Hin). destruct Hw. split; [done|].
    by exists id.
Qed.

(** X12. Filtering the price table loses no rate that was asked for.
    With a non-empty set of model identifiers, [_filter_rates] returns a
    part of the table it was given: [get_rate] on it answers as on the
    whole table for every identifier of the set whose pricing key is not
    empty, and for any identifier whose pricing key is that of one of the
    set; for every other identifier it finds no rate. A rate found in the
    filtered table is the rate the whole table gives. With no set, or the
    empty set, the table is returned as it is. *)
Theorem filter_rates_keeps_requested (rates : Pricing.rate_table) (ids : gset string)
    (Hne : ids <> ∅) :
  let filtered := _filter_rates rates (Some ids) in
  filtered ⊆ rates /\
  (forall id region,
     id ∈ ids -> Pricing.get_pricing_model_key id <> EmptyString ->
     Pricing.get_rate filtered id region = Pricing.get_rate rates id region) /\
  (forall id id' region,
     id' ∈ ids -> Pricing.get_pricing_model_key id' = Pricing.get_pricing_model_key id ->
     Pricing.get_pricing_model_key id <> EmptyString ->
     Pricing.get_rate filtered id region = Pricing.get_rate rates id region) /\
  (forall id region,
     (forall id', id' ∈ ids ->
        Pricing.get_pricing_model_key id' <> Pricing.get_pricing_model_key id) ->
     Pricing.get_rate filtered id region = None) /\
  (forall id region rate,
     Pricing.get_rate filtered id region = Some rate ->
     Pricing.get_rate rates id region = Some rate) /\
  _filter_rates rates None = rates /\
  _filter_rates rates (Some ∅) = rates.
Proof.
  intros filtered. subst filtered.
  assert (Hsame : forall id id' region,
     id' ∈ ids -> Pricing.get_pricing_model_key id' = Pricing.get_pricing_model_key id ->
     Pricing.get_pricing_model_key id <> EmptyString ->
     Pricing.get_rate (_filter_rates rates (Some ids)) id region
     = Pricing.get_rate rates id region).
  { intros id id' region Hin Hk Hk0. unfold Pricing.get_rate.
    rewrite (filter_rates_lookup rates ids _ Hne). rewrite decide_True; [done|].
    split; [done|]. by exists id'. }
  split; [|split; [|split; [|split; [|split; [|split]]]]].
  - apply map_subseteq_spec. intros k rm.
    rewrite (filter_rates_lookup rates ids k Hne). by case_decide.
  - intros id region Hin Hk0. by apply (Hsame id id).
  - exact Hsame.
  - intros id region Hnone. unfold Pricing.get_rate.
    rewrite (filter_rates_lookup rates ids _ Hne). rewrite decide_False; [done|].
    intros (_ & id' & Hin & Hk). by apply (Hnone id').
  - intros id region rate. unfold Pricing.get_rate.
    rewrite (filter_rates_lookup rates ids _ Hne). by case_decide.
  - done.
  - unfold _filter_rates. by rewrite decide_True.
Qed.
End provider_table.

Lemma filter_rates_keeps_requested_witness :
  Pricing.get_rate
    (PricingFile._filter_rates Examples.override_table
       (Some {[ "anthropic.claude-opus-4-5-20251101-v1:0"%string ]}))
    "anthropic.claude-opus-4-5-20251101-v1:0" "us-west-2"
  = Some (PriceRate_of 0.006 0.018).
Proof.
  destruct (filter_rates_keeps_requested Examples.override_table
              {[ "anthropic.claude-opus-4-5-20251101-v1:0"%string ]}) as (_ & H & _).
  - apply non_empty_singleton_L.
  - rewrite H; [reflexivity|by apply elem_of_singleton|by vm_compute].
Defined.

(** ** The price file *)

Section price_file_facts.
Import PricingFile.
Variable float_of_str : string -> option float.

Local Abbreviation regions_of rates k := (default ∅ (rates !! k)) (only parsing).

Lemma store_rate_lookup k region pr (rates : Pricing.rate_table) k' region' :
  default ∅ (store_rate k region pr rates !! k') !! region'
  = if decide (k' = k /\ region' = region) then Some pr
    else default ∅ (rates !! k') !! region'.
Proof.
  unfold store_rate. destruct (decide (k' = k)) as [->|Hk].
  - rewrite lookup_insert_eq. cbn [default from_option id].
    destruct (decide (region' = region)) as [->|Hr].
    + rewrite lookup_insert_eq. by rewrite decide_True.
    + rewrite lookup_insert_ne by done. rewrite decide_False by tauto. done.
  - rewrite lookup_insert_ne by done. rewrite decide_False by tauto. done.
Qed.

Lemma read_regions_snoc k region_map kv rates :
  read_regions float_of_str k (region_map ++ [kv]) rates
  = (rates' ← read_regions float_of_str k region_map rates;
     match snd kv with
     | JDict rate =>
         r ← read_rate float_of_str rate;
         match r with
         | Some price_rate => Ok (store_rate k (fst kv) price_rate rates')
         | None => Ok rates'
         end
     | _ => Ok rates'
     end).
Proof. unfold read_regions. by rewrite foldl_app. Qed.

(** What one pass over the regions of a model leaves in the table. *)
Lemma read_regions_spec k region_map :
  forall rates rates',
    read_regions float_of_str k region_map rates = Ok rates' ->
    (forall k', k' <> k -> rates' !! k' = rates !! k') /\
    (forall region pr,
       regions_of rates' k !! region = Some pr ->
       regions_of rates k !! region = Some pr \/
       exists rate, (region, JDict rate) ∈ region_map /\
                    read_rate float_of_str rate = Ok (Some pr)) /\
    (forall region, is_Some (regions_of rates k !! region) ->
                    is_Some (regions_of rates' k !! region)) /\
    (forall region rate pr,
       (region, JDict rate) ∈ region_map -> read_rate float_of_str rate = Ok (Some pr) ->
       is_Some (regions_of rates' k !! region)) /\
    (rates' !! k = rates !! k \/ exists rm, rates' !! k = Some rm /\ rm <> ∅).
Proof.
  induction region_map as [|[region0 v] region_map IH] using rev_ind; intros rates rates'.
  - intros [= <-]. split; [done|]. split; [by left|]. split; [done|].
    split; [by intros ? ? ? ?%elem_of_nil|by left].
  - rewrite read_regions_snoc. unfold mbind at 1, outcome_bind at 1.
    destruct (read_regions float_of_str k region_map rates) as [rates1|] eqn:E1; [|done].
    destruct (IH _ _ E1) as (Ha & Hb & Hc & Hd & He).
    cbn [fst snd].
    assert (Hskip : rates' = rates1 ->
      (forall rate pr, v = JDict rate -> read_rate float_of_str rate <> Ok (Some pr)) ->
      (∀ k' : string, k' ≠ k → rates' !! k' = rates !! k')
      ∧ (∀ (region : string) (pr : PriceRate),
           regions_of rates' k !! region = Some pr
           → regions_of rates k !! region = Some pr
             ∨ (∃ rate : list (string * json),
                  (region, JDict rate) ∈ region_map ++ [(region0, v)]
                  ∧ read_rate float_of_str rate = Ok (Some pr)))
        ∧ (∀ region : string,
             is_Some (regions_of rates k !! region)
             → is_Some (regions_of rates' k !! region))
          ∧ (∀ (region : string) (rate : list (string * json)) (pr : PriceRate),
               (region, JDict rate) ∈ region_map ++ [(region0, v)]
               → read_rate float_of_str rate = Ok (Some pr)
                 → is_Some (regions_of rates' k !! region))
            ∧ (rates' !! k = rates !! k ∨ (∃ rm, rates' !! k = Some rm ∧ rm ≠ ∅))).
    { intros -> Hno. split; [done|]. split; [|split; [done|split; [|done]]].
      - intros region pr Hr. destruct (Hb region pr Hr) as [?|(rate & Hin & Hrd)]; [by left|].
        right. exists rate. split; [|done]. apply elem_of_app. by left.
      - intros region rate pr [Hin|Hin%list_elem_of_singleton]%elem_of_app Hrd.
        + by eapply Hd.
        + injection Hin as -> <-. by destruct (Hno rate pr eq_refl). }
    destruct v as [| | | | | |rate]; try (intros [= <-]; by apply Hskip).
    unfold mbind, outcome_bind.
    destruct (read_rate float_of_str rate) as [[pr0|]|] eqn:Hrd; [| |done].
    + intros [= <-]. split; [|split; [|split; [|split]]].
      * intros k' Hk'. unfold store_rate. rewrite lookup_insert_ne by done. by apply Ha.
      * intros region pr. rewrite store_rate_lookup.
        case_decide as Hdec.
        -- destruct Hdec as [_ ->]. intros [= <-]. right. exists rate.
           split; [|done]. apply elem_of_app. right. by apply list_elem_of_singleton.
        -- intros Hr. destruct (Hb region pr Hr) as [?|(rate' & Hin & Hrd')]; [by left|].
           right. exists rate'. split; [|done]. apply elem_of_app. by left.
      * intros region Hs. rewrite store_rate_lookup. case_decide; [done|]. by apply Hc.
      * intros region rate' pr [Hin|Hin%list_elem_of_singleton]%elem_of_app Hrd';
          rewrite store_rate_lookup; case_decide as Hdec; try done.
        -- by eapply Hd.
        -- injection Hin as -> ->. destruct Hdec. done.
      * right. unfold store_rate. rewrite lookup_insert_eq. eexists. split; [done|].
        apply insert_non_empty.
    + intros [= <-]. apply Hskip; [done|]. intros rate' pr [= <-]. congruence.
Qed.

Lemma read_models_snoc entries kv :
  read_models float_of_str (entries ++ [kv])
  = (rates ← read_models float_of_str entries;
     match snd kv with
     | JDict region_map =>
         let pricing_key := Pricing.get_pricing_model_key (fst kv) in
         match pricing_key with
         | EmptyString => Ok rates
         | _ => read_regions float_of_str pricing_key region_map rates
         end
     | _ => Ok rates
     end).
Proof. unfold read_models. by rewrite foldl_app. Qed.

Lemma regions_lookup (rates : Pricing.rate_table) k rm region pr :
  rates !! k = Some rm -> rm !! region = Some pr -> regions_of rates k !! region = Some pr.
Proof. by intros -> ?. Qed.

Lemma regions_lookup_inv (rates : Pricing.rate_table) k region pr :
  regions_of rates k !! region = Some pr ->
  exists rm, rates !! k = Some rm /\ rm !! region = Some pr.
Proof. destruct (rates !! k) as [rm|]; [eauto|]. simpl. by rewrite lookup_empty. Qed.

(** The table after the outer loop. *)
Lemma read_models_spec entries :
  forall loaded,
    read_models float_of_str entries = Ok loaded ->
    loaded !! EmptyString = None /\
    (forall k rm, loaded !! k = Some rm -> rm <> ∅) /\
    (forall k region pr,
       regions_of loaded k !! region = Some pr ->
       exists model_id region_map rate,
         (model_id, JDict region_map) ∈ entries /\
         Pricing.get_pricing_model_key model_id = k /\
         (region, JDict rate) ∈ region_map /\
         read_rate float_of_str rate = Ok (Some pr)) /\
    (forall model_id region_map region rate pr,
       (model_id, JDict region_map) ∈ entries ->
       Pricing.get_pricing_model_key model_id <> EmptyString ->
       (region, JDict rate) ∈ region_map ->
       read_rate float_of_str rate = Ok (Some pr) ->
       is_Some (regions_of loaded (Pricing.get_pricing_model_key model_id) !! region)).
Proof.
  induction entries as [|[mid0 v] entries IH] using rev_ind; intros loaded.
  - intros [= <-]. split; [done|]. split; [by intros k rm; rewrite lookup_empty|].
    split; [|by intros ? ? ? ? ? ?%elem_of_nil].
    intros k region pr. by rewrite !lookup_empty.
  - rewrite read_models_snoc. unfold mbind at 1, outcome_bind at 1.
    destruct (read_models float_of_str entries) as [rates1|] eqn:E1; [|done].
    destruct (IH _ eq_refl) as (H1 & H2 & H3 & H4). cbn [fst snd].
    assert (Hskip : loaded = rates1 ->
      (forall region_map, v = JDict region_map ->
         Pricing.get_pricing_model_key mid0 = EmptyString) ->
      loaded !! EmptyString = None /\
      (forall k rm, loaded !! k = Some rm -> rm <> ∅) /\
      (forall k region pr,
         regions_of loaded k !! region = Some pr ->
         exists model_id region_map rate,
           (model_id, JDict region_map) ∈ entries ++ [(mid0, v)] /\
           Pricing.get_pricing_model_key model_id = k /\
           (region, JDict rate) ∈ region_map /\
           read_rate float_of_str rate = Ok (Some pr)) /\
      (forall model_id region_map region rate pr,
         (model_id, JDict region_map) ∈ entries ++ [(mid0, v)] ->
         Pricing.get_pricing_model_key model_id <> EmptyString ->
         (region, JDict rate) ∈ region_map ->
         read_rate float_of_str rate = Ok (Some pr) ->
         is_Some (regions_of loaded (Pricing.get_pricing_model_key model_id) !! region))).
    { intros -> Hno. split; [done|]. split; [done|]. split.
      - intros k region pr Hr.
        destruct (H3 k region pr Hr) as (mid & rmap & rate & Hin & ?).
        exists mid, rmap, rate. split; [|done]. apply elem_of_app. by left.
      - intros mid rmap region rate pr [Hin|Hin%list_elem_of_singleton]%elem_of_app Hk.
        + by eapply H4.
        + injection Hin as -> <-. by rewrite (Hno rmap eq_refl) in Hk. }
    destruct v as [| | | | | |region_map]; try (intros [= <-]; by apply Hskip).
    cbn zeta.
    destruct (Pricing.get_pricing_model_key mid0) as [|a k0] eqn:Hk0.
    { intros [= <-]. apply Hskip; [done|]. done. }
    intros Hreg.
    destruct (read_regions_spec _ _ _ _ Hreg) as (Ha & Hb & Hc & Hd & He).
    split; [|split; [|split]].
    + by rewrite Ha.
    + intros k rm Hk. destruct (decide (k = String a k0)) as [->|Hne].
      * destruct He as [He|(rm' & He & Hrm)].
        -- rewrite He in Hk. by eapply H2.
        -- rewrite He in Hk. by injection Hk as <-.
      * rewrite Ha in Hk by done. by eapply H2.
    + intros k region pr Hr. destruct (decide (k = String a k0)) as [->|Hne].
      * destruct (Hb region pr Hr) as [Hold|(rate & Hin & Hrd)].
        -- destruct (H3 _ region pr Hold) as (mid & rmap & rate & Hin & ?).
           exists mid, rmap, rate. split; [|done]. apply elem_of_app. by left.
        -- exists mid0, region_map, rate. split; [|done].
           apply elem_of_app. right. by apply list_elem_of_singleton.
      * rewrite Ha in Hr by done.
        destruct (H3 k region pr Hr) as (mid & rmap & rate & Hin & ?).
        exists mid, rmap, rate. split; [|done]. apply elem_of_app. by left.
    + intros mid rmap region rate pr [Hin|Hin%list_elem_of_singleton]%elem_of_app Hk Hr Hrd.
      * specialize (H4 mid rmap region rate pr Hin Hk Hr Hrd).
        destruct (decide (Pricing.get_pricing_model_key mid = String a k0)) as [Heq|Hne].
        -- rewrite Heq in *. by apply Hc.
        -- by rewrite Ha.
      * injection Hin as -> ->. rewrite Hk0. by eapply Hd.
Qed.

Lemma read_rate_spec rate pr :
  read_rate float_of_str rate = Ok (Some pr) ->
  missing_input pr = is_null (jget "input_per_1k" rate) /\
  missing_output pr = is_null (jget "output_per_1k" rate) /\
  missing_input pr && missing_output pr = false /\
  rate_or_zero float_of_str (jget "input_per_1k" rate) = Ok (Some (input_per_1k pr)) /\
  rate_or_zero float_of_str (jget "output_per_1k" rate) = Ok (Some (output_per_1k pr)).
Proof.
  unfold read_rate, mbind, outcome_bind.
  destruct (is_null (jget "input_per_1k" rate) && is_null (jget "output_per_1k" rate))
    eqn:Hboth; [done|].
  destruct (rate_or_zero float_of_str (jget "input_per_1k" rate)) as [[i|]|]; [| |done]; [|done].
  destruct (rate_or_zero float_of_str (jget "output_per_1k" rate)) as [[o|]|]; [| |done]; [|done].
  destruct (match od_get "currency" rate with
            | None => Ok "USD"%string
            | Some (JStr s) => Ok s
            | Some _ => Raise Untyped
            end) as [cur|]; [|done].
  destruct (match jget "effective_date" rate with
            | JNull => Ok None
            | JStr s => Ok (Some s)
            | _ => Raise Untyped
            end) as [eff|]; [|done].
  intros [= <-]. done.
Qed.

Lemma load_pricing_yaml_no_empty_key payload loaded :
  _load_pricing_yaml float_of_str payload = Ok loaded -> loaded !! EmptyString = None.
Proof.
  unfold _load_pricing_yaml.
  assert (Hrm : forall entries, read_models float_of_str entries = Ok loaded ->
                  loaded !! EmptyString = None)
    by (intros entries H; by destruct (read_models_spec _ _ H) as [? _]).
  destruct payload as [[| | | | | |top]|]; try (by intros [= <-]).
  destruct (jget "rates" top) as [| | | | | |entries]; try (by intros [= <-]); apply Hrm.
Qed.

(** X13. Every rate of the loaded table comes from the file, under the
    pricing key of the model it is listed for. When the loop of
    [_load_pricing_yaml] completes, the table has no entry under the empty
    key and no empty region map; a rate it holds under a key and a region
    was read from a rate mapping listed with that region under a model
    whose pricing key is that key; and any rate mapping that reads as a
    rate, listed with a region under a model with a non-empty pricing key,
    makes [get_rate] find a rate for that model and region. A rate read
    from a mapping carries a missing flag exactly for the side that is
    absent or null, never for both, with [0.0] as the missing side. A
    missing file, an empty document and a document that is no mapping give
    the empty table, in which no model has a rate; a document without a
    [rates] entry is read as the rates themselves. *)
Theorem price_file_rates entries loaded
    (Hload : read_models float_of_str entries = Ok loaded) :
  loaded !! EmptyString = None /\
  (forall k rm, loaded !! k = Some rm -> rm <> ∅) /\
  (forall k rm region pr,
     loaded !! k = Some rm -> rm !! region = Some pr ->
     exists model_id region_map rate,
       (model_id, JDict region_map) ∈ entries /\
       Pricing.get_pricing_model_key model_id = k /\
       (region, JDict rate) ∈ region_map /\
       read_rate float_of_str rate = Ok (Some pr)) /\
  (forall model_id region_map region rate pr,
     (model_id, JDict region_map) ∈ entries ->
     Pricing.get_pricing_model_key model_id <> EmptyString ->
     (region, JDict rate) ∈ region_map ->
     read_rate float_of_str rate = Ok (Some pr) ->
     is_Some (Pricing.get_rate loaded model_id region)) /\
  (forall rate pr,
     read_rate float_of_str rate = Ok (Some pr) ->
     missing_input pr = is_null (jget "input_per_1k" rate) /\
     missing_output pr = is_null (jget "output_per_1k" rate) /\
     missing_input pr && missing_output pr = false /\
     (missing_input pr = true -> input_per_1k pr = 0%float) /\
     (missing_output pr = true -> output_per_1k pr = 0%float) /\
     (missing_input pr = false ->
      rate_number float_of_str (jget "input_per_1k" rate) = Ok (Some (input_per_1k pr))) /\
     (missing_output pr = false ->
      rate_number float_of_str (jget "output_per_1k" rate) = Ok (Some (output_per_1k pr)))) /\
  (_load_pricing_yaml float_of_str None = Ok ∅ /\
   _load_pricing_yaml float_of_str (Some JNull) = Ok ∅ /\
   (forall l, _load_pricing_yaml float_of_str (Some (JList l)) = Ok ∅) /\
   (forall top rates_doc,
      jget "rates" top = JDict rates_doc ->
      _load_pricing_yaml float_of_str (Some (JDict top))
      = read_models float_of_str rates_doc) /\
   (forall top,
      jget "rates" top = JNull ->
      _load_pricing_yaml float_of_str (Some (JDict top)) = read_models float_of_str top) /\
   (forall model_id region, Pricing.get_rate ∅ model_id region = None)).
Proof.
  destruct (read_models_spec _ _ Hload) as (H1 & H2 & H3 & H4).
  split; [done|]. split; [done|]. split; [|split; [|split]].
  - intros k rm region pr Hk Hr. apply H3. by eapply regions_lookup.
  - intros model_id region_map region rate pr Hin Hk Hr Hrd.
    destruct (H4 _ _ _ _ _ Hin Hk Hr Hrd) as [pr' Hpr'].
    apply regions_lookup_inv in Hpr' as (rm & Hrm & Hreg).
    unfold Pricing.get_rate. rewrite Hrm, Hreg. done.
  - intros rate pr Hrd. destruct (read_rate_spec _ _ Hrd) as (Hi & Ho & Hb & Hiv & Hov).
    split; [done|]. split; [done|]. split; [done|]. rewrite Hi, Ho.
    repeat split.
    + intros Hn. destruct (jget "input_per_1k" rate); try done. by injection Hiv as <-.
    + intros Hn. destruct (jget "output_per_1k" rate); try done. by injection Hov as <-.
    + intros Hn. by destruct (jget "input_per_1k" rate).
    + intros Hn. by destruct (jget "output_per_1k" rate).
  - repeat split.
    + intros top rates_doc Hr. unfold _load_pricing_yaml. by rewrite Hr.
    + intros top Hr. unfold _load_pricing_yaml. by rewrite Hr.
Qed.
End price_file_facts.

Lemma price_file_rates_witness :
  PricingFile._load_pricing_yaml PriceFileExamples.float_of_str
    (Some PriceFileExamples.override_payload) = Ok Examples.override_table /\
  Examples.override_table !! EmptyString = None.
Proof.
  split; [vm_compute; reflexivity|].
  refine (proj1 (price_file_rates PriceFileExamples.float_of_str
                   PriceFileExamples.override_rates Examples.override_table _)).
  vm_compute. reflexivity.
Defined.

(** ** Refreshing the provider before pricing *)

Lemma price_entries_ext p1 p2 idmap entries acc :
  (forall kv, kv ∈ entries -> rate_of p1 idmap (fst kv) = rate_of p2 idmap (fst kv)) ->
  price_entries p1 idmap entries acc = price_entries p2 idmap entries acc.
Proof.
  revert acc. induction entries as [|[[[region ident] model_id] stats] entries IH];
    intros acc Hext; [done|].
  cbn [price_entries].
  pose proof (Hext (region, ident, model_id, stats) (list_elem_of_here _ _)) as Hhere.
  cbn [fst] in Hhere. rewrite Hhere.
  unfold mbind, outcome_bind.
  destruct (compute_cost _ _ _) as [cost|]; [|done].
  destruct (or_raise KeyError (od_update region _ _)) as [br|]; [|done].
  destruct (or_raise KeyError (od_update ident _ _)) as [bi|]; [|done].
  destruct (or_raise KeyError (od_update model_id _ _)) as [bm|]; [|done].
  rewrite IH; [done|]. intros kv Hin. apply Hext. by apply list_elem_of_further.
Qed.

Section refreshing.
Import PricingFile.
Variable float_of_str : string -> option float.

(** X14. Refreshing the provider for the models in use does not change
    what they cost. Let the price file load to a table and let every
    granular key of the aggregate have its model in [by_model].
    [refresh_pricing_node] narrows the provider's table to the pricing keys
    of the original identifiers of the models in [by_model]; pricing the
    aggregate with the provider as it is then gives the result, costs and
    warnings, that pricing with the whole table gives. *)
Theorem refresh_keeps_prices payload loaded metrics _rates w
    (Hload : _load_pricing_yaml float_of_str payload = Ok loaded)
    (Hcov : usage_keys_covered metrics) :
  apply_pricing metrics
    (Pricing.get_rate (rates_in_use loaded (refresh_pricing_node metrics loaded _rates))) w
  = apply_pricing metrics (Pricing.get_rate loaded) w.
Proof.
  unfold apply_pricing. rewrite (price_entries_ext _ (Pricing.get_rate loaded)); [done|].
  intros [[[region ident] model_id] stats] Hin. cbn [fst]. rewrite !rate_of_unfold.
  unfold key_model, key_region. cbn [fst snd].
  assert (Hmodel : model_id ∈ od_keys (by_model metrics)).
  { apply (Hcov (region, ident, model_id)). unfold od_keys.
    apply list_elem_of_fmap. by exists (region, ident, model_id, stats). }
  set (orig := original_of (model_id_map metrics) model_id).
  set (ids := list_to_set (map (original_of (model_id_map metrics))
                             (od_keys (by_model metrics))) : gset string).
  assert (Hin_ids : orig ∈ ids).
  { apply elem_of_list_to_set, list_elem_of_fmap. by exists model_id. }
  assert (Hne : ids <> ∅) by set_solver.
  unfold refresh_pricing_node. fold ids. rewrite decide_False by done.
  unfold refresh, rates_in_use.
  destruct (decide (Pricing.get_pricing_model_key orig = EmptyString)) as [He|He].
  - unfold Pricing.get_rate. rewrite (filter_rates_lookup loaded ids _ Hne), He.
    rewrite decide_False by tauto.
    by rewrite (load_pricing_yaml_no_empty_key _ _ _ Hload).
  - unfold Pricing.get_rate. rewrite (filter_rates_lookup loaded ids _ Hne).
    rewrite decide_True; [done|]. split; [done|]. by exists orig.
Qed.
End refreshing.

Lemma refresh_keeps_prices_witness :
  apply_pricing PriceFileExamples.opus_usage
    (Pricing.get_rate
       (PricingFile.rates_in_use Examples.override_table
          (PricingFile.refresh_pricing_node PriceFileExamples.opus_usage
             Examples.override_table None))) Warnings0
  = apply_pricing PriceFileExamples.opus_usage
      (Pricing.get_rate Examples.override_table) Warnings0.
Proof.
  apply (refresh_keeps_prices PriceFileExamples.float_of_str
           (Some PriceFileExamples.override_payload)).
  - vm_compute. reflexivity.
  - apply covered_add_usage, covered_empty.
Defined.

(** ** The manifest document *)

Section manifest_document.
Import Manifest ManifestIO.

Lemma od_get_list_to_map {V} (k : string) (l : list (string * V)) :
  od_get k l = (list_to_map l : gmap string V) !! k.
Proof.
  induction l as [|[k0 v] l IH]; [symmetry; apply lookup_empty|]. cbn [od_get list_to_map foldr].
  cbn [fst snd uncurry]. destruct (decide (k = k0)) as [->|Hne].
  - by rewrite lookup_insert_eq.
  - by rewrite lookup_insert_ne.
Qed.

Lemma od_get_Permutation {V} (k : string) (l l' : list (string * V)) :
  NoDup (l.*1) -> l ≡ₚ l' -> od_get k l = od_get k l'.
Proof.
  intros Hnd Hp. rewrite !od_get_list_to_map. by rewrite (list_to_map_proper l l' Hnd Hp).
Qed.

Lemma sort_keys_dict (d : list (string * json)) :
  sort_keys (JDict d)
  = JDict (sorting.merge_sort key_le (map (fun kv => (fst kv, sort_keys (snd kv))) d)).
Proof.
  cbn [sort_keys]. do 2 f_equal.
  induction d as [|[k x] d IH]; [done|]. cbn [map fst snd]. by rewrite IH.
Qed.

Lemma mapM_Ok_map {A B} (f : A -> outcome B) (g : A -> B) (l : list A) :
  (forall x, x ∈ l -> f x = Ok (g x)) -> mapM f l = Ok (map g l).
Proof.
  induction l as [|x l IH]; intros H; [done|]. cbn [mapM map].
  rewrite (H x (list_elem_of_here _ _)). unfold mbind, outcome_bind.
  pose proof (IH (fun y Hy => H y (list_elem_of_further _ _ _ Hy))) as E.
  change (match mapM f l with
          | Ok a => mret (g x :: a)
          | Raise e => Raise e
          end = Ok (g x :: map g l)).
  by rewrite E.
Qed.

(** Reading back a sorted object whose entries all read back. *)
Lemma read_sorted_entries {V} (enc : V -> json) (f : string * json -> outcome (string * V))
    (fallback : V) (m : gmap string V) :
  (forall k v, f (k, enc v) = Ok (k, v)) ->
  exists l : list (string * V),
    mapM f (sorting.merge_sort key_le (map (fun kv => (fst kv, enc (snd kv))) (map_to_list m)))
    = Ok l /\
    (list_to_map l : gmap string V) = m.
Proof.
  intros Hf.
  set (es := sorting.merge_sort key_le (map (fun kv => (fst kv, enc (snd kv))) (map_to_list m))).
  assert (Hperm : es ≡ₚ map (fun kv => (fst kv, enc (snd kv))) (map_to_list m))
    by apply sorting.merge_sort_Permutation.
  set (g := fun kv : string * json =>
              match f kv with Ok r => r | Raise _ => (fst kv, fallback) end).
  exists (map g es). split.
  - apply mapM_Ok_map. intros [k x] Hin. rewrite Hperm in Hin.
    apply list_elem_of_fmap in Hin as ([k' v] & [= -> ->] & _). cbn [fst snd].
    unfold g. by rewrite Hf.
  - assert (Hback : map g es ≡ₚ map_to_list m).
    { rewrite Hperm, map_map.
      assert (Hid : map (fun x => g (x.1, enc x.2)) (map_to_list m) = map_to_list m).
      { rewrite <- (map_id (map_to_list m)) at 2. apply map_ext. intros [k v].
        unfold g. cbn [fst snd]. by rewrite Hf. }
      by rewrite Hid. }
    transitivity (list_to_map (map_to_list m) : gmap string V);
      [|apply list_to_map_to_list].
    apply list_to_map_proper; [|done].
    rewrite Hback. apply NoDup_fst_map_to_list.
Qed.

Lemma read_meta_back (meta : gmap string string) :
  read_meta (sort_keys (meta_to_dict meta)) = Ok meta.
Proof.
  unfold meta_to_dict. rewrite sort_keys_dict, map_map. cbn [fst snd sort_keys].
  unfold read_meta.
  destruct (read_sorted_entries JStr
              (fun kv => match snd kv with
                         | JStr s => Ok (fst kv, s)
                         | _ => Raise Untyped
                         end) EmptyString meta) as (l & -> & Hl); [done|].
  unfold mbind, outcome_bind. by rewrite Hl.
Qed.

Lemma read_processed_back (p : gmap string (gmap string string)) :
  read_processed
    (sort_keys (JDict (map (fun kv => (fst kv, meta_to_dict (snd kv))) (map_to_list p))))
  = Ok p.
Proof.
  rewrite sort_keys_dict, map_map. cbn [fst snd]. unfold read_processed.
  destruct (read_sorted_entries (fun meta => sort_keys (meta_to_dict meta))
              (fun kv => meta ← read_meta (snd kv); Ok (fst kv, meta)) ∅ p)
    as (l & -> & Hl).
  { intros k v. cbn [fst snd]. by rewrite read_meta_back. }
  unfold mbind, outcome_bind. by rewrite Hl.
Qed.

Lemma sorted_field (d : list (string * json)) (k : string) :
  NoDup (d.*1) ->
  od_get k (sorting.merge_sort key_le (map (fun kv => (fst kv, sort_keys (snd kv))) d))
  = sort_keys <$> od_get k d.
Proof.
  intros Hnd.
  rewrite (od_get_Permutation k _ (map (fun kv => (fst kv, sort_keys (snd kv))) d)).
  - clear. induction d as [|[k0 v] d IH]; [done|]. cbn [map od_get fst snd].
    destruct (decide (k = k0)); [done|apply IH].
  - rewrite (sorting.merge_sort_Permutation key_le). by rewrite <- list_fmap_compose.
  - apply sorting.merge_sort_Permutation.
Qed.

(** X15. The manifest survives being saved and loaded. [save_manifest]
    stamps [updated_at] and stores the fields of the manifest as a JSON
    document with sorted keys; [load_manifest] on that document and its
    etag returns the manifest as it was saved, with that etag: the
    checkpoint and every [processed] entry, with its etag and [seen_at],
    reach the next run. [load_manifest_node] then overrides the stored
    [lookback_hours] with the run's own. Without a stored object both
    return a manifest with no checkpoint and no entry, and no etag. A
    stored document that is not an object fails with [AttributeError]. *)
Theorem manifest_round_trip (isoformat : Z -> string) (int_of_str : string -> option Z)
    (manifest : ManifestState) (now lookback : Z) (etag : string) :
  let saved := fst (save_manifest isoformat manifest now) in
  let document := snd (save_manifest isoformat manifest now) in
  saved = mkManifestState (version manifest) (last_datehour manifest) (processed manifest)
            (Some (isoformat now)) (lookback_hours manifest) /\
  load_manifest int_of_str (Some (etag, document)) lookback = Ok (Some (saved, Some etag)) /\
  load_manifest_node int_of_str (Some (etag, document)) lookback
  = Ok (Some (mkManifestState (version manifest) (last_datehour manifest)
                (processed manifest) (Some (isoformat now)) lookback,
              Some etag)) /\
  load_manifest int_of_str None lookback = Ok (Some (ManifestState0 lookback, None)) /\
  load_manifest_node int_of_str None lookback = Ok (Some (ManifestState0 lookback, None)) /\
  (forall l, load_manifest int_of_str (Some (etag, JList l)) lookback = Raise AttributeError).
Proof.
  intros saved document.
  assert (Hload : load_manifest int_of_str (Some (etag, document)) lookback
                  = Ok (Some (saved, Some etag))).
  { subst saved document. unfold save_manifest. cbn [fst snd].
    unfold to_dict. cbn [version last_datehour processed updated_at lookback_hours].
    rewrite sort_keys_dict.
    match goal with
    | |- context [sorting.merge_sort key_le (map _ ?l)] => set (d := l)
    end.
    assert (Hf : forall k,
      od_get k (sorting.merge_sort key_le (map (fun kv => (fst kv, sort_keys (snd kv))) d))
      = sort_keys <$> od_get k d).
    { intros k. apply sorted_field. by apply (bool_decide_unpack _). }
    unfold load_manifest, jget. rewrite !Hf.
    assert (od_get "version"%string d = Some (JInt (version manifest))) as -> by reflexivity.
    assert (od_get "last_datehour"%string d = Some (opt_text (last_datehour manifest)))
      as -> by reflexivity.
    assert (od_get "processed"%string d
            = Some (JDict (map (fun kv => (fst kv, meta_to_dict (snd kv)))
                             (map_to_list (processed manifest))))) as -> by reflexivity.
    assert (od_get "updated_at"%string d = Some (opt_text (Some (isoformat now))))
      as -> by reflexivity.
    assert (od_get "lookback_hours"%string d = Some (JInt (lookback_hours manifest)))
      as -> by reflexivity.
    cbn [fmap option_fmap option_map default from_option id].
    rewrite read_processed_back.
    assert (Htext : forall x, text_field (sort_keys (opt_text x)) = Ok x)
      by (by intros [x|]).
    rewrite !Htext. done. }
  split; [done|]. split; [exact Hload|]. split; [|split; [done|split; [done|done]]].
  unfold load_manifest_node. rewrite Hload. done.
Qed.
End manifest_document.

(** ** The snapshot document *)

Section snapshot_document.
Import Reporting.

Lemma od_get_Some_elem {K} `{EqDecision K} {V} (k : K) (v : V) (d : list (K * V)) :
  keyed_once d -> (od_get k d = Some v <-> (k, v) ∈ d).
Proof.
  unfold keyed_once. induction d as [|[k0 v0] d IH]; intros Hnd.
  - cbn [od_get]. rewrite elem_of_nil. naive_solver.
  - change (od_keys ((k0, v0) :: d)) with (k0 :: od_keys d) in Hnd.
    apply NoDup_cons in Hnd as [Hk0 Hnd]. cbn [od_get]. rewrite elem_of_cons.
    destruct (decide (k = k0)) as [->|Hne].
    + split; [intros [= ->]; by left|]. intros [[= ->]|Hin]; [done|].
      exfalso. apply Hk0. unfold od_keys. apply list_elem_of_fmap. by exists (k0, v).
    + rewrite (IH Hnd). split; [tauto|]. intros [[= -> ->]|Hin]; [done|done].
Qed.

Lemma od_get_perm {K} `{EqDecision K} {V} (k : K) (d d' : list (K * V)) :
  keyed_once d -> d ≡ₚ d' -> od_get k d = od_get k d'.
Proof.
  intros Hnd Hp.
  assert (Hnd' : keyed_once d') by (unfold keyed_once, od_keys in *; by rewrite <- Hp).
  apply option_eq. intros v. rewrite !od_get_Some_elem by done. by rewrite Hp.
Qed.

Lemma od_items_of_keys {V} (d : list (string * V)) :
  keyed_once d ->
  omap (fun k => (fun v => (k, v)) <$> od_get k d) (od_keys d) = d.
Proof.
  unfold keyed_once. induction d as [|[k0 v0] d IH]; intros Hnd; [done|].
  change (od_keys ((k0, v0) :: d)) with (k0 :: od_keys d) in *.
  apply NoDup_cons in Hnd as [Hk0 Hnd]. cbn [omap list_omap od_get].
  rewrite decide_True by done. cbn [fmap option_fmap option_map]. f_equal.
  rewrite <- (IH Hnd) at 2. apply list_omap_ext.
  apply Forall2_same_length_lookup. split; [done|].
  intros i x y Hx Hy. rewrite Hx in Hy. injection Hy as <-.
  rewrite decide_False; [done|]. intros ->. apply Hk0. by eapply list_elem_of_lookup_2.
Qed.

Lemma sorted_items_perm {V} (d : list (string * V)) :
  keyed_once d -> sorted_items d ≡ₚ d.
Proof.
  intros Hnd. unfold sorted_items, sorted_keys.
  rewrite (sorting.merge_sort_Permutation str_le). by rewrite od_items_of_keys.
Qed.

Lemma sorted_items_keyed {V} (d : list (string * V)) :
  keyed_once d -> keyed_once (sorted_items d).
Proof.
  intros Hnd. unfold keyed_once, od_keys in *. by rewrite (sorted_items_perm d Hnd).
Qed.

Lemma sorted_items_keys {V} (d : list (string * V)) :
  od_keys (sorted_items d) = sorted_keys d.
Proof.
  unfold sorted_items.
  assert (Hsub : forall k, k ∈ sorted_keys d -> k ∈ od_keys d).
  { intros k. unfold sorted_keys. by rewrite (sorting.merge_sort_Permutation str_le). }
  induction (sorted_keys d) as [|k ks IH]; [done|]. cbn [omap list_omap].
  assert (Hk : od_mem k d = true) by (apply od_mem_keys, Hsub; left).
  unfold od_mem in Hk. destruct (od_get k d) as [v|]; [|done].
  cbn [fmap option_fmap option_map od_keys map fst]. f_equal.
  apply IH. intros k' Hk'. apply Hsub. by right.
Qed.

Lemma sum_of_perm {K} (field : TokenStats -> Z) (d d' : list (K * TokenStats)) :
  d ≡ₚ d' -> sum_of field d = sum_of field d'.
Proof.
  unfold sum_of, od_values, sum_Z.
  induction 1 as [|x l l' _ IH|x y l|l1 l2 l3 _ IH1 _ IH2]; simpl; lia.
Qed.

Lemma od_set_new {K} `{EqDecision K} {V} (k : K) (v : V) (d : list (K * V)) :
  k ∉ od_keys d -> ReportStore.od_set k v d = d ++ [(k, v)].
Proof.
  unfold ReportStore.od_set, od_keys. induction d as [|[k0 v0] d IH]; intros Hk; [done|].
  cbn [od_upsert app]. cbn [map fst] in Hk. apply not_elem_of_cons in Hk as [Hne Hk].
  rewrite decide_False by done. by rewrite IH.
Qed.

(** A loading loop that stores every item it is given. *)
Lemma foldl_od_set {K} `{EqDecision K} {A}
    (step : outcome (list (K * TokenStats)) -> A -> outcome (list (K * TokenStats)))
    (enc : K * TokenStats -> A) (items : list (K * TokenStats)) :
  (forall d kv, kv ∈ items ->
     step (Ok d) (enc kv) = Ok (ReportStore.od_set (fst kv) (snd kv) d)) ->
  forall d0,
    keyed_once (d0 ++ items) ->
    foldl step (Ok d0) (map enc items) = Ok (d0 ++ items).
Proof.
  unfold keyed_once, od_keys.
  induction items as [|[k v] items IH]; intros Hstep d0 Hnd.
  - by rewrite app_nil_r.
  - cbn [map foldl]. rewrite (Hstep d0 (k, v) (list_elem_of_here _ _)). cbn [fst snd].
    rewrite od_set_new.
    + rewrite (IH (fun d kv Hin => Hstep d kv (list_elem_of_further _ _ _ Hin))).
      * by rewrite <- app_assoc.
      * by rewrite <- app_assoc.
    + rewrite map_app in Hnd. apply NoDup_app in Hnd as (_ & Hdis & _).
      intros Hin. apply (Hdis k Hin). cbn [map fst]. apply list_elem_of_here.
Qed.

Lemma stats_of_back (st : TokenStats) :
  ReportStore.stats_of (_token_stats_to_dict st) = Ok st.
Proof. by destruct st. Qed.

Lemma load_dimension_back (metrics_dict : list (string * json)) (field : string)
    (d : list (string * TokenStats)) :
  keyed_once d ->
  od_get field metrics_dict = Some (_stats_map_to_dict d) ->
  ReportStore.load_dimension metrics_dict field = Ok (sorted_items d).
Proof.
  intros Hnd Hf. unfold ReportStore.load_dimension. rewrite Hf. unfold _stats_map_to_dict.
  assert (Hes : omap (fun k => (fun st => (k, _token_stats_to_dict st)) <$> od_get k d)
                     (sorted_keys d)
                = map (fun kv => (fst kv, _token_stats_to_dict (snd kv))) (sorted_items d)).
  { unfold sorted_items.
    change (map ?f ?l) with (f <$> l). rewrite list_fmap_omap.
    apply list_omap_ext, Forall2_same_length_lookup. split; [done|].
    intros i x y Hx Hy. rewrite Hx in Hy. injection Hy as <-.
    by destruct (od_get x d). }
  rewrite Hes.
  rewrite (foldl_od_set _ (fun kv => (fst kv, _token_stats_to_dict (snd kv)))
             (sorted_items d)); [done| |].
  - intros d0 kv _. unfold mbind, outcome_bind. cbn [fst snd]. by rewrite stats_of_back.
  - by apply sorted_items_keyed.
Qed.

Lemma usage_entry_back (d0 : list (usage_key * TokenStats)) (kv : usage_key * TokenStats) :
  key_region (fst kv) <> EmptyString -> key_identity (fst kv) <> EmptyString ->
  key_model (fst kv) <> EmptyString ->
  (let '(region, ident, model_id) := fst kv in
   let e := [("region"%string, JStr region); ("identity"%string, JStr ident);
             ("model_id"%string, JStr model_id)] ++ stats_entries (snd kv) in
   (let region := jget "region" e in
    let ident := jget "identity" e in
    let model_id := jget "model_id" e in
    if negb (truthy region) || negb (truthy ident) || negb (truthy model_id)
    then Ok d0
    else
      r ← ReportStore.key_part region;
      i ← ReportStore.key_part ident;
      m ← ReportStore.key_part model_id;
      st ← ReportStore.stats_of (JDict e);
      Ok (ReportStore.od_set (r, i, m) st d0)))
  = Ok (ReportStore.od_set (fst kv) (snd kv) d0).
Proof.
  destruct kv as [[[region ident] model_id] st]. unfold key_region, key_identity, key_model.
  cbn [fst snd]. intros Hr Hi Hm.
  destruct region; [done|]. destruct ident; [done|]. destruct model_id; [done|].
  by destruct st.
Qed.

Lemma load_usage_list_back (d : list (usage_key * TokenStats)) :
  keyed_once d ->
  (forall k, k ∈ od_keys d ->
     key_region k <> EmptyString /\ key_identity k <> EmptyString /\
     key_model k <> EmptyString) ->
  match _usage_key_map_to_list d with
  | JList entries => ReportStore.load_usage_list entries
  | _ => Ok []
  end = Ok (sorting.merge_sort item_le d).
Proof.
  intros Hnd Hnamed. unfold _usage_key_map_to_list, ReportStore.load_usage_list.
  assert (Hperm : sorting.merge_sort item_le d ≡ₚ d) by apply sorting.merge_sort_Permutation.
  rewrite (foldl_od_set _ _ (sorting.merge_sort item_le d)); [done| |].
  - intros d0 kv Hin. unfold mbind at 1, outcome_bind at 1.
    assert (Hk : fst kv ∈ od_keys d).
    { unfold od_keys. apply list_elem_of_fmap. exists kv. split; [done|]. by rewrite <- Hperm. }
    destruct (Hnamed _ Hk) as (Hr & Hi & Hm).
    pose proof (usage_entry_back d0 kv Hr Hi Hm) as Hback.
    destruct kv as [[[region ident] model_id] st]. exact Hback.
  - unfold keyed_once, od_keys in *. cbn [app]. by rewrite Hperm.
Qed.

(** X16. The metrics survive the snapshot. For a [Metrics] whose granular
    keys have no empty component, the document [build_report_snapshot]
    makes is read back by [load_metrics_from_snapshot] as the same totals,
    the entries of every dimension in the order of their keys, the granular
    entries in the order of theirs, and an empty [model_id_map]: the
    original identifiers are not stored. Every entry is found under its
    key with the counts and the cost it had; a snapshot written from
    covered granular keys reads back with covered granular keys, and one
    written from an aggregate that passes the integer comparisons of the
    self-check reads back as one that passes them.
    [load_snapshot_node] merges exactly that value into the run's metrics
    unless the run is forced. *)
Theorem snapshot_round_trip (isoformat : Z -> string) (report_date : string)
    (report_start report_end generated_at : Z) (m : Metrics) (w : Warnings)
    (stats : Workflow.run_stats) (report_text : string)
    (Hkeys : well_keyed m) (Hnamed : usage_keys_named m) :
  let document := build_report_snapshot isoformat report_date report_start report_end
                    generated_at m w stats report_text in
  ReportStore.load_metrics_from_snapshot document = Ok (Some (reloaded m)) /\
  (by_region (reloaded m) ≡ₚ by_region m /\ by_identity (reloaded m) ≡ₚ by_identity m /\
   by_model (reloaded m) ≡ₚ by_model m /\ by_usage_key (reloaded m) ≡ₚ by_usage_key m) /\
  ((forall k, od_get k (by_region (reloaded m)) = od_get k (by_region m)) /\
   (forall k, od_get k (by_identity (reloaded m)) = od_get k (by_identity m)) /\
   (forall k, od_get k (by_model (reloaded m)) = od_get k (by_model m)) /\
   (forall k, od_get k (by_usage_key (reloaded m)) = od_get k (by_usage_key m))) /\
  od_keys (by_region (reloaded m)) = sorted_keys (by_region m) /\
  well_keyed (reloaded m) /\
  (usage_keys_covered m -> usage_keys_covered (reloaded m)) /\
  (counts_verified m -> counts_verified (reloaded m)) /\
  (forall current,
     Workflow.load_snapshot_node false (Some document) current
       = Ok (merge current (reloaded m)) /\
     Workflow.load_snapshot_node true (Some document) current = Ok current).
Proof.
  intros document. destruct Hkeys as (Hr & Hi & Hm & Hu).
  assert (Hload : ReportStore.load_metrics_from_snapshot document = Ok (Some (reloaded m))).
  { unfold ReportStore.load_metrics_from_snapshot, ReportStore.read_metrics.
    subst document. unfold build_report_snapshot.
    match goal with
    | |- context [od_get "metrics"%string ?top] =>
        assert (od_get "metrics"%string top = Some (_metrics_to_dict m)) as -> by reflexivity
    end.
    unfold _metrics_to_dict at 1.
    match goal with
    | |- context [od_get "totals"%string ?md] => set (metrics_dict := md)
    end.
    assert (od_get "totals"%string metrics_dict = Some (_token_stats_to_dict (totals m)))
      as -> by reflexivity.
    rewrite stats_of_back.
    rewrite (load_dimension_back metrics_dict "by_region" (by_region m)) by done.
    rewrite (load_dimension_back metrics_dict "by_identity" (by_identity m)) by done.
    rewrite (load_dimension_back metrics_dict "by_model" (by_model m)) by done.
    assert (od_get "by_usage_key"%string metrics_dict
            = Some (_usage_key_map_to_list (by_usage_key m))) as -> by reflexivity.
    pose proof (load_usage_list_back (by_usage_key m) Hu Hnamed) as Hul.
    unfold _usage_key_map_to_list in Hul |- *. rewrite Hul. done. }
  assert (Hperm : by_region (reloaded m) ≡ₚ by_region m /\
                  by_identity (reloaded m) ≡ₚ by_identity m /\
                  by_model (reloaded m) ≡ₚ by_model m /\
                  by_usage_key (reloaded m) ≡ₚ by_usage_key m).
  { unfold reloaded. cbn [by_region by_identity by_model by_usage_key].
    repeat split; try (by apply sorted_items_perm).
    apply sorting.merge_sort_Permutation. }
  destruct Hperm as (Pr & Pi & Pm & Pu).
  assert (Hwk : well_keyed (reloaded m)).
  { unfold well_keyed, keyed_once, od_keys in *. by rewrite Pr, Pi, Pm, Pu. }
  destruct Hwk as (Hr' & Hi' & Hm' & Hu').
  split; [exact Hload|]. split; [done|]. split; [|split; [|split; [done|split; [|split]]]].
  - repeat split; intros k; symmetry; by apply od_get_perm.
  - apply sorted_items_keys.
  - intros Hcov k Hk. unfold od_keys in *. rewrite Pr, Pi, Pm. apply Hcov.
    unfold od_keys. by rewrite <- Pu.
  - intros Hv. apply counts_verified_iff in Hv as (H1 & H2 & H3 & H4 & H5).
    apply counts_verified_iff. unfold reloaded at 1 2 3 4 5 6 7 8.
    cbn [totals]. rewrite !(sum_of_perm _ _ _ Pr), !(sum_of_perm _ _ _ Pi). done.
  - intros current. split; [|done].
    subst document. unfold build_report_snapshot in *.
    match type of Hload with
    | ReportStore.load_metrics_from_snapshot (JDict ?t) = _ => set (top := t) in *
    end.
    assert (Hsv : od_get "schema_version"%string top = Some (JInt 1)) by reflexivity.
    unfold Workflow.load_snapshot_node. rewrite Hsv, Hload. done.
Qed.
End snapshot_document.

Lemma snapshot_round_trip_witness :
  well_keyed Examples.priced_bucket_after /\
  usage_keys_named Examples.priced_bucket_after /\
  ReportStore.load_metrics_from_snapshot
    (Reporting.build_report_snapshot DedupExamples.isoformat "2026-02-02"
       ScanExamples.report_start ScanExamples.report_end ScanExamples.first_run_time
       Examples.priced_bucket_after Warnings0 Workflow.run_stats0 "report")
  = Ok (Some (reloaded Examples.priced_bucket_after)).
Proof.
  assert (Hk : well_keyed Examples.priced_bucket_after)
    by (repeat split; apply NoDup_singleton).
  assert (Hn : usage_keys_named Examples.priced_bucket_after).
  { intros k ->%list_elem_of_singleton. by repeat split. }
  split; [exact Hk|]. split; [exact Hn|].
  exact (proj1 (snapshot_round_trip DedupExamples.isoformat "2026-02-02"
                  ScanExamples.report_start ScanExamples.report_end
                  ScanExamples.first_run_time Examples.priced_bucket_after Warnings0
                  Workflow.run_stats0 "report" Hk Hn)).
Defined.

(** ** The ranking of the report *)

Section ranking.
Import Reporting.
Context {K : Type}.
Implicit Types (x y : K * TokenStats) (l : list (K * TokenStats)).

(** [x] does not rank below [y]. *)
Local Abbreviation outranks x y := (total_tokens (snd y) <= total_tokens (snd x)) (only parsing).

Lemma insert_desc_perm x l : insert_desc x l ≡ₚ x :: l.
Proof.
  induction l as [|y l IH]; [done|]. cbn [insert_desc].
  destruct (total_tokens (snd y) <=? total_tokens (snd x)); [done|].
  rewrite IH. apply Permutation_swap.
Qed.

Lemma sort_desc_perm l : sort_desc l ≡ₚ l.
Proof.
  induction l as [|x l IH]; [done|]. unfold sort_desc in *. cbn [foldr].
  by rewrite insert_desc_perm, IH.
Qed.

Lemma insert_desc_sorted x l : descending l -> descending (insert_desc x l).
Proof.
  unfold descending. induction 1 as [|y l Hsorted IH Hall]; cbn [insert_desc].
  - repeat constructor.
  - destruct (total_tokens (snd y) <=? total_tokens (snd x)) eqn:E.
    + apply Z.leb_le in E. constructor; [by constructor|].
      constructor; [done|]. eapply Forall_impl; [exact Hall|]. simpl. intros z Hz. lia.
    + apply Z.leb_gt in E. constructor; [done|].
      rewrite insert_desc_perm. constructor; [lia|done].
Qed.

Lemma sort_desc_sorted l : descending (sort_desc l).
Proof.
  induction l as [|x l IH]; [constructor|]. unfold sort_desc in *. cbn [foldr].
  by apply insert_desc_sorted.
Qed.

Lemma insert_desc_ties x l (t : Z) :
  filter (fun y => total_tokens (snd y) = t) (insert_desc x l)
  = filter (fun y => total_tokens (snd y) = t) (x :: l).
Proof.
  induction l as [|y l IH]; [done|]. cbn [insert_desc].
  destruct (total_tokens (snd y) <=? total_tokens (snd x)) eqn:E; [done|].
  apply Z.leb_gt in E. rewrite filter_cons, IH, !filter_cons.
  destruct (decide (total_tokens (snd y) = t)) as [Hy|Hy]; [|done].
  destruct (decide (total_tokens (snd x) = t)) as [Hx|Hx]; [lia|done].
Qed.

Lemma sort_desc_ties l (t : Z) :
  filter (fun y => total_tokens (snd y) = t) (sort_desc l)
  = filter (fun y => total_tokens (snd y) = t) l.
Proof.
  induction l as [|x l IH]; [done|]. unfold sort_desc in *. cbn [foldr].
  rewrite insert_desc_ties, !filter_cons. by rewrite IH.
Qed.

Lemma sorted_split l1 l2 :
  descending (l1 ++ l2) ->
  forall x y, x ∈ l1 -> y ∈ l2 -> outranks x y.
Proof.
  unfold descending.
  induction l1 as [|z l1 IH]; intros Hs x y Hx Hy; [by apply elem_of_nil in Hx|].
  cbn [app] in Hs. apply Sorted.StronglySorted_inv in Hs as [Hs Hall].
  apply elem_of_cons in Hx as [->|Hx].
  - rewrite Forall_forall in Hall. apply Hall, elem_of_app. by right.
  - by apply IH.
Qed.
End ranking.

(** X17. The identities the report names are the five largest. The list
    [_top_identities] returns has five entries, or all of them when there
    are fewer; together with the entries it leaves out it is a
    rearrangement of [by_identity]; it is in descending order of
    [total_tokens], and no entry left out has more tokens than one that is
    listed. [_by_model] is such a rearrangement of all of [by_model] in
    descending order. In both, entries with the same total stay in the
    order the dictionary had them in. *)
Theorem top_identities_are_largest (m : Metrics) :
  let top := Reporting._top_identities m in
  length top = Nat.min 5 (length (by_identity m)) /\
  (exists rest,
     top ++ rest ≡ₚ by_identity m /\
     forall x y, x ∈ top -> y ∈ rest ->
       total_tokens (snd y) <= total_tokens (snd x)) /\
  descending top /\
  (forall x, x ∈ top -> x ∈ by_identity m) /\
  Reporting._by_model m ≡ₚ by_model m /\
  descending (Reporting._by_model m) /\
  (forall t,
     filter (fun y => total_tokens (snd y) = t) (Reporting._by_model m)
     = filter (fun y => total_tokens (snd y) = t) (by_model m)) /\
  (forall t,
     filter (fun y => total_tokens (snd y) = t) top
     = take (length (filter (fun y => total_tokens (snd y) = t) top))
         (filter (fun y => total_tokens (snd y) = t) (by_identity m))).
Proof.
  intros top. subst top. unfold Reporting._top_identities, Reporting._by_model.
  pose proof (sort_desc_perm (by_identity m)) as Hperm.
  pose proof (sort_desc_sorted (by_identity m)) as Hsorted.
  rewrite <- (take_drop 5 (Reporting.sort_desc (by_identity m))) in Hperm, Hsorted.
  split; [|split; [|split; [|split; [|split; [|split; [|split]]]]]].
  - rewrite length_take. by rewrite (Permutation_length (sort_desc_perm (by_identity m))).
  - exists (drop 5 (Reporting.sort_desc (by_identity m))). split; [done|].
    by apply sorted_split.
  - clear Hperm. revert Hsorted. generalize (drop 5 (Reporting.sort_desc (by_identity m))).
    unfold descending.
    induction (take 5 (Reporting.sort_desc (by_identity m))) as [|x l IH]; intros l2 Hs.
    + constructor.
    + cbn [app] in Hs. apply Sorted.StronglySorted_inv in Hs as [Hs Hall]. constructor.
      * by eapply IH.
      * by apply Forall_app in Hall as [? _].
  - intros x Hx. rewrite <- Hperm. apply elem_of_app. by left.
  - apply sort_desc_perm.
  - apply sort_desc_sorted.
  - intros t. apply sort_desc_ties.
  - intros t. rewrite <- (sort_desc_ties (by_identity m) t).
    set (kept := take 5 (Reporting.sort_desc (by_identity m))).
    rewrite <- (take_drop 5 (Reporting.sort_desc (by_identity m))).
    fold kept. by rewrite filter_app, take_app_length.
Qed.

(** ** Listing the objects of the scan prefixes *)
Section listing_facts.
Import Workflow Listing.
Variable metadata_name : string -> bool.
Variable list_objects : string -> string -> outcome (list S3Object).

Lemma list_prefixes_spec bucket prefixes : forall stats acc,
  match list_prefixes metadata_name list_objects bucket prefixes stats acc with
  | Ok (stats', objects) =>
      exists founds,
        Forall2 (fun prefix found => list_objects bucket prefix = Ok found)
          prefixes founds /\
        objects
        = acc ++ filter (fun obj => _is_metadata_file metadata_name (key obj) = true)
                   (concat founds) /\
        objects_listed stats'
        = objects_listed stats + Z.of_nat (length (concat founds)) /\
        objects_filtered stats'
        = objects_filtered stats
          + (Z.of_nat (length (concat founds))
             - Z.of_nat (length (filter
                  (fun obj => _is_metadata_file metadata_name (key obj) = true)
                  (concat founds)))) /\
        objects_processed stats' = objects_processed stats /\
        records_parsed stats' = records_parsed stats /\
        records_used stats' = records_used stats
  | Raise e =>
      exists before prefix after,
        prefixes = before ++ prefix :: after /\
        Forall (fun p => is_ok (list_objects bucket p)) before /\
        list_objects bucket prefix = Raise e
  end.
Proof.
  induction prefixes as [|prefix rest IH]; intros stats acc; cbn [list_prefixes].
  - exists []. cbn [concat length]. rewrite filter_nil, app_nil_r. cbn [length].
    split; [constructor|]. repeat split; lia.
  - destruct (list_objects bucket prefix) as [found|e] eqn:Hfound.
    + cbn zeta.
      match goal with
      | |- match list_prefixes _ _ _ _ ?s ?a with _ => _ end =>
          specialize (IH s a); destruct (list_prefixes metadata_name list_objects bucket rest s a)
            as [[stats' objects]|e]
      end.
      * destruct IH as (founds & Hall & -> & Hlisted & Hfiltered & Hp & Hr & Hu).
        exists (found :: founds). cbn [concat].
        rewrite filter_app, !length_app, <- app_assoc.
        cbn [add_listed add_filtered objects_listed objects_filtered
             objects_processed records_parsed records_used] in *.
        repeat split; try done; [by constructor|lia|lia].
      * destruct IH as (before & p & after & -> & Hall & Hraise).
        exists (prefix :: before), p, after. repeat split; try done.
        constructor; [by rewrite Hfound|done].
    + exists [], prefix, rest. by repeat split.
Qed.

(** X18 — [list_objects_node] asks the store for each scan prefix in turn.
    When every listing succeeds, [state["objects"]] is, in the order of the
    prefixes and of each listing, exactly the listed objects that
    [_is_metadata_file] accepts; [objects_listed] grows by the number of
    listed objects and [objects_filtered] by the number of those left out,
    so the two increments differ by the number of objects kept, and the
    other counters stay as they were.  No kept object is a request or
    response body file or the permission check file, whatever the pattern
    of metadata names accepts.  When a listing fails, the node fails with
    the error of the first prefix whose listing fails. *)
Theorem listed_objects_accounted bucket prefixes stats :
  match list_objects_node metadata_name list_objects bucket prefixes stats with
  | Ok (stats', objects) =>
      (exists founds,
         Forall2 (fun prefix found => list_objects bucket prefix = Ok found)
           prefixes founds /\
         objects
         = filter (fun obj => _is_metadata_file metadata_name (key obj) = true)
             (concat founds) /\
         objects_listed stats'
         = objects_listed stats + Z.of_nat (length (concat founds))) /\
      objects_listed stats' - objects_listed stats
      = (objects_filtered stats' - objects_filtered stats)
        + Z.of_nat (length objects) /\
      objects_filtered stats <= objects_filtered stats' /\
      objects_processed stats' = objects_processed stats /\
      records_parsed stats' = records_parsed stats /\
      records_used stats' = records_used stats /\
      (forall obj, obj ∈ objects ->
         contains "_input.json" (basename (key obj)) = false /\
         contains "_output.json" (basename (key obj)) = false /\
         PyStr.startswith "amazon-bedrock-logs-permission-check"
           (basename (key obj)) = false /\
         metadata_name (basename (key obj)) = true)
  | Raise e =>
      exists before prefix after,
        prefixes = before ++ prefix :: after /\
        Forall (fun p => is_ok (list_objects bucket p)) before /\
        list_objects bucket prefix = Raise e
  end.
Proof.
  unfold list_objects_node.
  pose proof (list_prefixes_spec bucket prefixes stats []) as Hspec.
  destruct (list_prefixes metadata_name list_objects bucket prefixes stats [])
    as [[stats' objects]|e]; [|done].
  destruct Hspec as (founds & Hall & Hobjects & Hlisted & Hfiltered & Hp & Hr & Hu).
  cbn [app] in Hobjects. subst objects.
  pose proof (length_filter
    (fun obj => _is_metadata_file metadata_name (key obj) = true) (concat founds)).
  repeat split; try done; try lia.
  - by exists founds.
  - apply list_elem_of_filter in H0 as [Hkeep _]. unfold _is_metadata_file in Hkeep.
    cbn zeta in Hkeep.
    destruct (contains "_input.json" (basename (key obj))); [done|done].
  - apply list_elem_of_filter in H0 as [Hkeep _]. unfold _is_metadata_file in Hkeep.
    cbn zeta in Hkeep.
    destruct (contains "_input.json" (basename (key obj))); [done|].
    by destruct (contains "_output.json" (basename (key obj))).
  - apply list_elem_of_filter in H0 as [Hkeep _]. unfold _is_metadata_file in Hkeep.
    cbn zeta in Hkeep.
    destruct (contains "_input.json" (basename (key obj))); [done|].
    destruct (contains "_output.json" (basename (key obj))); [done|].
    cbn [orb] in Hkeep.
    by destruct (PyStr.startswith "amazon-bedrock-logs-permission-check"
                   (basename (key obj))).
  - apply list_elem_of_filter in H0 as [Hkeep _]. unfold _is_metadata_file in Hkeep.
    cbn zeta in Hkeep.
    destruct (contains "_input.json" (basename (key obj))); [done|].
    destruct (contains "_output.json" (basename (key obj))); [done|].
    cbn [orb] in Hkeep.
    by destruct (PyStr.startswith "amazon-bedrock-logs-permission-check"
                   (basename (key obj))).
Qed.
End listing_facts.

(** One hour of a bucket: of the four objects under the two prefixes only
    the metadata file is kept. *)
Example listing_one_hour :
  Listing.list_objects_node ListingExamples.metadata_name ListingExamples.list_objects
    "logs" [ListingExamples.hour_prefix; "AWSLogs/amazon"] Workflow.run_stats0
  = Ok (Workflow.mkRunStats 4 3 0 0 0, [ListingExamples.metadata_object]).
Proof. reflexivity. Qed.

(** ** The key of the manifest *)
Section manifest_key_facts.
Import ManifestKey.

Lemma rstrip_snoc c s : rstrip c (s +:+ String c "") = rstrip c s.
Proof.
  induction s as [|a s IH].
  - rewrite app_nil_str. cbn [rstrip]. by rewrite decide_True.
  - rewrite app_cons_str. cbn [rstrip]. by rewrite IH.
Qed.

Lemma strip_snoc c s : strip c (s +:+ String c "") = strip c s.
Proof.
  unfold strip. induction s as [|a s IH].
  - rewrite app_nil_str. cbn [lstrip]. by rewrite decide_True.
  - rewrite app_cons_str. cbn [lstrip]. case_decide; [done|].
    by rewrite <- app_cons_str, rstrip_snoc.
Qed.

Lemma lstrip_head c s : PyStr.startswith (String c "") (lstrip c s) = false.
Proof.
  induction s as [|a s IH]; [done|]. cbn [lstrip]. case_decide; [done|].
  cbn [PyStr.startswith]. by rewrite decide_False by congruence.
Qed.

Lemma rstrip_head c s :
  PyStr.startswith (String c "") s = false ->
  PyStr.startswith (String c "") (rstrip c s) = false.
Proof.
  destruct s as [|a s]; [done|]. cbn [PyStr.startswith rstrip].
  case_decide; [done|]. intros _.
  destruct (rstrip c s).
  - rewrite decide_False by congruence. cbn [PyStr.startswith].
    by rewrite decide_False by congruence.
  - cbn [PyStr.startswith]. by rewrite decide_False by congruence.
Qed.

Lemma rstrip_tail c s : ends_with c (rstrip c s) = false.
Proof.
  induction s as [|a s IH]; [done|]. cbn [rstrip].
  destruct (rstrip c s) as [|b kept] eqn:Hkept.
  - case_decide; [done|]. cbn [ends_with]. by rewrite decide_False by congruence.
  - change (ends_with c (String a (String b kept))) with (ends_with c (String b kept)).
    done.
Qed.

Lemma lstrip_id c s : PyStr.startswith (String c "") s = false -> lstrip c s = s.
Proof.
  destruct s as [|a s]; [done|]. cbn [PyStr.startswith lstrip].
  by case_decide; case_decide; subst.
Qed.

Lemma rstrip_id c s : ends_with c s = false -> rstrip c s = s.
Proof.
  induction s as [|a s IH]; [done|]. destruct s as [|b s].
  - cbn [ends_with rstrip]. by case_decide.
  - change (ends_with c (String a (String b s))) with (ends_with c (String b s)).
    intros Hend. cbn [rstrip] in *. rewrite (IH Hend). done.
Qed.

Lemma strip_ends c s :
  PyStr.startswith (String c "") (strip c s) = false /\ ends_with c (strip c s) = false.
Proof.
  unfold strip. split; [apply rstrip_head, lstrip_head|apply rstrip_tail].
Qed.

Lemma strip_strip c s : strip c (strip c s) = strip c s.
Proof.
  destruct (strip_ends c s) as [Hhead Htail].
  unfold strip at 1. by rewrite (lstrip_id _ _ Hhead), (rstrip_id _ _ Htail).
Qed.

(** X19 — [_manifest_key] does not depend on the slashes around the
    prefix: a prefix with one more leading or trailing slash, and the
    prefix already stripped, give the same key.  The key never starts with
    a slash; it is [bedrock-usage/manifest.json] alone when the prefix
    holds nothing but slashes and otherwise the stripped prefix, which
    neither starts nor ends with a slash, one slash and that name. *)
Theorem manifest_key_ignores_slashes prefix :
  _manifest_key (String "/" prefix) = _manifest_key prefix /\
  _manifest_key (prefix +:+ "/") = _manifest_key prefix /\
  _manifest_key (strip "/" prefix) = _manifest_key prefix /\
  PyStr.startswith "/" (_manifest_key prefix) = false /\
  PyStr.startswith "/" (strip "/" prefix) = false /\
  ends_with "/" (strip "/" prefix) = false /\
  (strip "/" prefix = "" -> _manifest_key prefix = "bedrock-usage/manifest.json") /\
  (strip "/" prefix <> "" ->
   _manifest_key prefix = strip "/" prefix +:+ "/" +:+ "bedrock-usage/manifest.json").
Proof.
  destruct (strip_ends "/" prefix) as [Hhead Htail].
  unfold _manifest_key.
  split; [by unfold strip; cbn [lstrip]; rewrite decide_True|].
  split; [by rewrite strip_snoc|].
  split; [by rewrite strip_strip|].
  split.
  { destruct (strip "/" prefix) as [|a clean]; [done|]. cbn [str_truthy].
    rewrite app_cons_str. cbn [PyStr.startswith] in *. by case_decide. }
  split; [done|]. split; [done|].
  split; [by intros ->|].
  intros Hclean. by destruct (strip "/" prefix).
Qed.
End manifest_key_facts.
